(** * The deflate engine of jkskj/deflate (package [compress]) in Rocq

    A shallow embedding of [compress.go]: the level normalizer, the pools of
    zlib writers and readers, the two dispatch paths of [WriteDeflateLevel],
    [WriteInflate] and the two byte-slice wrappers; and of package [deflate]
    around it: the options, the exclusion lists, the server and the client
    middleware and the two default decompression functions.

    What is not code of the repository is kept abstract: the DEFLATE codec of
    Go's [compress/zlib] and the copy loop of hertz's [utils] are variables of
    the section, described only by what they hand to a sink or return.  A small
    conforming codec ([Module StoredZlib]) instantiates them where a closed
    statement needs bytes.  In the same way the headers of hertz, regular
    expressions and the Unicode-aware functions of [strings] are fields of
    two classes, with a plain instance in [Module Plain].

    Byte slices that the engine appends to are slices of backing arrays in
    a store, so that a slice kept by the caller can be read again after the
    call; payloads, which are only read, are lists of bytes.

    The embedding is sequential: one call of the engine runs at a time.  In
    that setting the job queue behind [stackless.NewFunc] (2048 slots per CPU)
    always has room, so the wrapper runs its function and reports [true]. *)

From Stdlib Require Import ZArith Lia Bool.
From Stdlib Require Import Strings.Byte Strings.Ascii.
From stdpp Require Import base option list strings gmap.

Local Open Scope Z_scope.

(** ** Go values *)

Abbreviation bytes := (list byte).

(** [int] is 32 or 64 bits wide, depending on the platform. *)
Inductive Arch := Arch32 | Arch64.

Definition int_bits (a : Arch) : Z :=
  match a with Arch32 => 32 | Arch64 => 64 end.

(** Two's complement wrap-around of a [bits]-wide signed integer. *)
Definition wrap (bits z : Z) : Z :=
  (z + 2 ^ (bits - 1)) mod 2 ^ bits - 2 ^ (bits - 1).

Definition to_int (a : Arch) (z : Z) : Z := wrap (int_bits a) z.
Definition to_int64 (z : Z) : Z := wrap 64 z.

(** [len(p)] *)
Definition len {A} (p : list A) : Z := Z.of_nat (length p).

(** Go [error] values that the engine meets; [None : option error] is [nil]. *)
Inductive error :=
| EOF                         (* io.EOF *)
| ErrUnexpectedEOF            (* io.ErrUnexpectedEOF *)
| ErrInvalidLevel (level : Z) (* "zlib: invalid compression level: %d" *)
| ErrHeader                   (* zlib.ErrHeader *)
| ErrDictionary               (* zlib.ErrDictionary *)
| ErrChecksum                 (* zlib.ErrChecksum *)
| ErrCorruptInput             (* flate.CorruptInputError *)
| ErrShortWrite               (* io.ErrShortWrite *)
| ErrTooMuchData (n : Z)      (* fmt.Errorf("too much data inflated: %d", n) *)
| ErrDestination (code : nat) (* whatever a destination reports *).

(** ** Compression levels *)

(** The constants of [compress/flate], which [compress/zlib] re-exports. *)
Definition flate_NoCompression : Z := 0.
Definition flate_BestSpeed : Z := 1.
Definition flate_BestCompression : Z := 9.
Definition flate_DefaultCompression : Z := -1.
Definition flate_HuffmanOnly : Z := -2.

Definition zlib_HuffmanOnly : Z := flate_HuffmanOnly.
Definition zlib_BestCompression : Z := flate_BestCompression.

(** Package [deflate]: the exposed constants. *)
Definition BestCompression : Z := flate_BestCompression.
Definition BestSpeed : Z := flate_BestSpeed.
Definition DefaultCompression : Z := flate_DefaultCompression.
Definition NoCompression : Z := flate_NoCompression.

(** Package [compress]. *)
Definition CompressDefaultCompression : Z := 6.

Section Normalizer.
Variable arch : Arch.

(** [normalizeCompressLevel]: the sum is an [int] addition. *)
Definition normalizeCompressLevel (level : Z) : Z :=
  let level :=
    if (level <? -2) || (level >? 9) then CompressDefaultCompression
    else level in
  to_int arch (level + 2).
End Normalizer.

(** ** Destinations

    [io.Writer] values.  The type switch of [WriteDeflateLevel] tells three
    in-memory buffers from every other writer; [xWriter] is the private
    buffer of a [stackless.Writer]. *)

(** Any other [io.Writer] (a connection, the [defaultByteWriter] of the
    tests): a deterministic machine whose [k]-th [Write] call accepts a
    number of bytes and may report an error. *)
Record Sink := mkSink {
  sink_data : bytes;                 (* bytes accepted so far *)
  sink_calls : nat;                  (* Write calls served so far *)
  sink_errs : list error;            (* errors reported so far *)
  sink_behave : nat -> bytes -> nat * option error
}.

Definition Sink_Write (s : Sink) (p : bytes) : Sink * (Z * option error) :=
  let '(n, e) := sink_behave s (sink_calls s) p in
  let n := Nat.min n (length p) in
  ({| sink_data := sink_data s ++ take n p;
      sink_calls := S (sink_calls s);
      sink_errs := sink_errs s ++ match e with Some x => [x] | None => [] end;
      sink_behave := sink_behave s |},
   (Z.of_nat n, e)).

(** ** Go slices

    A [[]byte] is a window on a backing array, which it shares with the
    slice it was appended from as long as the capacity suffices.  A [Store]
    holds the backing arrays by allocation number; a slice is the number of
    its array (none for [nil]) and its length, its first cell being the
    first of the array and its capacity the length of the array. *)

Abbreviation Store := (list bytes).

Record slice := { sl_ptr : option nat; sl_len : nat }.

Definition nil_slice : slice := {| sl_ptr := None; sl_len := 0 |}.

(** The cells of the backing array, up to the capacity. *)
Definition slice_array (heap : Store) (s : slice) : bytes :=
  match sl_ptr s with
  | Some i => default [] (heap !! i)
  | None => []
  end.

(** The elements [s[0:len(s)]]. *)
Definition slice_bytes (heap : Store) (s : slice) : bytes :=
  take (sl_len s) (slice_array heap s).

Record byteSliceWriter := { b : slice }.

(** A byte-slice writer comes with the store its slice lives in. *)
Inductive Writer :=
| W_byteSliceWriter (w : byteSliceWriter) (heap : Store)  (* *byteSliceWriter *)
| W_bytes_Buffer (buf : bytes)              (* *bytes.Buffer *)
| W_ByteBuffer (buf : bytes)                (* *bytebufferpool.ByteBuffer *)
| W_xWriter (buf : bytes)                   (* *stackless.xWriter *)
| W_other (s : Sink).

(** What a destination has received. *)
Definition Writer_bytes (w : Writer) : bytes :=
  match w with
  | W_byteSliceWriter w heap => slice_bytes heap (b w)
  | W_bytes_Buffer buf | W_ByteBuffer buf | W_xWriter buf => buf
  | W_other s => sink_data s
  end.

(** The slice of a byte-slice writer, with its store. *)
Definition Writer_slice (w : Writer) : Store * slice :=
  match w with
  | W_byteSliceWriter w heap => (heap, b w)
  | _ => ([], nil_slice)
  end.

Section GoAppend.
(** The room beyond the need that the runtime gives to a new backing
    array, from the old capacity and the needed length. *)
Variable growslice : nat -> nat -> nat.

(** [append(s, p...)]: in place when the capacity suffices, into a new
    array otherwise. *)
Definition go_append (heap : Store) (s : slice) (p : bytes) : Store * slice :=
  let arr := slice_array heap s in
  let n := sl_len s in
  if (n + length p <=? length arr)%nat then
    match sl_ptr s with
    | Some i =>
        (<[i := take n arr ++ p ++ drop (n + length p) arr]> heap,
         {| sl_ptr := Some i; sl_len := n + length p |})
    | None => (heap, s)
    end
  else
    let old := take n arr in
    (heap ++ [old ++ p
                ++ replicate (growslice (length arr) (length old + length p)) x00],
     {| sl_ptr := Some (length heap); sl_len := length old + length p |}).

(** [func (w *byteSliceWriter) Write(p []byte) (int, error)] *)
Definition byteSliceWriter_Write (heap : Store) (w : byteSliceWriter) (p : bytes)
  : Store * byteSliceWriter * (Z * option error) :=
  let '(heap', s) := go_append heap (b w) p in
  (heap', {| b := s |}, (len p, None)).

(** [w.Write(p)] through the interface. The library buffers append and
    report [len(p), nil]. *)
Definition Writer_Write (w : Writer) (p : bytes) : Writer * (Z * option error) :=
  match w with
  | W_byteSliceWriter w heap =>
      let '(heap', w', r) := byteSliceWriter_Write heap w p in
      (W_byteSliceWriter w' heap', r)
  | W_bytes_Buffer buf => (W_bytes_Buffer (buf ++ p), (len p, None))
  | W_ByteBuffer buf => (W_ByteBuffer (buf ++ p), (len p, None))
  | W_xWriter buf => (W_xWriter (buf ++ p), (len p, None))
  | W_other s => let '(s', r) := Sink_Write s p in (W_other s', r)
  end.
End GoAppend.

(** ** Sources *)

Record byteSliceReader := { r_b : bytes }.

(** [func (r *byteSliceReader) Read(p []byte) (int, error)], for a buffer
    [p] of [plen] cells: the bytes copied into [p], and the results. *)
Definition byteSliceReader_Read (r : byteSliceReader) (plen : nat)
  : byteSliceReader * bytes * (Z * option error) :=
  if len (r_b r) =? 0 then (r, [], (0, Some EOF))
  else
    let n := Nat.min plen (length (r_b r)) in
    ({| r_b := drop n (r_b r) |}, take n (r_b r), (Z.of_nat n, None)).

(** Reading a source to its end through buffers of [plen] cells, as the
    buffered reader inside [zlib] does: the bytes obtained and the error
    that ends them. *)
Fixpoint byteSliceReader_drain (fuel plen : nat) (r : byteSliceReader)
  : bytes * option error :=
  match fuel with
  | O => ([], None)
  | S fuel' =>
      let '(r', got, (_, err)) := byteSliceReader_Read r plen in
      match err with
      | Some e => (got, Some e)
      | None =>
          let '(rest, e) := byteSliceReader_drain fuel' plen r' in
          (got ++ rest, e)
      end
  end.

(** ** The codec objects of [compress/zlib]

    A [zlib.Writer] keeps its level for life; [Reset] rebinds it and puts it
    back in its initial state.  The engine writes once and closes; what the
    library does when a closed writer is used again without [Reset], or on a
    second [Write], is not modelled (the operation has no result here). *)

Inductive result (A : Type) :=
| Ok (a : A)
| Err (e : error).
Arguments Ok {A} a.
Arguments Err {A} e.

Inductive zwState :=
| zwFresh                (* new or reset: nothing written *)
| zwWrote (q : bytes)    (* header out, q taken in *)
| zwClosed.

Record zlibWriter := {
  zw_w : Writer;         (* the writer it is bound to *)
  zw_level : Z;
  zw_state : zwState
}.

Record zlibReader := {
  zr_r : byteSliceReader (* the source it is bound to *)
}.

(** [zlib.NewWriterLevel]: an error exactly for a level outside
    [HuffmanOnly..BestCompression]. *)
Definition zlib_NewWriterLevel (w : Writer) (level : Z) : result zlibWriter :=
  if (level <? zlib_HuffmanOnly) || (level >? zlib_BestCompression)
  then Err (ErrInvalidLevel level)
  else Ok {| zw_w := w; zw_level := level; zw_state := zwFresh |}.

(** [zw.Reset(w)] of a [zlib.Writer]: level unchanged. *)
Definition zw_Reset (zw : zlibWriter) (w : Writer) : zlibWriter :=
  {| zw_w := w; zw_level := zw_level zw; zw_state := zwFresh |}.

(** A [stackless.Writer] of hertz: the wrapped writer [zw] is bound to the
    private buffer; after each operation the buffer is forwarded to [dstW]
    in one [Write] and emptied. *)
Record stacklessWriter := {
  sw_dstW : Writer;
  sw_zw : zlibWriter
}.

(** ** The pools *)

Record Pools := {
  realDeflateWriterPoolMap : list (list zlibWriter);
  stacklessDeflateWriterPoolMap : list (list stacklessWriter);
  flateReaderPool : list zlibReader
}.

(** [newCompressWriterPoolMap]: twelve empty pools, appended one by one. *)
Fixpoint newCompressWriterPoolMap_loop {A} (n : nat) (m : list (list A))
  : list (list A) :=
  match n with
  | O => m
  | S n' => newCompressWriterPoolMap_loop n' (m ++ [[]])
  end.

Definition newCompressWriterPoolMap {A} : list (list A) :=
  newCompressWriterPoolMap_loop 12 [].

(** The package variables at start-up. *)
Definition initPools : Pools :=
  {| realDeflateWriterPoolMap := newCompressWriterPoolMap;
     stacklessDeflateWriterPoolMap := newCompressWriterPoolMap;
     flateReaderPool := [] |}.

(** ** Computations over the pools

    A computation reads and updates the package variables; [None] is a
    panic (an index out of range) or a use of the codec that is not
    modelled. *)

Definition M (A : Type) : Type := Pools -> option (A * Pools).

#[global] Instance M_ret : MRet M := fun A x st => Some (x, st).
#[global] Instance M_bind : MBind M := fun A B f m st =>
  match m st with
  | Some (a, st') => f a st'
  | None => None
  end.

Definition panic {A} : M A := fun _ => None.

(** [m[i]] on a slice. *)
Definition index {A} (m : list A) (i : Z) : option A :=
  if i <? 0 then None else m !! Z.to_nat i.

(** [sync.Pool]: [Get] takes an idle object if there is one (here the one
    put last), [Put] adds one.  That the runtime may drop idle objects at
    any time shows in [reachable] and in the theorems, which hold for every
    content of the pools. *)
Definition Pool_Get {A} (p : list A) : option A * list A :=
  match p with
  | [] => (None, [])
  | v :: p' => (Some v, p')
  end.

Definition Pool_Put {A} (p : list A) (v : A) : list A := v :: p.

Definition set_realDeflateWriterPoolMap (m : list (list zlibWriter)) (st : Pools) : Pools :=
  {| realDeflateWriterPoolMap := m;
     stacklessDeflateWriterPoolMap := stacklessDeflateWriterPoolMap st;
     flateReaderPool := flateReaderPool st |}.

Definition set_stacklessDeflateWriterPoolMap (m : list (list stacklessWriter)) (st : Pools) : Pools :=
  {| realDeflateWriterPoolMap := realDeflateWriterPoolMap st;
     stacklessDeflateWriterPoolMap := m;
     flateReaderPool := flateReaderPool st |}.

Definition set_flateReaderPool (p : list zlibReader) (st : Pools) : Pools :=
  {| realDeflateWriterPoolMap := realDeflateWriterPoolMap st;
     stacklessDeflateWriterPoolMap := stacklessDeflateWriterPoolMap st;
     flateReaderPool := p |}.

(** [p := realDeflateWriterPoolMap[nLevel]; v := p.Get()] *)
Definition realDeflateWriterPool_Get (nLevel : Z) : M (option zlibWriter) :=
  fun st =>
    match index (realDeflateWriterPoolMap st) nLevel with
    | None => None
    | Some p =>
        Some (fst (Pool_Get p),
              set_realDeflateWriterPoolMap
                (<[Z.to_nat nLevel := snd (Pool_Get p)]> (realDeflateWriterPoolMap st)) st)
    end.

(** [p := realDeflateWriterPoolMap[nLevel]; p.Put(zw)] *)
Definition realDeflateWriterPool_Put (nLevel : Z) (zw : zlibWriter) : M unit :=
  fun st =>
    match index (realDeflateWriterPoolMap st) nLevel with
    | None => None
    | Some p =>
        Some (tt,
              set_realDeflateWriterPoolMap
                (<[Z.to_nat nLevel := Pool_Put p zw]> (realDeflateWriterPoolMap st)) st)
    end.

Definition stacklessDeflateWriterPool_Get (nLevel : Z) : M (option stacklessWriter) :=
  fun st =>
    match index (stacklessDeflateWriterPoolMap st) nLevel with
    | None => None
    | Some p =>
        Some (fst (Pool_Get p),
              set_stacklessDeflateWriterPoolMap
                (<[Z.to_nat nLevel := snd (Pool_Get p)]> (stacklessDeflateWriterPoolMap st)) st)
    end.

Definition stacklessDeflateWriterPool_Put (nLevel : Z) (sw : stacklessWriter) : M unit :=
  fun st =>
    match index (stacklessDeflateWriterPoolMap st) nLevel with
    | None => None
    | Some p =>
        Some (tt,
              set_stacklessDeflateWriterPoolMap
                (<[Z.to_nat nLevel := Pool_Put p sw]> (stacklessDeflateWriterPoolMap st)) st)
    end.

Definition flateReaderPool_Get : M (option zlibReader) :=
  fun st =>
    Some (fst (Pool_Get (flateReaderPool st)),
          set_flateReaderPool (snd (Pool_Get (flateReaderPool st))) st).

Definition flateReaderPool_Put (zr : zlibReader) : M unit :=
  fun st => Some (tt, set_flateReaderPool (Pool_Put (flateReaderPool st) zr) st).

(** ** The engine *)

Record compressCtx := {
  ctx_w : Writer;
  ctx_p : bytes;
  ctx_level : Z
}.

Section Engine.
Variable arch : Arch.

(** The allocation policy of the runtime. *)
Variable growslice : nat -> nat -> nat.

(** *** The libraries (not code of this repository) *)

(** The bytes a [zlib.Writer] of the given level hands to its sink during
    the first [Write(p)] after creation or [Reset], and during the [Close]
    that follows. *)
Variable zlib_write_out : Z -> bytes -> bytes.
Variable zlib_close_out : Z -> bytes -> bytes.

(** What [zlib.NewReader] and [Reset] answer after reading the header of a
    source, and what the reader then delivers through [Read]: the
    decompressed bytes and the error that ends them, [None] for [io.EOF]. *)
Variable zlib_read_header : bytes -> option error.
Variable zlib_read_all : bytes -> bytes * option error.

(** [utils.CopyZeroAlloc(network.NewWriter(w), zr)], given what [zr]
    delivers: the destination afterwards, the [int64] count and the error. *)
Variable CopyZeroAlloc :
  Writer -> bytes * option error -> Writer * (Z * option error).

(** The stream of one write-then-close cycle. *)
Definition zlib_stream (level : Z) (p : bytes) : bytes :=
  zlib_write_out level p ++ zlib_close_out level p.

(** *** zlib writers at work *)

(** A [zlib.Writer] of the engine is bound to an in-memory buffer, which
    takes whatever it is handed. *)
Definition buffer_append (w : Writer) (out : bytes) : option Writer :=
  match w with
  | W_other _ => None
  | _ => Some (fst (Writer_Write growslice w out))
  end.

Definition zw_emit (zw : zlibWriter) (out : bytes) (s : zwState) : M zlibWriter :=
  match buffer_append (zw_w zw) out with
  | Some w' => mret {| zw_w := w'; zw_level := zw_level zw; zw_state := s |}
  | None => panic
  end.

(** [zw.Write(p)] *)
Definition zw_Write (zw : zlibWriter) (p : bytes)
  : M (zlibWriter * (Z * option error)) :=
  match zw_state zw with
  | zwFresh =>
      zw' ← zw_emit zw (zlib_write_out (zw_level zw) p) (zwWrote p);
      mret (zw', (len p, None))
  | _ => panic
  end.

(** [zw.Close()]; without a write before it, the stream of no data. *)
Definition zw_Close (zw : zlibWriter) : M (zlibWriter * option error) :=
  match zw_state zw with
  | zwFresh =>
      zw' ← zw_emit zw (zlib_stream (zw_level zw) []) zwClosed;
      mret (zw', None)
  | zwWrote q =>
      zw' ← zw_emit zw (zlib_close_out (zw_level zw) q) zwClosed;
      mret (zw', None)
  | zwClosed => panic
  end.

(** [acquireRealDeflateWriter] *)
Definition acquireRealDeflateWriter (w : Writer) (level : Z) : M zlibWriter :=
  let nLevel := normalizeCompressLevel arch level in
  v ← realDeflateWriterPool_Get nLevel;
  match v with
  | None =>
      match zlib_NewWriterLevel w level with
      | Err _ =>
          (* zlib.NewWriterLevel only errors for invalid compression
             levels. Clamp it to be min or max. *)
          let level :=
            if level <? zlib_HuffmanOnly then zlib_HuffmanOnly
            else zlib_BestCompression in
          match zlib_NewWriterLevel w level with
          | Ok zw => mret zw
          | Err _ => panic   (* a nil writer, dereferenced by the caller *)
          end
      | Ok zw => mret zw
      end
  | Some zw => mret (zw_Reset zw w)
  end.

(** [releaseRealDeflateWriter]; the result is the destination as [Close]
    leaves it (in Go the caller shares it by pointer). *)
Definition releaseRealDeflateWriter (zw : zlibWriter) (level : Z) : M Writer :=
  '(zw, _) ← zw_Close zw;
  let nLevel := normalizeCompressLevel arch level in
  _ ← realDeflateWriterPool_Put nLevel zw;
  mret (zw_w zw).

(** [nonblockingWriteDeflate] *)
Definition nonblockingWriteDeflate (ctx : compressCtx) : M Writer :=
  zw ← acquireRealDeflateWriter (ctx_w ctx) (ctx_level ctx);
  '(zw, _) ← zw_Write zw (ctx_p ctx);   (* no way to handle this error anyway *)
  releaseRealDeflateWriter zw (ctx_level ctx).

(** [stacklessWriteDeflate]: the wrapper of [stackless.NewFunc] runs the
    function on a worker and waits for it. *)
Definition stacklessWriteDeflate (ctx : compressCtx) : M Writer :=
  nonblockingWriteDeflate ctx.

(** *** hertz's [stackless.Writer] *)

Definition stackless_NewWriter (dstW : Writer)
    (newWriter : Writer -> M zlibWriter) : M stacklessWriter :=
  zw ← newWriter (W_xWriter []);
  mret {| sw_dstW := dstW; sw_zw := zw |}.

(** [if len(xw) > 0 { _, err = w.dstW.Write(xw) }] *)
Definition stackless_forward (dstW : Writer) (xw : bytes) : Writer * option error :=
  if len xw >? 0
  then (fst (Writer_Write growslice dstW xw), snd (snd (Writer_Write growslice dstW xw)))
  else (dstW, None).

(** The end of [do]: unless the operation failed, the private buffer goes
    to [dstW] when it is not empty, and is emptied. *)
Definition stackless_do (dstW : Writer) (zw : zlibWriter) (err : option error)
  : stacklessWriter * option error :=
  match err with
  | Some e => ({| sw_dstW := dstW; sw_zw := zw |}, Some e)
  | None =>
      let xw := Writer_bytes (zw_w zw) in
      ({| sw_dstW := fst (stackless_forward dstW xw);
          sw_zw := {| zw_w := W_xWriter [];
                      zw_level := zw_level zw;
                      zw_state := zw_state zw |} |},
       snd (stackless_forward dstW xw))
  end.

Definition stackless_Write (sw : stacklessWriter) (p : bytes)
  : M (stacklessWriter * (Z * option error)) :=
  '(zw, (n, err)) ← zw_Write (sw_zw sw) p;
  let '(sw', err') := stackless_do (sw_dstW sw) zw err in
  mret (sw', (n, err')).

Definition stackless_Close (sw : stacklessWriter)
  : M (stacklessWriter * option error) :=
  '(zw, err) ← zw_Close (sw_zw sw);
  mret (stackless_do (sw_dstW sw) zw err).

Definition stackless_Reset (sw : stacklessWriter) (dstW : Writer) : stacklessWriter :=
  {| sw_dstW := dstW; sw_zw := zw_Reset (sw_zw sw) (W_xWriter []) |}.

(** [AcquireStacklessDeflateWriter] *)
Definition AcquireStacklessDeflateWriter (w : Writer) (level : Z) : M stacklessWriter :=
  let nLevel := normalizeCompressLevel arch level in
  v ← stacklessDeflateWriterPool_Get nLevel;
  match v with
  | None =>
      stackless_NewWriter w (fun w => acquireRealDeflateWriter w level)
  | Some sw => mret (stackless_Reset sw w)
  end.

(** [releaseStacklessDeflateWriter]; the result is the destination as
    [Close] leaves it. *)
Definition releaseStacklessDeflateWriter (sw : stacklessWriter) (level : Z) : M Writer :=
  '(sw, _) ← stackless_Close sw;
  let nLevel := normalizeCompressLevel arch level in
  _ ← stacklessDeflateWriterPool_Put nLevel sw;
  mret (sw_dstW sw).

(** [WriteDeflateLevel]: the destination afterwards, and [(int, error)]. *)
Definition WriteDeflateLevel (w : Writer) (p : bytes) (level : Z)
  : M (Writer * (Z * option error)) :=
  match w with
  | W_byteSliceWriter _ _ | W_bytes_Buffer _ | W_ByteBuffer _ =>
      (* These writers don't block, so we can just use stacklessWriteDeflate *)
      let ctx := {| ctx_w := w; ctx_p := p; ctx_level := level |} in
      w' ← stacklessWriteDeflate ctx;
      mret (w', (len p, None))
  | _ =>
      zw ← AcquireStacklessDeflateWriter w level;
      '(zw, (n, err)) ← stackless_Write zw p;
      w' ← releaseStacklessDeflateWriter zw level;
      mret (w', (n, err))
  end.

(** [AppendDeflateBytesLevel], for [dst] in a store: the store afterwards
    with the slice returned, and the error. *)
Definition AppendDeflateBytesLevel (heap : Store) (dst : slice) (src : bytes)
    (level : Z) : M (Store * slice * option error) :=
  let w := {| b := dst |} in
  '(w', (_, err)) ← WriteDeflateLevel (W_byteSliceWriter w heap) src level;
  mret (Writer_slice w', err).

(** *** Decompression *)

(** [zlib.NewReader(r)] and [zr.Reset(r, nil)] read the header of [r]. *)
Definition zlib_NewReader (r : byteSliceReader) : result zlibReader :=
  match zlib_read_header (r_b r) with
  | Some e => Err e
  | None => Ok {| zr_r := r |}
  end.

Definition zr_Reset (zr : zlibReader) (r : byteSliceReader)
  : zlibReader * option error :=
  ({| zr_r := r |}, zlib_read_header (r_b r)).

(** [resetFlateReader]: every pooled reader is a zlib reader, the type
    assertion holds. *)
Definition resetFlateReader (zr : zlibReader) (r : byteSliceReader)
  : zlibReader * option error :=
  zr_Reset zr r.

(** [acquireFlateReader] *)
Definition acquireFlateReader (r : byteSliceReader) : M (result zlibReader) :=
  v ← flateReaderPool_Get;
  match v with
  | None =>
      match zlib_NewReader r with
      | Err err => mret (Err err)
      | Ok zr => mret (Ok zr)
      end
  | Some zr =>
      let '(zr, err) := resetFlateReader zr r in
      match err with
      | Some err => mret (Err err)
      | None => mret (Ok zr)
      end
  end.

(** [releaseFlateReader] *)
Definition releaseFlateReader (zr : zlibReader) : M unit :=
  flateReaderPool_Put zr.

(** [WriteInflate]: the destination afterwards, and [(int, error)]. *)
Definition WriteInflate (w : Writer) (p : bytes)
  : M (Writer * (Z * option error)) :=
  let r := {| r_b := p |} in
  x ← acquireFlateReader r;
  match x with
  | Err err => mret (w, (0, Some err))
  | Ok zr =>
      let '(w', (n, err)) :=
        CopyZeroAlloc w (zlib_read_all (r_b (zr_r zr))) in
      _ ← releaseFlateReader zr;
      let nn := to_int arch n in
      if negb (to_int64 nn =? n)
      then mret (w', (0, Some (ErrTooMuchData n)))
      else mret (w', (nn, err))
  end.

(** [AppendInflateBytes], for [dst] in a store. *)
Definition AppendInflateBytes (heap : Store) (dst : slice) (src : bytes)
  : M (Store * slice * option error) :=
  let w := {| b := dst |} in
  '(w', (_, err)) ← WriteInflate (W_byteSliceWriter w heap) src;
  mret (Writer_slice w', err).

(** *** Which writer serves a request *)

(** The level [acquireRealDeflateWriter] creates a writer with when the
    pool is empty. *)
Definition created_level (level : Z) : Z :=
  if (level <? zlib_HuffmanOnly) || (level >? zlib_BestCompression)
  then if level <? zlib_HuffmanOnly then zlib_HuffmanOnly else zlib_BestCompression
  else level.

(** The level of the writer [acquireRealDeflateWriter] returns in a state:
    that of the idle writer on top of the pool, or that of a new one. *)
Definition real_level (st : Pools) (level : Z) : Z :=
  match index (realDeflateWriterPoolMap st) (normalizeCompressLevel arch level) with
  | Some (zw :: _) => zw_level zw
  | _ => created_level level
  end.

(** The same for [AcquireStacklessDeflateWriter]. *)
Definition stackless_level (st : Pools) (level : Z) : Z :=
  match index (stacklessDeflateWriterPoolMap st) (normalizeCompressLevel arch level) with
  | Some (sw :: _) => zw_level (sw_zw sw)
  | _ => real_level st level
  end.

(** The writers a [zlib.Writer] is bound to: everything but [W_other]. *)
Definition is_buffer (w : Writer) : bool :=
  match w with
  | W_other _ => false
  | _ => true
  end.

(** The first case of the type switch of [WriteDeflateLevel]. *)
Definition takes_inline_path (w : Writer) : bool :=
  match w with
  | W_byteSliceWriter _ _ | W_bytes_Buffer _ | W_ByteBuffer _ => true
  | _ => false
  end.

(** What a buffer holds after it is handed [out]. *)
Definition appended (w : Writer) (out : bytes) : Writer :=
  fst (Writer_Write growslice w out).

(** The stackless path seen from its destination: the forward that ends
    [Write(p)], with its error, then the forward that ends [Close]. *)
Definition stackless_written (w : Writer) (lv : Z) (p : bytes) : Writer * option error :=
  stackless_forward w (zlib_write_out lv p).

Definition stackless_closed (w : Writer) (lv : Z) (p : bytes) : Writer * option error :=
  stackless_forward (fst (stackless_written w lv p)) (zlib_close_out lv p).

(** The decompressed bytes that reach the destination for a source: none
    when the header is refused. *)
Definition inflated (src : bytes) : bytes :=
  match zlib_read_header src with
  | Some _ => []
  | None => fst (zlib_read_all src)
  end.

(** *** Slices that share an array *)

(** The array of a slice is allocated. *)
Definition valid_slice (heap : Store) (s : slice) : Prop :=
  match sl_ptr s with
  | Some i => (i < length heap)%nat
  | None => True
  end.

(** [s] in [heap] comes from [d] in [heap0] by appends: no array of
    [heap0] other than that of [d] has changed, the elements of [d] are
    what they were, and [s] is either on the array of [d], past its
    elements, or on an array allocated since. *)
Definition grown (heap0 : Store) (d : slice) (heap : Store) (s : slice) : Prop :=
  (length heap0 <= length heap)%nat /\
  (forall i, (i < length heap0)%nat -> sl_ptr d <> Some i -> heap !! i = heap0 !! i) /\
  slice_bytes heap d = slice_bytes heap0 d /\
  valid_slice heap s /\
  ((sl_ptr s = sl_ptr d /\ (sl_len d <= sl_len s)%nat) \/
   (exists j, sl_ptr s = Some j /\ (length heap0 <= j)%nat)).

(** [w] comes from [w0] by handing it [out] in one or more writes: it is
    the same kind of writer and holds [out] after what [w0] held; for a
    byte-slice writer on an allocated array, its slice is [grown] from that
    of [w0]. *)
Definition extended (w0 w : Writer) (out : bytes) : Prop :=
  Writer_bytes w = Writer_bytes w0 ++ out /\
  match w0, w with
  | W_byteSliceWriter x0 h0, W_byteSliceWriter x h =>
      valid_slice h0 (b x0) -> grown h0 (b x0) h (b x)
  | W_bytes_Buffer _, W_bytes_Buffer _ => True
  | W_ByteBuffer _, W_ByteBuffer _ => True
  | W_xWriter _, W_xWriter _ => True
  | _, _ => False
  end.

(** *** Invariants of the pools *)

Definition valid_level (level : Z) : Prop :=
  zlib_HuffmanOnly <= level <= zlib_BestCompression.

(** Both maps have their twelve pools and every idle codec writer has a
    level the codec supports. *)
Definition pools_wf (st : Pools) : Prop :=
  length (realDeflateWriterPoolMap st) = 12%nat /\
  length (stacklessDeflateWriterPoolMap st) = 12%nat /\
  Forall (Forall (fun zw => valid_level (zw_level zw)))
         (realDeflateWriterPoolMap st) /\
  Forall (Forall (fun sw => valid_level (zw_level (sw_zw sw))))
         (stacklessDeflateWriterPoolMap st).

(** The level-keyed discipline: an idle writer in pool [i] compresses at a
    level whose index is [i]. *)
Definition pools_level_keyed (st : Pools) : Prop :=
  (forall (i : nat) (p : list zlibWriter),
      realDeflateWriterPoolMap st !! i = Some p ->
      Forall (fun zw => normalizeCompressLevel arch (zw_level zw) = Z.of_nat i) p) /\
  (forall (i : nat) (p : list stacklessWriter),
      stacklessDeflateWriterPoolMap st !! i = Some p ->
      Forall (fun sw => normalizeCompressLevel arch (zw_level (sw_zw sw)) = Z.of_nat i) p).

(** The states the package variables can be in: the start-up state, what
    the exported functions make of a state, and a state in which the runtime
    has dropped the idle objects of a pool. *)
Inductive reachable : Pools -> Prop :=
| reachable_init : reachable initPools
| reachable_drop_real st (i : nat) :
    reachable st ->
    reachable (set_realDeflateWriterPoolMap
                 (<[i := []]> (realDeflateWriterPoolMap st)) st)
| reachable_drop_stackless st (i : nat) :
    reachable st ->
    reachable (set_stacklessDeflateWriterPoolMap
                 (<[i := []]> (stacklessDeflateWriterPoolMap st)) st)
| reachable_drop_readers st :
    reachable st ->
    reachable (set_flateReaderPool [] st)
| reachable_WriteDeflateLevel st w p level r st' :
    reachable st ->
    WriteDeflateLevel w p level st = Some (r, st') ->
    reachable st'
| reachable_WriteInflate st w p r st' :
    reachable st ->
    WriteInflate w p st = Some (r, st') ->
    reachable st'
| reachable_AcquireStacklessDeflateWriter st w level sw st' :
    reachable st ->
    AcquireStacklessDeflateWriter w level st = Some (sw, st') ->
    reachable st'.

(** The states reached when every request names a level that the codec
    supports. *)
Inductive reachable_in_range : Pools -> Prop :=
| in_range_init : reachable_in_range initPools
| in_range_drop_real st (i : nat) :
    reachable_in_range st ->
    reachable_in_range (set_realDeflateWriterPoolMap
                          (<[i := []]> (realDeflateWriterPoolMap st)) st)
| in_range_drop_stackless st (i : nat) :
    reachable_in_range st ->
    reachable_in_range (set_stacklessDeflateWriterPoolMap
                          (<[i := []]> (stacklessDeflateWriterPoolMap st)) st)
| in_range_drop_readers st :
    reachable_in_range st ->
    reachable_in_range (set_flateReaderPool [] st)
| in_range_WriteDeflateLevel st w p level r st' :
    reachable_in_range st ->
    valid_level level ->
    WriteDeflateLevel w p level st = Some (r, st') ->
    reachable_in_range st'
| in_range_WriteInflate st w p r st' :
    reachable_in_range st ->
    WriteInflate w p st = Some (r, st') ->
    reachable_in_range st'
| in_range_AcquireStacklessDeflateWriter st w level sw st' :
    reachable_in_range st ->
    valid_level level ->
    AcquireStacklessDeflateWriter w level st = Some (sw, st') ->
    reachable_in_range st'.

End Engine.

(** ** A small codec to compute with

    An instance of the section's variables: RFC 1950 framing as Go writes it
    (header with the level class, Adler-32 trailer) around RFC 1951 stored
    blocks.  The writer sends the header on [Write] and everything else on
    [Close]; the reader understands stored blocks only. *)

Module StoredZlib.

Definition byte_of_Z (z : Z) : byte :=
  match Byte.of_N (Z.to_N (z mod 256)) with
  | Some x => x
  | None => x00
  end.

Definition Z_of_byte (x : byte) : Z := Z.of_N (Byte.to_N x).

Fixpoint bytes_eqb (x y : bytes) : bool :=
  match x, y with
  | [], [] => true
  | a :: x', c :: y' => Byte.eqb a c && bytes_eqb x' y'
  | _, _ => false
  end.

Definition le16 (z : Z) : bytes := [byte_of_Z z; byte_of_Z (z / 256)].

Definition be32 (z : Z) : bytes :=
  [byte_of_Z (z / 16777216); byte_of_Z (z / 65536); byte_of_Z (z / 256); byte_of_Z z].

(** FLEVEL of the header, by level. *)
Definition flevel (level : Z) : Z :=
  if (level =? -2) || (level =? 0) || (level =? 1) then 0
  else if (2 <=? level) && (level <=? 5) then 1
  else if (level =? 6) || (level =? -1) then 2
  else 3.

(** CMF = 0x78, then FLG with FCHECK making the pair a multiple of 31. *)
Definition header (level : Z) : bytes :=
  let flg := flevel level * 64 in
  [byte_of_Z 120; byte_of_Z (flg + (31 - (120 * 256 + flg) mod 31))].

Definition adler32_step (ab : Z * Z) (x : byte) : Z * Z :=
  let a := (fst ab + Z_of_byte x) mod 65521 in
  (a, (snd ab + a) mod 65521).

Definition adler32 (p : bytes) : Z :=
  let ab := fold_left adler32_step p (1, 0) in
  snd ab * 65536 + fst ab.

(** Largest stored block. *)
Definition blockSize : nat := Z.to_nat 65535.

Fixpoint stored_blocks (fuel : nat) (p : bytes) : bytes :=
  match fuel with
  | O => []
  | S fuel' =>
      match p with
      | [] => []
      | _ :: _ =>
          let c := take blockSize p in
          x00 :: le16 (len c) ++ le16 (65535 - len c) ++ c
              ++ stored_blocks fuel' (drop blockSize p)
      end
  end.

(** The empty final block that ends the stream. *)
Definition final_block : bytes := [x01; x00; x00; xff; xff].

Definition zlib_write_out (level : Z) (p : bytes) : bytes := header level.

Definition zlib_close_out (level : Z) (p : bytes) : bytes :=
  stored_blocks (length p) p ++ final_block ++ be32 (adler32 p).

(** The header as [zlib]'s reader checks it; no preset dictionary is
    known, so a dictionary id must be the checksum of no data. *)
Definition zlib_read_header (s : bytes) : option error :=
  match s with
  | cmf :: flg :: s' =>
      let c := Z_of_byte cmf in
      let f := Z_of_byte flg in
      if negb (Z.land c 15 =? 8) || (Z.shiftr c 4 >? 7)
         || negb ((c * 256 + f) mod 31 =? 0)
      then Some ErrHeader
      else if Z.testbit f 5 then
        match s' with
        | d0 :: d1 :: d2 :: d3 :: _ =>
            if bytes_eqb [d0; d1; d2; d3] (be32 (adler32 []))
            then None else Some ErrDictionary
        | _ => Some ErrUnexpectedEOF
        end
      else None
  | _ => Some ErrUnexpectedEOF
  end.

Definition header_length (s : bytes) : nat :=
  match s with
  | _ :: flg :: _ => if Z.testbit (Z_of_byte flg) 5 then 6%nat else 2%nat
  | _ => 2%nat
  end.

(** Stored blocks up to the final one: the data, the error that stopped
    the reader if any, and the input left. *)
Fixpoint inflate_stored (fuel : nat) (s : bytes) : bytes * option error * bytes :=
  match fuel with
  | O => ([], Some ErrUnexpectedEOF, s)
  | S fuel' =>
      match s with
      | h :: l0 :: l1 :: n0 :: n1 :: s' =>
          let hv := Z_of_byte h in
          if negb (Z.land (Z.shiftr hv 1) 3 =? 0)
          then ([], Some ErrCorruptInput, s')
          else
            let n := Z_of_byte l0 + 256 * Z_of_byte l1 in
            let nn := Z_of_byte n0 + 256 * Z_of_byte n1 in
            if negb (nn =? 65535 - n) then ([], Some ErrCorruptInput, s')
            else if len s' <? n then (s', Some ErrUnexpectedEOF, [])
            else
              let c := take (Z.to_nat n) s' in
              let s'' := drop (Z.to_nat n) s' in
              if Z.odd hv then (c, None, s'')
              else
                let '(d, e, r) := inflate_stored fuel' s'' in
                (c ++ d, e, r)
      | _ => ([], Some ErrUnexpectedEOF, [])
      end
  end.

Definition zlib_read_all (s : bytes) : bytes * option error :=
  let body := drop (header_length s) s in
  let '(out, e, rest) := inflate_stored (length body) body in
  match e with
  | Some e => (out, Some e)
  | None =>
      match rest with
      | c0 :: c1 :: c2 :: c3 :: _ =>
          if bytes_eqb [c0; c1; c2; c3] (be32 (adler32 out))
          then (out, None) else (out, Some ErrChecksum)
      | _ => (out, Some ErrUnexpectedEOF)
      end
  end.

(** An allocation policy: a new array has twice the old capacity, or the
    needed length if that is more. *)
Definition growslice (cap needed : nat) : nat := (2 * cap - needed)%nat.

(** A copy loop that passes what the reader delivers in one [Write]. *)
Definition CopyZeroAlloc (w : Writer) (r : bytes * option error)
  : Writer * (Z * option error) :=
  match fst r with
  | [] => (w, (0, snd r))
  | _ :: _ =>
      let '(w', (n, werr)) := Writer_Write growslice w (fst r) in
      (w', (n, match werr with
               | Some e => Some e
               | None => if n <? len (fst r) then Some ErrShortWrite else snd r
               end))
  end.

(** The engine over this codec, on a 64-bit platform. *)
Definition AppendDeflateBytesLevel :=
  AppendDeflateBytesLevel Arch64 growslice zlib_write_out zlib_close_out.
Definition AppendInflateBytes :=
  AppendInflateBytes Arch64 zlib_read_header zlib_read_all CopyZeroAlloc.
Definition WriteDeflateLevel :=
  WriteDeflateLevel Arch64 growslice zlib_write_out zlib_close_out.
Definition WriteInflate :=
  WriteInflate Arch64 zlib_read_header zlib_read_all CopyZeroAlloc.

Definition bytes_of (l : list Z) : bytes := map byte_of_Z l.

End StoredZlib.

(** ** Destinations used in examples *)

(** A destination that takes every byte and never fails. *)
Definition accepting (s : Sink) : Prop :=
  forall k p, sink_behave s k p = (length p, None).

(** [defaultByteWriter] of [compress_test.go]: it appends and reports
    [len(p), nil], and is none of the three types of the switch. *)
Definition defaultByteWriter : Sink :=
  mkSink [] 0 [] (fun _ p => (length p, None)).

(** A destination that fails every [Write]. *)
Definition refusingWriter : Sink :=
  mkSink [] 0 [] (fun _ _ => (0%nat, Some (ErrDestination 0))).

(** A destination that takes its first [Write] and fails the second. *)
Definition brokenAfterFirstWrite : Sink :=
  mkSink [] 0 []
    (fun k p =>
       match k with
       | 1%nat => (0%nat, Some (ErrDestination 1))
       | _ => (length p, None)
       end).

(** 2^31 zero bytes, one more than a 32-bit [int] can count. *)
Definition zeros_2GiB : bytes := x00 :: repeat x00 (Z.to_nat 2147483647).

Definition hello : bytes := ["h"; "e"; "l"; "l"; "o"]%byte.

(** The slice "XYZ" cut from an array of thirty-two cells, the only array
    of its store. *)
Definition XYZ_store : Store := [["X"; "Y"; "Z"]%byte ++ replicate 29 x00].
Definition XYZ : slice := {| sl_ptr := Some 0%nat; sl_len := 3 |}.

(** ** Package [deflate]: the middleware

    [options.go], [srv_middleware.go] and the client middleware.  What comes
    from Go's library and from hertz is kept apart: the simple functions of
    [strings] and [path/filepath] are written out, the others are fields of
    two classes.  A handler or an endpoint is a computation over the pools
    of package [compress]; it cannot reach the options of this package. *)

(** *** Go's library *)

(** [strings.HasPrefix(s, prefix)] *)
Definition strings_HasPrefix (s prefix : string) : bool := String.prefix prefix s.

(** [strings.Contains(s, substr)] *)
Fixpoint strings_Contains (s substr : string) : bool :=
  String.prefix substr s ||
  match s with
  | EmptyString => false
  | String _ s' => strings_Contains s' substr
  end.

(** [os.IsPathSeparator(c)], on Unix. *)
Definition os_IsPathSeparator (c : ascii) : bool := Ascii.eqb c "/"%char.

(** [filepath.Ext(path)]: the loop runs from the last byte down, until a
    separator; [rev_path] is what is left to visit, last byte first, and
    [suffix] what has been passed. *)
Fixpoint filepath_Ext_loop (rev_path suffix : list ascii) : string :=
  match rev_path with
  | [] => ""
  | c :: rest =>
      if os_IsPathSeparator c then ""
      else if Ascii.eqb c "."%char then String.string_of_list_ascii (c :: suffix)
      else filepath_Ext_loop rest (c :: suffix)
  end.

Definition filepath_Ext (path : string) : string :=
  filepath_Ext_loop (rev (String.list_ascii_of_string path)) [].

(** Unicode-aware functions of [strings], and [regexp]. *)
Class GoLibrary := {
  strings_EqualFold : string -> string -> bool;
  strings_TrimSpace : string -> string;
  Regexp : Type;
  (** [regexp.Compile]; [regexp.MustCompile] panics where it fails. *)
  regexp_Compile : string -> option Regexp;
  Regexp_MatchString : Regexp -> string -> bool
}.

(** [net/http] *)
Definition http_StatusBadRequest : Z := 400.

(** *** hertz *)

(** The headers of [protocol.Request] and [protocol.Response]. *)
Class HertzHeaders := {
  RequestHeader : Type;
  RequestHeader_Get : RequestHeader -> string -> string;
  RequestHeader_Set : RequestHeader -> string -> string -> RequestHeader;
  RequestHeader_DelBytes : RequestHeader -> string -> RequestHeader;
  ResponseHeader : Type;
  ResponseHeader_Get : ResponseHeader -> string -> string;
  ResponseHeader_Set : ResponseHeader -> string -> string -> ResponseHeader;
  ResponseHeader_DelBytes : ResponseHeader -> string -> ResponseHeader
}.

(** A body is kept as bytes or as a stream with its announced size; the
    streams of this package are buffers over bytes at hand. *)
Inductive Body :=
| body_bytes (data : bytes)                 (* SetBody(data) *)
| body_stream (data : bytes) (size : Z).    (* SetBodyStream(bytes.NewBuffer(data), size) *)

(** [Body()] *)
Definition Body_bytes (x : Body) : bytes :=
  match x with
  | body_bytes data | body_stream data _ => data
  end.

Section Hertz.
Context {GL : GoLibrary} {HH : HertzHeaders}.

Record Request := {
  req_Header : RequestHeader;
  req_RequestURI : string;          (* req.URI().RequestURI() *)
  req_body : Body
}.

Record Response := {
  resp_Header : ResponseHeader;
  resp_StatusCode : Z;
  resp_body : Body
}.

Record RequestContext := {
  ctx_Request : Request;
  ctx_Response : Response;
  ctx_aborted : bool;               (* the handlers after this one are skipped *)
  ctx_Errors : list error
}.

Definition Request_Body (req : Request) : bytes := Body_bytes (req_body req).
Definition Response_Body (resp : Response) : bytes := Body_bytes (resp_body resp).

Definition Request_with_Header (req : Request) (h : RequestHeader) : Request :=
  {| req_Header := h; req_RequestURI := req_RequestURI req; req_body := req_body req |}.

Definition Request_with_body (req : Request) (x : Body) : Request :=
  {| req_Header := req_Header req; req_RequestURI := req_RequestURI req; req_body := x |}.

Definition Response_with_Header (resp : Response) (h : ResponseHeader) : Response :=
  {| resp_Header := h; resp_StatusCode := resp_StatusCode resp; resp_body := resp_body resp |}.

Definition Response_with_body (resp : Response) (x : Body) : Response :=
  {| resp_Header := resp_Header resp; resp_StatusCode := resp_StatusCode resp; resp_body := x |}.

(** [req.SetHeader(key, value)] *)
Definition Request_SetHeader (req : Request) (key value : string) : Request :=
  Request_with_Header req (RequestHeader_Set (req_Header req) key value).

(** [req.SetBodyStream(bytes.NewBuffer(data), size)] *)
Definition Request_SetBodyStream (req : Request) (data : bytes) (size : Z) : Request :=
  Request_with_body req (body_stream data size).

(** [resp.SetBodyStream(bytes.NewBuffer(data), size)] *)
Definition Response_SetBodyStream (resp : Response) (data : bytes) (size : Z) : Response :=
  Response_with_body resp (body_stream data size).

Definition ctx_with_Request (c : RequestContext) (req : Request) : RequestContext :=
  {| ctx_Request := req; ctx_Response := ctx_Response c;
     ctx_aborted := ctx_aborted c; ctx_Errors := ctx_Errors c |}.

Definition ctx_with_Response (c : RequestContext) (resp : Response) : RequestContext :=
  {| ctx_Request := ctx_Request c; ctx_Response := resp;
     ctx_aborted := ctx_aborted c; ctx_Errors := ctx_Errors c |}.

(** [c.Header(key, value)], for a value that is not empty. *)
Definition ctx_Header (c : RequestContext) (key value : string) : RequestContext :=
  ctx_with_Response c
    (Response_with_Header (ctx_Response c)
       (ResponseHeader_Set (resp_Header (ctx_Response c)) key value)).

(** [c.AbortWithError(code, err)]: the status is set, the chain is cut and
    the error is recorded. *)
Definition ctx_AbortWithError (c : RequestContext) (code : Z) (err : error)
  : RequestContext :=
  {| ctx_Request := ctx_Request c;
     ctx_Response :=
       {| resp_Header := resp_Header (ctx_Response c);
          resp_StatusCode := code;
          resp_body := resp_body (ctx_Response c) |};
     ctx_aborted := true;
     ctx_Errors := ctx_Errors c ++ [err] |}.

(** [app.HandlerFunc], [client.Endpoint] and [client.Middleware]. *)
Definition HandlerFunc : Type := RequestContext -> M RequestContext.
Definition Endpoint : Type := Request -> Response -> M (Request * Response * option error).
Definition Middleware : Type := Endpoint -> Endpoint.

(** *** [options.go] *)

Definition ExcludedExtensions : Type := gmap string bool.
Definition ExcludedPaths : Type := list string.
Definition ExcludedPathRegexes : Type := list Regexp.

Record Options := {
  opt_ExcludedExtensions : ExcludedExtensions;
  opt_ExcludedPaths : ExcludedPaths;
  opt_ExcludedPathRegexes : ExcludedPathRegexes;
  opt_DecompressFn : option HandlerFunc          (* [None] is nil *)
}.

Record ClientOptions := {
  copt_ExcludedExtensions : ExcludedExtensions;
  copt_ExcludedPaths : ExcludedPaths;
  copt_ExcludedPathRegexes : ExcludedPathRegexes;
  copt_DecompressFnForClient : option Middleware
}.

(** [NewExcludedPaths] *)
Definition NewExcludedPaths (paths : list string) : ExcludedPaths := paths.

(** [NewExcludedExtensions] *)
Definition NewExcludedExtensions (extensions : list string) : ExcludedExtensions :=
  foldl (fun (res : ExcludedExtensions) e => <[e := true]> res) ∅ extensions.

(** [NewExcludedPathRegexes]: [None] when [regexp.MustCompile] panics. *)
Definition NewExcludedPathRegexes (regexes : list string) : option ExcludedPathRegexes :=
  mapM regexp_Compile regexes.

(** [func (e ExcludedPathRegexes) Contains(requestURI string) bool] *)
Fixpoint ExcludedPathRegexes_Contains (e : ExcludedPathRegexes) (requestURI : string)
  : bool :=
  match e with
  | [] => false
  | reg :: e' =>
      if Regexp_MatchString reg requestURI then true
      else ExcludedPathRegexes_Contains e' requestURI
  end.

(** [func (e ExcludedExtensions) Contains(target string) bool]: the key is
    looked up, the value is not looked at. *)
Definition ExcludedExtensions_Contains (e : ExcludedExtensions) (target : string) : bool :=
  match e !! target with
  | Some _ => true
  | None => false
  end.

(** [func (e ExcludedPaths) Contains(requestURI string) bool] *)
Fixpoint ExcludedPaths_Contains (e : ExcludedPaths) (requestURI : string) : bool :=
  match e with
  | [] => false
  | path :: e' =>
      if strings_HasPrefix requestURI path then true
      else ExcludedPaths_Contains e' requestURI
  end.

(** The [Options] objects live in a store and are reached by address;
    writing through an address that holds nothing is a panic. *)
Definition Option : Type := nat -> list Options -> option (list Options).
Definition ClientOption : Type := nat -> list ClientOptions -> option (list ClientOptions).

Definition Options_store (f : Options -> Options) : Option :=
  fun o heap =>
    match heap !! o with
    | Some x => Some (<[o := f x]> heap)
    | None => None
    end.

Definition ClientOptions_store (f : ClientOptions -> ClientOptions) : ClientOption :=
  fun o heap =>
    match heap !! o with
    | Some x => Some (<[o := f x]> heap)
    | None => None
    end.

Definition WithExcludedExtensions (args : list string) : Option :=
  Options_store (fun o =>
    {| opt_ExcludedExtensions := NewExcludedExtensions args;
       opt_ExcludedPaths := opt_ExcludedPaths o;
       opt_ExcludedPathRegexes := opt_ExcludedPathRegexes o;
       opt_DecompressFn := opt_DecompressFn o |}).

Definition WithExcludedPathRegexes (args : list string) : Option :=
  fun o heap =>
    match NewExcludedPathRegexes args with
    | None => None
    | Some regs =>
        Options_store (fun o =>
          {| opt_ExcludedExtensions := opt_ExcludedExtensions o;
             opt_ExcludedPaths := opt_ExcludedPaths o;
             opt_ExcludedPathRegexes := regs;
             opt_DecompressFn := opt_DecompressFn o |}) o heap
    end.

(** The same as [WithExcludedPathRegexes]. *)
Definition WithExcludedPathsRegexs (args : list string) : Option :=
  fun o heap =>
    match NewExcludedPathRegexes args with
    | None => None
    | Some regs =>
        Options_store (fun o =>
          {| opt_ExcludedExtensions := opt_ExcludedExtensions o;
             opt_ExcludedPaths := opt_ExcludedPaths o;
             opt_ExcludedPathRegexes := regs;
             opt_DecompressFn := opt_DecompressFn o |}) o heap
    end.

Definition WithExcludedPaths (args : list string) : Option :=
  Options_store (fun o =>
    {| opt_ExcludedExtensions := opt_ExcludedExtensions o;
       opt_ExcludedPaths := NewExcludedPaths args;
       opt_ExcludedPathRegexes := opt_ExcludedPathRegexes o;
       opt_DecompressFn := opt_DecompressFn o |}).

Definition WithDecompressFn (decompressFn : option HandlerFunc) : Option :=
  Options_store (fun o =>
    {| opt_ExcludedExtensions := opt_ExcludedExtensions o;
       opt_ExcludedPaths := opt_ExcludedPaths o;
       opt_ExcludedPathRegexes := opt_ExcludedPathRegexes o;
       opt_DecompressFn := decompressFn |}).

Definition WithDecompressFnForClient (decompressFnForClient : option Middleware)
  : ClientOption :=
  ClientOptions_store (fun o =>
    {| copt_ExcludedExtensions := copt_ExcludedExtensions o;
       copt_ExcludedPaths := copt_ExcludedPaths o;
       copt_ExcludedPathRegexes := copt_ExcludedPathRegexes o;
       copt_DecompressFnForClient := decompressFnForClient |}).

Definition WithExcludedExtensionsForClient (args : list string) : ClientOption :=
  ClientOptions_store (fun o =>
    {| copt_ExcludedExtensions := NewExcludedExtensions args;
       copt_ExcludedPaths := copt_ExcludedPaths o;
       copt_ExcludedPathRegexes := copt_ExcludedPathRegexes o;
       copt_DecompressFnForClient := copt_DecompressFnForClient o |}).

Definition WithExcludedPathRegexesForClient (args : list string) : ClientOption :=
  fun o heap =>
    match NewExcludedPathRegexes args with
    | None => None
    | Some regs =>
        ClientOptions_store (fun o =>
          {| copt_ExcludedExtensions := copt_ExcludedExtensions o;
             copt_ExcludedPaths := copt_ExcludedPaths o;
             copt_ExcludedPathRegexes := regs;
             copt_DecompressFnForClient := copt_DecompressFnForClient o |}) o heap
    end.

Definition WithExcludedPathsForClient (args : list string) : ClientOption :=
  ClientOptions_store (fun o =>
    {| copt_ExcludedExtensions := copt_ExcludedExtensions o;
       copt_ExcludedPaths := NewExcludedPaths args;
       copt_ExcludedPathRegexes := copt_ExcludedPathRegexes o;
       copt_DecompressFnForClient := copt_DecompressFnForClient o |}).

(** The package variables: the two objects made at start-up, and the
    addresses kept in [DefaultOptions] and [DefaultClientOptions]. *)
Record Package := {
  Options_heap : list Options;
  ClientOptions_heap : list ClientOptions;
  DefaultOptions : nat;
  DefaultClientOptions : nat
}.

Definition DefaultExcludedExtensions : ExcludedExtensions :=
  NewExcludedExtensions [".png"; ".gif"; ".jpeg"; ".jpg"].

Definition DefaultClientExcludedExtensions : ExcludedExtensions :=
  NewExcludedExtensions [".png"; ".gif"; ".jpeg"; ".jpg"].

Definition initPackage : Package :=
  {| Options_heap :=
       [{| opt_ExcludedExtensions := DefaultExcludedExtensions;
           opt_ExcludedPaths := [];
           opt_ExcludedPathRegexes := [];
           opt_DecompressFn := None |}];
     ClientOptions_heap :=
       [{| copt_ExcludedExtensions := DefaultExcludedExtensions;
           copt_ExcludedPaths := [];
           copt_ExcludedPathRegexes := [];
           copt_DecompressFnForClient := None |}];
     DefaultOptions := 0;
     DefaultClientOptions := 0 |}.
End Hertz.

Section Middleware.
Context {GL : GoLibrary} {HH : HertzHeaders}.
Variable arch : Arch.
Variable growslice : nat -> nat -> nat.
Variable zlib_write_out zlib_close_out : Z -> bytes -> bytes.
Variable zlib_read_header : bytes -> option error.
Variable zlib_read_all : bytes -> bytes * option error.
Variable CopyZeroAlloc :
  Writer -> bytes * option error -> Writer * (Z * option error).

(** [compress.AppendDeflateBytesLevel(nil, src, level)] and
    [compress.AppendInflateBytes(nil, src)]: the elements of the slice
    returned, and the error. *)
Definition compress_AppendDeflateBytesLevel_nil (src : bytes) (level : Z)
  : M (bytes * option error) :=
  '(heap, out, err) ←
    AppendDeflateBytesLevel arch growslice zlib_write_out zlib_close_out
      [] nil_slice src level;
  mret (slice_bytes heap out, err).

Definition compress_AppendInflateBytes_nil (src : bytes) : M (bytes * option error) :=
  '(heap, out, err) ←
    AppendInflateBytes arch zlib_read_header zlib_read_all CopyZeroAlloc
      [] nil_slice src;
  mret (slice_bytes heap out, err).

(** [DefaultDecompressHandle] *)
Definition DefaultDecompressHandle : HandlerFunc := fun c =>
  if len (Request_Body (ctx_Request c)) <=? 0 then mret c
  else
    '(inflateBytes, err) ← compress_AppendInflateBytes_nil (Request_Body (ctx_Request c));
    match err with
    | Some err => mret (ctx_AbortWithError c http_StatusBadRequest err)
    | None =>
        let req := ctx_Request c in
        let req := Request_with_Header req
                     (RequestHeader_DelBytes (req_Header req) "Content-Encoding") in
        let req := Request_with_Header req
                     (RequestHeader_DelBytes (req_Header req) "Content-Length") in
        mret (ctx_with_Request c (Request_with_body req (body_bytes inflateBytes)))
    end.

(** [DefaultDecompressMiddlewareForClient] *)
Definition DefaultDecompressMiddlewareForClient : Middleware := fun next req resp =>
  if len (Response_Body resp) <=? 0 then mret (req, resp, None)
  else
    '(inflateBytes, err) ← compress_AppendInflateBytes_nil (Response_Body resp);
    match err with
    | Some err => mret (req, resp, Some err)
    | None =>
        let resp := Response_with_Header resp
                      (ResponseHeader_DelBytes (resp_Header resp) "Content-Encoding") in
        let resp := Response_with_Header resp
                      (ResponseHeader_DelBytes (resp_Header resp) "Content-Length") in
        let resp := Response_with_Header resp
                      (ResponseHeader_DelBytes (resp_Header resp) "Vary") in
        mret (req, Response_SetBodyStream resp inflateBytes (len inflateBytes), None)
    end.

(** *** [srv_middleware.go] *)

Record deflateSrvMiddleware := {
  srv_Options : nat;                (* *Options *)
  srv_level : Z
}.

(** [for _, fn := range opts { fn(handler.Options) }] *)
Fixpoint apply_Options (o : nat) (opts : list Option) (heap : list Options)
  : option (list Options) :=
  match opts with
  | [] => Some heap
  | fn :: opts' =>
      match fn o heap with
      | Some heap' => apply_Options o opts' heap'
      | None => None
      end
  end.

(** [newDeflateSrvMiddleware]: the handler and the package afterwards. *)
Definition newDeflateSrvMiddleware (level : Z) (opts : list Option) (pk : Package)
  : option (deflateSrvMiddleware * Package) :=
  let handler := {| srv_Options := DefaultOptions pk; srv_level := level |} in
  match apply_Options (srv_Options handler) opts (Options_heap pk) with
  | Some heap =>
      Some (handler,
            {| Options_heap := heap;
               ClientOptions_heap := ClientOptions_heap pk;
               DefaultOptions := DefaultOptions pk;
               DefaultClientOptions := DefaultClientOptions pk |})
  | None => None
  end.

(** [func (d *deflateSrvMiddleware) shouldCompress(req)], [o] being the
    object that [d.Options] points to. *)
Definition srv_shouldCompress (o : Options) (req : Request) : bool :=
  if negb (strings_Contains (RequestHeader_Get (req_Header req) "Accept-Encoding") "deflate"
           || String.eqb (strings_TrimSpace
                            (RequestHeader_Get (req_Header req) "Accept-Encoding")) "*")
     || strings_Contains (RequestHeader_Get (req_Header req) "Connection") "Upgrade"
     || strings_Contains (RequestHeader_Get (req_Header req) "Accept") "text/event-stream"
  then false
  else
    let path := req_RequestURI req in
    let extension := filepath_Ext path in
    if ExcludedExtensions_Contains (opt_ExcludedExtensions o) extension then false
    else if ExcludedPaths_Contains (opt_ExcludedPaths o) path then false
    else if ExcludedPathRegexes_Contains (opt_ExcludedPathRegexes o) path then false
    else true.

(** The first statement of [SrvMiddleware]: the request goes to the
    function of [DecompressFn] when one is set and the request says that
    its body is deflated. *)
Definition SrvMiddleware_decompress (o : Options) : HandlerFunc := fun c =>
  match opt_DecompressFn o with
  | Some fn =>
      if strings_EqualFold
           (RequestHeader_Get (req_Header (ctx_Request c)) "Content-Encoding")
           "deflate"
      then fn c
      else mret c
  | None => mret c
  end.

(** That statement passes a request by. *)
Definition no_decompression (o : Options) (c : RequestContext) : Prop :=
  opt_DecompressFn o = None \/
  strings_EqualFold (RequestHeader_Get (req_Header (ctx_Request c)) "Content-Encoding")
    "deflate" = false.

(** What the handlers after this one do: [c.Next(ctx)]. *)
Variable Next : HandlerFunc.

(** [func (d *deflateSrvMiddleware) SrvMiddleware(ctx, c)], the [Options]
    objects being those of [heap]. *)
Definition SrvMiddleware (heap : list Options) (d : deflateSrvMiddleware) : HandlerFunc :=
  fun c =>
  match heap !! srv_Options d with
  | None => panic
  | Some o =>
      c ← SrvMiddleware_decompress o c;
      if negb (srv_shouldCompress o (ctx_Request c)) then mret c
      else
        c ← Next c;
        let c := ctx_Header c "Content-Encoding" "deflate" in
        let c := ctx_Header c "Vary" "Accept-Encoding" in
        if len (Response_Body (ctx_Response c)) >? 0 then
          '(deflateBytes, err) ←
            compress_AppendDeflateBytesLevel_nil
              (Response_Body (ctx_Response c)) (srv_level d);
          match err with
          | Some _ => mret c
          | None =>
              mret (ctx_with_Response c
                      (Response_SetBodyStream (ctx_Response c)
                         deflateBytes (len deflateBytes)))
          end
        else mret c
  end.

(** [Deflate(level, options...)]: the handler is [SrvMiddleware] of the
    middleware built. *)
Definition Deflate (level : Z) (options : list Option) (pk : Package)
  : option (deflateSrvMiddleware * Package) :=
  newDeflateSrvMiddleware level options pk.

(** *** The client middleware *)

Record deflateClientMiddleware := {
  cli_Options : nat;                (* *ClientOptions *)
  cli_level : Z
}.

Fixpoint apply_ClientOptions (o : nat) (opts : list ClientOption)
    (heap : list ClientOptions) : option (list ClientOptions) :=
  match opts with
  | [] => Some heap
  | fn :: opts' =>
      match fn o heap with
      | Some heap' => apply_ClientOptions o opts' heap'
      | None => None
      end
  end.

(** [newDeflateClientMiddleware] *)
Definition newDeflateClientMiddleware (level : Z) (opts : list ClientOption)
    (pk : Package) : option (deflateClientMiddleware * Package) :=
  let middleware := {| cli_Options := DefaultClientOptions pk; cli_level := level |} in
  match apply_ClientOptions (cli_Options middleware) opts (ClientOptions_heap pk) with
  | Some heap =>
      Some (middleware,
            {| Options_heap := Options_heap pk;
               ClientOptions_heap := heap;
               DefaultOptions := DefaultOptions pk;
               DefaultClientOptions := DefaultClientOptions pk |})
  | None => None
  end.

(** [func (d *deflateClientMiddleware) shouldCompress(req)] *)
Definition cli_shouldCompress (o : ClientOptions) (req : Request) : bool :=
  if strings_Contains (RequestHeader_Get (req_Header req) "Connection") "Upgrade"
     || strings_Contains (RequestHeader_Get (req_Header req) "Accept") "text/event-stream"
  then false
  else
    let path := req_RequestURI req in
    let extension := filepath_Ext path in
    if ExcludedExtensions_Contains (copt_ExcludedExtensions o) extension then false
    else if ExcludedPaths_Contains (copt_ExcludedPaths o) path then false
    else if ExcludedPathRegexes_Contains (copt_ExcludedPathRegexes o) path then false
    else true.

(** The part of [ClientMiddleware] from [err = next(ctx, req, resp)] on. *)
Definition ClientMiddleware_send (o : ClientOptions) (next : Endpoint) : Endpoint :=
  fun req resp =>
    '(req, resp, err) ← next req resp;
    match err with
    | Some err => mret (req, resp, Some err)
    | None =>
        match copt_DecompressFnForClient o with
        | Some fn =>
            if strings_EqualFold
                 (ResponseHeader_Get (resp_Header resp) "Content-Encoding") "deflate"
            then
              let f := fn next in
              '(req, resp, err) ← f req resp;
              match err with
              | Some err => mret (req, resp, Some err)
              | None => mret (req, resp, None)
              end
            else mret (req, resp, None)
        | None => mret (req, resp, None)
        end
    end.

(** [func (d *deflateClientMiddleware) ClientMiddleware(next)], the
    [ClientOptions] objects being those of [heap]. *)
Definition ClientMiddleware (heap : list ClientOptions) (d : deflateClientMiddleware)
  : Middleware :=
  fun next req resp =>
  match heap !! cli_Options d with
  | None => panic
  | Some o =>
      if negb (cli_shouldCompress o req) then mret (req, resp, None)
      else
        let req := Request_SetHeader req "Content-Encoding" "deflate" in
        let req := Request_SetHeader req "Vary" "Accept-Encoding" in
        if len (Request_Body req) >? 0 then
          '(gzipBytes, err1) ←
            compress_AppendDeflateBytesLevel_nil (Request_Body req) (cli_level d);
          match err1 with
          | Some _ => mret (req, resp, None)
          | None =>
              ClientMiddleware_send o next
                (Request_SetBodyStream req gzipBytes (len gzipBytes)) resp
          end
        else ClientMiddleware_send o next req resp
  end.

(** [DeflateForClient(level, options...)] *)
Definition DeflateForClient (level : Z) (options : list ClientOption) (pk : Package)
  : option (deflateClientMiddleware * Package) :=
  newDeflateClientMiddleware level options pk.
End Middleware.

(** ** A small library to compute with

    Instances of the two classes: the functions of [strings] on ASCII,
    patterns that are plain substrings (one with a parenthesis does not
    compile), and headers kept as a list of pairs whose keys are compared
    without case. *)

Module Plain.

Definition ascii_lower (c : ascii) : ascii :=
  let n := nat_of_ascii c in
  if (65 <=? n)%nat && (n <=? 90)%nat then ascii_of_nat (n + 32) else c.

Fixpoint string_lower (s : string) : string :=
  match s with
  | EmptyString => EmptyString
  | String c s' => String (ascii_lower c) (string_lower s')
  end.

Definition EqualFold (s t : string) : bool :=
  String.eqb (string_lower s) (string_lower t).

Definition is_space (c : ascii) : bool :=
  let n := nat_of_ascii c in
  (n =? 32)%nat || ((9 <=? n)%nat && (n <=? 13)%nat).

Fixpoint trim_left (s : string) : string :=
  match s with
  | EmptyString => EmptyString
  | String c s' => if is_space c then trim_left s' else s
  end.

Definition string_rev (s : string) : string :=
  String.string_of_list_ascii (rev (String.list_ascii_of_string s)).

Definition TrimSpace (s : string) : string :=
  string_rev (trim_left (string_rev (trim_left s))).

Definition Compile (expr : string) : option string :=
  if strings_Contains expr "(" then None else Some expr.

Definition MatchString (re s : string) : bool := strings_Contains s re.

Definition library : GoLibrary :=
  {| strings_EqualFold := EqualFold;
     strings_TrimSpace := TrimSpace;
     Regexp := string;
     regexp_Compile := Compile;
     Regexp_MatchString := MatchString |}.

Definition Header : Type := list (string * string).

Fixpoint Header_Get (h : Header) (key : string) : string :=
  match h with
  | [] => ""
  | (k, v) :: h' => if EqualFold k key then v else Header_Get h' key
  end.

Definition Header_DelBytes (h : Header) (key : string) : Header :=
  List.filter (fun kv => negb (EqualFold (fst kv) key)) h.

Definition Header_Set (h : Header) (key value : string) : Header :=
  Header_DelBytes h key ++ [(key, value)].

Definition headers : HertzHeaders :=
  {| RequestHeader := Header;
     RequestHeader_Get := Header_Get;
     RequestHeader_Set := Header_Set;
     RequestHeader_DelBytes := Header_DelBytes;
     ResponseHeader := Header;
     ResponseHeader_Get := Header_Get;
     ResponseHeader_Set := Header_Set;
     ResponseHeader_DelBytes := Header_DelBytes |}.

(** A request for [uri] that accepts deflate, with a body. *)
Definition request (uri : string) (body : bytes) : @Request headers :=
  {| req_Header := [("Accept-Encoding", "deflate")] : @RequestHeader headers;
     req_RequestURI := uri;
     req_body := body_bytes body |}.

(** The response a client starts with, and the context of a request. *)
Definition response (body : bytes) : @Response headers :=
  {| resp_Header := [] : @ResponseHeader headers;
     resp_StatusCode := 200;
     resp_body := body_bytes body |}.

Definition context (uri : string) (body : bytes) : @RequestContext headers :=
  {| ctx_Request := request uri body;
     ctx_Response := response [];
     ctx_aborted := false;
     ctx_Errors := [] |}.

(** A handler that answers "hello". *)
Definition Next_hello : @HandlerFunc headers := fun c =>
  mret (ctx_with_Response c (Response_with_body (ctx_Response c) (body_bytes hello))).

(** An endpoint that answers with the body it is sent. *)
Definition next_echo : @Endpoint headers := fun req resp =>
  mret (req, Response_with_body resp (req_body req), None).

(** The middlewares that [Deflate(6)] and [DeflateForClient(6)] build at
    start-up. *)
Definition server : deflateSrvMiddleware := {| srv_Options := 0; srv_level := 6 |}.
Definition client : deflateClientMiddleware := {| cli_Options := 0; cli_level := 6 |}.

(** The options after [WithDecompressFn(DefaultDecompressHandle)], and a
    request that says its body is deflated. *)
Definition decompressing_options : @Options library headers :=
  {| opt_ExcludedExtensions := DefaultExcludedExtensions;
     opt_ExcludedPaths := [];
     opt_ExcludedPathRegexes := [];
     opt_DecompressFn :=
       Some (DefaultDecompressHandle Arch64 StoredZlib.zlib_read_header
               StoredZlib.zlib_read_all StoredZlib.CopyZeroAlloc) |}.

Definition deflated_context (body : bytes) : @RequestContext headers :=
  {| ctx_Request :=
       {| req_Header := [("Content-Encoding", "deflate")] : @RequestHeader headers;
          req_RequestURI := "/";
          req_body := body_bytes body |};
     ctx_Response := response [];
     ctx_aborted := false;
     ctx_Errors := [] |}.

End Plain.

(** A stream cut after its first stored block, which holds "hi". *)
Definition cut_stream : bytes :=
  StoredZlib.bytes_of [120; 156; 0; 2; 0; 253; 255; 104; 105].
(** ** Theorems *)

Lemma wrap_small bits z :
  0 < bits -> - 2 ^ (bits - 1) <= z < 2 ^ (bits - 1) -> wrap bits z = z.
Proof.
  intros Hb Hz. unfold wrap.
  assert (H2 : 2 ^ bits = 2 * 2 ^ (bits - 1)).
  { replace bits with (Z.succ (bits - 1)) at 1 by lia.
    rewrite Z.pow_succ_r by lia. reflexivity. }
  rewrite Z.mod_small by lia. lia.
Qed.

Lemma to_int_small a z : - 2 ^ 31 <= z < 2 ^ 31 -> to_int a z = z.
Proof.
  intros Hz. unfold to_int. apply wrap_small; destruct a; simpl int_bits; lia.
Qed.

(** *** The level normalizer *)

Lemma normalizeCompressLevel_in_range arch level :
  -2 <= level <= 9 -> normalizeCompressLevel arch level = level + 2.
Proof.
  intros H. unfold normalizeCompressLevel.
  destruct (Z.ltb_spec level (-2)); [lia|].
  destruct (Z.gtb_spec level 9); [lia|]. simpl.
  apply to_int_small. lia.
Qed.

Lemma normalizeCompressLevel_out_of_range arch level :
  level < -2 \/ level > 9 -> normalizeCompressLevel arch level = 8.
Proof.
  intros H. unfold normalizeCompressLevel.
  assert (E : (level <? -2) || (level >? 9) = true).
  { destruct (Z.ltb_spec level (-2)); [reflexivity|].
    destruct (Z.gtb_spec level 9); [reflexivity|lia]. }
  rewrite E. unfold CompressDefaultCompression.
  apply to_int_small. lia.
Qed.

Lemma normalizeCompressLevel_bounds arch level :
  0 <= normalizeCompressLevel arch level <= 11.
Proof.
  destruct (Z_lt_dec level (-2)) as [H|H].
  - rewrite normalizeCompressLevel_out_of_range by lia. lia.
  - destruct (Z_gt_dec level 9) as [H'|H'].
    + rewrite normalizeCompressLevel_out_of_range by lia. lia.
    + rewrite normalizeCompressLevel_in_range by lia. lia.
Qed.

(** C4. [normalizeCompressLevel] is a function of its argument alone, defined
    on every integer; its result lies in [0, 11]; on a level in [-2, 9] it is
    [level + 2]; on a level below -2 or above 9 it is the default level 6
    plus 2, that is 8. *)
Theorem normalizeCompressLevel_contract (arch : Arch) (level : Z) :
  0 <= normalizeCompressLevel arch level <= 11 /\
  (-2 <= level <= 9 -> normalizeCompressLevel arch level = level + 2) /\
  (level < -2 \/ level > 9 ->
   normalizeCompressLevel arch level = CompressDefaultCompression + 2 /\
   normalizeCompressLevel arch level = 8).
Proof.
  split; [apply normalizeCompressLevel_bounds|]. split.
  - apply normalizeCompressLevel_in_range.
  - intros H. rewrite normalizeCompressLevel_out_of_range by exact H.
    split; reflexivity.
Qed.

Lemma normalizeCompressLevel_contract_witness :
  normalizeCompressLevel Arch64 3 = 3 + 2 /\
  normalizeCompressLevel Arch32 10 = 8.
Proof.
  split.
  - apply (normalizeCompressLevel_contract Arch64 3). lia.
  - apply (normalizeCompressLevel_contract Arch32 10). lia.
Defined.

(** C3 as stated fails: level 10 lies outside [-2, 9] and is
    sent to index 8, while [DefaultCompression] is -1 and is sent to index 1. *)
Lemma level_coercion_DefaultCompression_counterexample :
  DefaultCompression = -1 /\
  (10 < -2 \/ 10 > 9) /\
  normalizeCompressLevel Arch64 10 = 8 /\
  normalizeCompressLevel Arch64 DefaultCompression = 1 /\
  normalizeCompressLevel Arch64 10 <> normalizeCompressLevel Arch64 DefaultCompression.
Proof.
  split; [reflexivity|]. split; [right; lia|].
  split; [reflexivity|]. split; [reflexivity|].
  vm_compute. discriminate.
Qed.

(** C3, amended. Every level outside [-2, 9] is normalized like the
    engine's own default [CompressDefaultCompression] = 6, to index 8; the
    exposed constant [DefaultCompression] = -1 goes to index 1, which no
    out-of-range level shares. *)
Theorem level_coercion_CompressDefaultCompression (arch : Arch) (l : Z) :
  l < -2 \/ l > 9 ->
  normalizeCompressLevel arch l = normalizeCompressLevel arch CompressDefaultCompression /\
  normalizeCompressLevel arch l = 8 /\
  normalizeCompressLevel arch DefaultCompression = 1 /\
  normalizeCompressLevel arch l <> normalizeCompressLevel arch DefaultCompression.
Proof.
  intros H.
  rewrite (normalizeCompressLevel_out_of_range arch l H).
  rewrite (normalizeCompressLevel_in_range arch CompressDefaultCompression)
    by (unfold CompressDefaultCompression; lia).
  rewrite (normalizeCompressLevel_in_range arch DefaultCompression)
    by (vm_compute; split; discriminate).
  repeat split; try reflexivity. vm_compute. discriminate.
Qed.

Lemma level_coercion_CompressDefaultCompression_witness :
  normalizeCompressLevel Arch64 10 = normalizeCompressLevel Arch64 CompressDefaultCompression /\
  normalizeCompressLevel Arch64 10 = 8 /\
  normalizeCompressLevel Arch64 DefaultCompression = 1 /\
  normalizeCompressLevel Arch64 10 <> normalizeCompressLevel Arch64 DefaultCompression.
Proof.
  apply (level_coercion_CompressDefaultCompression Arch64 10). right. lia.
Defined.

(** *** Slices *)

Section SliceFacts.
Variable growslice : nat -> nat -> nat.

Lemma take_app_exact {A} (l k : list A) n : n = length l -> take n (l ++ k) = l.
Proof. intros ->. apply take_app_length. Qed.

(** [append] gives the elements of the slice followed by the new ones. *)
Lemma go_append_bytes heap s p :
  slice_bytes (fst (go_append growslice heap s p)) (snd (go_append growslice heap s p)) =
    slice_bytes heap s ++ p.
Proof.
  unfold go_append, slice_bytes.
  destruct (Nat.leb_spec (sl_len s + length p) (length (slice_array heap s))) as [H|H].
  - destruct s as [[i|] n]; simpl in *.
    + unfold slice_array in *. simpl in *.
      destruct (heap !! i) as [arr|] eqn:E; simpl in *.
      * rewrite list_lookup_insert_eq by (eapply lookup_lt_Some; eauto). simpl.
        rewrite app_assoc. apply take_app_exact.
        rewrite length_app, length_take. lia.
      * rewrite list_insert_ge by (apply lookup_ge_None; assumption).
        rewrite E. simpl. destruct p; [|simpl in H; lia].
        assert (n = 0%nat) by lia. subst. reflexivity.
    + destruct p; [|simpl in H; lia]. assert (n = 0%nat) by lia. subst. reflexivity.
  - simpl. remember (slice_array heap s) as arr eqn:Ea. clear Ea.
    unfold slice_array. simpl.
    rewrite lookup_app_r by lia. rewrite Nat.sub_diag. simpl.
    rewrite app_assoc. apply take_app_exact. rewrite length_app. reflexivity.
Qed.

Lemma grown_refl heap d : valid_slice heap d -> grown heap d heap d.
Proof.
  intros Hv. unfold grown. repeat split; auto.
Qed.

(** An append keeps what is behind the slice it appends to. *)
Lemma grown_append heap0 d heap s p :
  valid_slice heap0 d ->
  grown heap0 d heap s ->
  grown heap0 d (fst (go_append growslice heap s p)) (snd (go_append growslice heap s p)).
Proof.
  intros Hd (Hl & Ho & Hb & Hv & Hs). unfold go_append.
  destruct (Nat.leb_spec (sl_len s + length p) (length (slice_array heap s))) as [H|H].
  - destruct s as [[i|] n]; simpl in *; [|repeat split; auto].
    unfold grown. simpl. rewrite length_insert.
    split; [assumption|]. split; [|split; [|split]].
    + intros k Hk Hne. rewrite list_lookup_insert_ne; [apply Ho; assumption|].
      intros ->. destruct Hs as [(Hp & _)|(j & Hj & Hlj)].
      * apply Hne. symmetry. exact Hp.
      * inversion Hj; subst. lia.
    + rewrite <- Hb. unfold slice_bytes, slice_array in *. simpl in *.
      destruct (sl_ptr d) as [k|] eqn:Ek; [|reflexivity].
      destruct (decide (k = i)) as [->|Hne].
      * destruct Hs as [(_ & Hle)|(j & Hj & Hlj)].
        -- destruct (heap !! i) as [arr|] eqn:E; simpl in *.
           ++ rewrite list_lookup_insert_eq by (eapply lookup_lt_Some; eauto). simpl.
              rewrite take_app_le by (rewrite length_take; lia).
              rewrite take_take. f_equal. lia.
           ++ rewrite list_insert_ge by (apply lookup_ge_None; assumption).
              rewrite E. reflexivity.
        -- inversion Hj; subst. unfold valid_slice in Hd. rewrite Ek in Hd. lia.
      * rewrite list_lookup_insert_ne by congruence. reflexivity.
    + unfold valid_slice. simpl. rewrite length_insert. exact Hv.
    + destruct Hs as [(Hp & Hle)|(j & Hj & Hlj)]; [left|right].
      * split; [assumption|lia].
      * exists j. split; assumption.
  - unfold grown. simpl. rewrite length_app. simpl.
    split; [lia|]. split; [|split; [|split]].
    + intros k Hk Hne. rewrite lookup_app_l by lia. apply Ho; assumption.
    + rewrite <- Hb. unfold slice_bytes, slice_array.
      destruct (sl_ptr d) as [k|] eqn:Ek; [|reflexivity].
      unfold valid_slice in Hd. rewrite Ek in Hd.
      rewrite lookup_app_l by lia. reflexivity.
    + unfold valid_slice. simpl. rewrite length_app. simpl. lia.
    + right. exists (length heap). split; [reflexivity|assumption].
Qed.
End SliceFacts.

(** *** Sources *)

(** Read to its end, a [byteSliceReader] gives the bytes of its slice in
    order and then [io.EOF], whatever the size of the buffers. *)
Lemma byteSliceReader_drain_all plen :
  (0 < plen)%nat ->
  forall fuel r, (length (r_b r) < fuel)%nat ->
  byteSliceReader_drain fuel plen r = (r_b r, Some EOF).
Proof.
  intros Hp. induction fuel as [|fuel IH]; intros [data] Hf; simpl in *; [lia|].
  unfold byteSliceReader_Read. simpl r_b.
  destruct (Z.eqb_spec (len data) 0) as [E|E].
  - destruct data; [reflexivity|unfold len in E; simpl in E; lia].
  - rewrite IH.
    + simpl. rewrite take_drop. reflexivity.
    + simpl. rewrite length_drop.
      assert (length data <> 0%nat) by (unfold len in E; lia). lia.
Qed.

(** *** Pools and writers *)

Lemma bind_Some {A B} (m : M A) (f : A -> M B) st a st' :
  m st = Some (a, st') -> (m ≫= f) st = f a st'.
Proof. intros H. unfold mbind, M_bind. rewrite H. reflexivity. Qed.

Lemma index_Some {A} (m : list A) (i : Z) :
  0 <= i < len m -> exists x, index m i = Some x /\ m !! Z.to_nat i = Some x.
Proof.
  intros H. unfold index. destruct (Z.ltb_spec i 0); [lia|].
  destruct (lookup_lt_is_Some_2 m (Z.to_nat i)) as [x Hx].
  - unfold len in H. lia.
  - exists x. split; assumption.
Qed.

Lemma index_lookup {A} (m : list A) (i : Z) x :
  index m i = Some x -> m !! Z.to_nat i = Some x.
Proof. unfold index. destruct (i <? 0); [discriminate|trivial]. Qed.

Lemma created_level_valid level : valid_level (created_level level).
Proof.
  unfold valid_level, created_level, zlib_HuffmanOnly, zlib_BestCompression,
    flate_HuffmanOnly, flate_BestCompression.
  destruct (Z.ltb_spec level (-2)); simpl; [lia|].
  destruct (Z.gtb_spec level 9); simpl; lia.
Qed.

Lemma newCompressWriterPoolMap_loop_length {A} n (m : list (list A)) :
  length (newCompressWriterPoolMap_loop n m) = (n + length m)%nat.
Proof.
  revert m. induction n as [|n IH]; intros m; simpl; [reflexivity|].
  rewrite IH, length_app. simpl. lia.
Qed.

(** [TestCompressNewCompressWriterPoolMap] *)
Lemma newCompressWriterPoolMap_length {A} :
  length (@newCompressWriterPoolMap A) = 12%nat.
Proof. apply newCompressWriterPoolMap_loop_length. Qed.

Lemma initPools_wf : pools_wf initPools.
Proof.
  unfold pools_wf. simpl. repeat split; try reflexivity;
    repeat constructor.
Qed.

Section EngineProperties.
Variable arch : Arch.
Variable growslice : nat -> nat -> nat.
Variable zlib_write_out zlib_close_out : Z -> bytes -> bytes.
Variable zlib_read_header : bytes -> option error.
Variable zlib_read_all : bytes -> bytes * option error.
Variable CopyZeroAlloc :
  Writer -> bytes * option error -> Writer * (Z * option error).

Lemma real_index_wf st level :
  pools_wf st ->
  exists p, index (realDeflateWriterPoolMap st) (normalizeCompressLevel arch level) = Some p
            /\ Forall (fun zw => valid_level (zw_level zw)) p.
Proof.
  intros (Hl & _ & Hf & _).
  destruct (index_Some (realDeflateWriterPoolMap st) (normalizeCompressLevel arch level))
    as (p & Hp & Hp').
  - pose proof (normalizeCompressLevel_bounds arch level). unfold len. lia.
  - exists p. split; [assumption|].
    eapply Forall_lookup_1; eassumption.
Qed.

Lemma stackless_index_wf st level :
  pools_wf st ->
  exists p, index (stacklessDeflateWriterPoolMap st) (normalizeCompressLevel arch level) = Some p
            /\ Forall (fun sw => valid_level (zw_level (sw_zw sw))) p.
Proof.
  intros (_ & Hl & _ & Hf).
  destruct (index_Some (stacklessDeflateWriterPoolMap st) (normalizeCompressLevel arch level))
    as (p & Hp & Hp').
  - pose proof (normalizeCompressLevel_bounds arch level). unfold len. lia.
  - exists p. split; [assumption|].
    eapply Forall_lookup_1; eassumption.
Qed.

Lemma real_level_valid st level : pools_wf st -> valid_level (real_level arch st level).
Proof.
  intros Hwf. unfold real_level.
  destruct (real_index_wf st level Hwf) as (p & -> & Hp).
  destruct p as [|zw p]; [apply created_level_valid|].
  inversion Hp; assumption.
Qed.

Lemma stackless_level_valid st level :
  pools_wf st -> valid_level (stackless_level arch st level).
Proof.
  intros Hwf. unfold stackless_level.
  destruct (stackless_index_wf st level Hwf) as (p & -> & Hp).
  destruct p as [|sw p]; [apply real_level_valid; assumption|].
  inversion Hp; assumption.
Qed.

Lemma set_real_wf st n p :
  pools_wf st -> Forall (fun zw => valid_level (zw_level zw)) p ->
  pools_wf (set_realDeflateWriterPoolMap (<[n := p]> (realDeflateWriterPoolMap st)) st).
Proof.
  intros (Hl & Hl' & Hf & Hf') Hp. unfold pools_wf. simpl.
  rewrite length_insert. repeat split; try assumption.
  apply Forall_insert; assumption.
Qed.

Lemma set_stackless_wf st n p :
  pools_wf st -> Forall (fun sw => valid_level (zw_level (sw_zw sw))) p ->
  pools_wf (set_stacklessDeflateWriterPoolMap (<[n := p]> (stacklessDeflateWriterPoolMap st)) st).
Proof.
  intros (Hl & Hl' & Hf & Hf') Hp. unfold pools_wf. simpl.
  rewrite length_insert. repeat split; try assumption.
  apply Forall_insert; assumption.
Qed.

(** [acquireRealDeflateWriter] never fails on well-formed pools: it returns
    a writer bound to [w], in its initial state, of the level [real_level]. *)
Lemma acquireRealDeflateWriter_spec st w level :
  pools_wf st ->
  exists st',
    acquireRealDeflateWriter arch w level st =
      Some ({| zw_w := w; zw_level := real_level arch st level; zw_state := zwFresh |}, st')
    /\ pools_wf st'
    /\ stacklessDeflateWriterPoolMap st' = stacklessDeflateWriterPoolMap st
    /\ flateReaderPool st' = flateReaderPool st.
Proof.
  intros Hwf. unfold acquireRealDeflateWriter, real_level.
  destruct (real_index_wf st level Hwf) as (p & Hp & Hv).
  erewrite bind_Some by (unfold realDeflateWriterPool_Get; rewrite Hp; reflexivity).
  rewrite Hp.
  assert (Hwf' : pools_wf (set_realDeflateWriterPoolMap
            (<[Z.to_nat (normalizeCompressLevel arch level) := snd (Pool_Get p)]>
               (realDeflateWriterPoolMap st)) st)).
  { apply set_real_wf; [assumption|]. destruct p; simpl; [constructor|].
    inversion Hv; assumption. }
  eexists. split; [|split; [exact Hwf'|split; reflexivity]].
  destruct p as [|zw p]; simpl; [|reflexivity].
  unfold zlib_NewWriterLevel, created_level.
  destruct ((level <? zlib_HuffmanOnly) || (level >? zlib_BestCompression)) eqn:E;
    [|reflexivity].
  destruct (level <? zlib_HuffmanOnly) eqn:E'; reflexivity.
Qed.

Lemma buffer_append_ok w out :
  is_buffer w = true -> buffer_append growslice w out = Some (appended growslice w out).
Proof. destruct w; simpl; intros H; try reflexivity; discriminate. Qed.

Lemma appended_is_buffer w out :
  is_buffer w = true -> is_buffer (appended growslice w out) = true.
Proof.
  destruct w as [x h| | | |]; simpl; intros H; try reflexivity; try discriminate.
  unfold appended. simpl. unfold byteSliceWriter_Write.
  destruct (go_append growslice h (b x) out). reflexivity.
Qed.

Lemma appended_takes_inline_path w out :
  takes_inline_path w = true -> takes_inline_path (appended growslice w out) = true.
Proof.
  destruct w as [x h| | | |]; simpl; intros H; try reflexivity; try discriminate.
  unfold appended. simpl. unfold byteSliceWriter_Write.
  destruct (go_append growslice h (b x) out). reflexivity.
Qed.

Lemma appended_bytes w out :
  is_buffer w = true -> Writer_bytes (appended growslice w out) = Writer_bytes w ++ out.
Proof.
  destruct w as [x h| | | |]; simpl; intros H; try discriminate; try reflexivity.
  unfold appended. simpl. unfold byteSliceWriter_Write.
  pose proof (go_append_bytes growslice h (b x) out) as E.
  destruct (go_append growslice h (b x) out). exact E.
Qed.

Lemma extended_refl w : is_buffer w = true -> extended w w [].
Proof.
  intros H. split; [rewrite app_nil_r; reflexivity|].
  destruct w; try exact I; [apply grown_refl|discriminate].
Qed.

(** Handing more bytes to a buffer extends it further. *)
Lemma extended_appended w0 w o1 o2 :
  extended w0 w o1 -> extended w0 (appended growslice w o2) (o1 ++ o2).
Proof.
  intros (Hb & Hk).
  assert (His : is_buffer w = true) by (destruct w0, w; try contradiction; reflexivity).
  split; [rewrite appended_bytes, Hb, app_assoc by assumption; reflexivity|].
  destruct w0 as [x0 h0| | | |], w as [x h| | | |]; try contradiction; try exact I.
  unfold appended. simpl. unfold byteSliceWriter_Write.
  pose proof (grown_append growslice h0 (b x0) h (b x) o2) as G.
  destruct (go_append growslice h (b x) o2) as [h' s']. simpl in *.
  intros Hv. apply G; [exact Hv|exact (Hk Hv)].
Qed.

Lemma appended_twice_extended w o1 o2 :
  is_buffer w = true ->
  extended w (appended growslice (appended growslice w o1) o2) (o1 ++ o2).
Proof.
  intros H. apply extended_appended.
  change o1 with ([] ++ o1). apply extended_appended, extended_refl, H.
Qed.

Lemma takes_inline_path_is_buffer w : takes_inline_path w = true -> is_buffer w = true.
Proof. destruct w; simpl; intros H; try reflexivity; discriminate. Qed.

Lemma zw_Write_spec w lv p st :
  is_buffer w = true ->
  zw_Write growslice zlib_write_out {| zw_w := w; zw_level := lv; zw_state := zwFresh |} p st =
    Some (({| zw_w := appended growslice w (zlib_write_out lv p); zw_level := lv;
              zw_state := zwWrote p |}, (len p, None)), st).
Proof.
  intros Hb. unfold zw_Write, zw_emit. simpl.
  rewrite (buffer_append_ok w _ Hb). reflexivity.
Qed.

Lemma zw_Close_spec w lv q st :
  is_buffer w = true ->
  zw_Close growslice zlib_write_out zlib_close_out
      {| zw_w := w; zw_level := lv; zw_state := zwWrote q |} st =
    Some (({| zw_w := appended growslice w (zlib_close_out lv q); zw_level := lv;
              zw_state := zwClosed |}, None), st).
Proof.
  intros Hb. unfold zw_Close, zw_emit. simpl.
  rewrite (buffer_append_ok w _ Hb). reflexivity.
Qed.

Lemma realDeflateWriterPool_Put_spec st level zw :
  pools_wf st -> valid_level (zw_level zw) ->
  exists st',
    realDeflateWriterPool_Put (normalizeCompressLevel arch level) zw st = Some (tt, st')
    /\ pools_wf st'
    /\ stacklessDeflateWriterPoolMap st' = stacklessDeflateWriterPoolMap st
    /\ flateReaderPool st' = flateReaderPool st.
Proof.
  intros Hwf Hv. unfold realDeflateWriterPool_Put.
  destruct (real_index_wf st level Hwf) as (p & -> & Hp).
  eexists. split; [reflexivity|]. split; [|split; reflexivity].
  apply set_real_wf; [assumption|]. constructor; assumption.
Qed.

(** [releaseRealDeflateWriter] after the write: the closing bytes reach the
    buffer and the writer goes back to the pool of [level]. *)
Lemma releaseRealDeflateWriter_spec st w lv q level :
  pools_wf st -> valid_level lv -> is_buffer w = true ->
  exists st',
    releaseRealDeflateWriter arch growslice zlib_write_out zlib_close_out
        {| zw_w := w; zw_level := lv; zw_state := zwWrote q |} level st =
      Some (appended growslice w (zlib_close_out lv q), st')
    /\ pools_wf st'
    /\ stacklessDeflateWriterPoolMap st' = stacklessDeflateWriterPoolMap st
    /\ flateReaderPool st' = flateReaderPool st.
Proof.
  intros Hwf Hv Hb. unfold releaseRealDeflateWriter.
  erewrite bind_Some by (apply zw_Close_spec; assumption).
  destruct (realDeflateWriterPool_Put_spec st level
              {| zw_w := appended growslice w (zlib_close_out lv q); zw_level := lv;
                 zw_state := zwClosed |} Hwf Hv) as (st' & HP & Hwf' & Hs & Hr).
  exists st'. erewrite bind_Some by exact HP.
  split; [reflexivity|]. auto.
Qed.

(** The inline path: one write-then-close cycle of a writer of level
    [real_level] into the buffer. *)
Lemma nonblockingWriteDeflate_spec st w p level :
  pools_wf st -> is_buffer w = true ->
  exists st',
    nonblockingWriteDeflate arch growslice zlib_write_out zlib_close_out
        {| ctx_w := w; ctx_p := p; ctx_level := level |} st =
      Some (appended growslice
              (appended growslice w (zlib_write_out (real_level arch st level) p))
              (zlib_close_out (real_level arch st level) p), st')
    /\ pools_wf st'
    /\ stacklessDeflateWriterPoolMap st' = stacklessDeflateWriterPoolMap st
    /\ flateReaderPool st' = flateReaderPool st.
Proof.
  intros Hwf Hb. unfold nonblockingWriteDeflate. simpl.
  destruct (acquireRealDeflateWriter_spec st w level Hwf) as (st1 & HA & Hwf1 & Hs1 & Hr1).
  erewrite bind_Some by exact HA.
  erewrite bind_Some by (apply zw_Write_spec; assumption).
  destruct (releaseRealDeflateWriter_spec st1 (appended growslice w (zlib_write_out (real_level arch st level) p))
              (real_level arch st level) p level Hwf1 (real_level_valid st level Hwf)
              (appended_is_buffer _ _ Hb)) as (st2 & HR & Hwf2 & Hs2 & Hr2).
  exists st2. rewrite HR.
  split; [reflexivity|]. split; [assumption|]. split; congruence.
Qed.

Lemma stacklessDeflateWriterPool_Put_spec st level sw :
  pools_wf st -> valid_level (zw_level (sw_zw sw)) ->
  exists st',
    stacklessDeflateWriterPool_Put (normalizeCompressLevel arch level) sw st = Some (tt, st')
    /\ pools_wf st'
    /\ flateReaderPool st' = flateReaderPool st.
Proof.
  intros Hwf Hv. unfold stacklessDeflateWriterPool_Put.
  destruct (stackless_index_wf st level Hwf) as (p & -> & Hp).
  eexists. split; [reflexivity|]. split; [|reflexivity].
  apply set_stackless_wf; [assumption|]. constructor; assumption.
Qed.

(** [AcquireStacklessDeflateWriter] never fails on well-formed pools: the
    stackless writer it returns forwards to [w] and wraps a writer in its
    initial state, of the level [stackless_level]. *)
Lemma AcquireStacklessDeflateWriter_spec st w level :
  pools_wf st ->
  exists st',
    AcquireStacklessDeflateWriter arch w level st =
      Some ({| sw_dstW := w;
               sw_zw := {| zw_w := W_xWriter [];
                           zw_level := stackless_level arch st level;
                           zw_state := zwFresh |} |}, st')
    /\ pools_wf st'
    /\ flateReaderPool st' = flateReaderPool st.
Proof.
  intros Hwf. unfold AcquireStacklessDeflateWriter, stackless_level.
  destruct (stackless_index_wf st level Hwf) as (p & Hp & Hv).
  erewrite bind_Some by (unfold stacklessDeflateWriterPool_Get; rewrite Hp; reflexivity).
  rewrite Hp.
  match goal with |- context [set_stacklessDeflateWriterPoolMap ?m st] =>
    set (st1 := set_stacklessDeflateWriterPoolMap m st) end.
  assert (Hwf1 : pools_wf st1).
  { apply set_stackless_wf; [assumption|]. destruct p; simpl; [constructor|].
    inversion Hv; assumption. }
  destruct p as [|sw p]; simpl.
  - unfold stackless_NewWriter.
    destruct (acquireRealDeflateWriter_spec st1 (W_xWriter []) level Hwf1)
      as (st2 & HA & Hwf2 & _ & Hr2).
    exists st2. erewrite bind_Some by exact HA.
    split; [reflexivity|]. split; [assumption|]. exact Hr2.
  - exists st1. split; [reflexivity|]. split; [assumption|reflexivity].
Qed.

Lemma stackless_Write_spec d lv p st :
  stackless_Write growslice zlib_write_out
      {| sw_dstW := d;
         sw_zw := {| zw_w := W_xWriter []; zw_level := lv; zw_state := zwFresh |} |} p st =
    Some (({| sw_dstW := fst (stackless_forward growslice d (zlib_write_out lv p));
              sw_zw := {| zw_w := W_xWriter []; zw_level := lv; zw_state := zwWrote p |} |},
           (len p, snd (stackless_forward growslice d (zlib_write_out lv p)))), st).
Proof.
  unfold stackless_Write. simpl.
  erewrite bind_Some by (apply zw_Write_spec; reflexivity).
  reflexivity.
Qed.

Lemma stackless_Close_spec d lv q st :
  stackless_Close growslice zlib_write_out zlib_close_out
      {| sw_dstW := d;
         sw_zw := {| zw_w := W_xWriter []; zw_level := lv; zw_state := zwWrote q |} |} st =
    Some (({| sw_dstW := fst (stackless_forward growslice d (zlib_close_out lv q));
              sw_zw := {| zw_w := W_xWriter []; zw_level := lv; zw_state := zwClosed |} |},
           snd (stackless_forward growslice d (zlib_close_out lv q))), st).
Proof.
  unfold stackless_Close. simpl.
  erewrite bind_Some by (apply zw_Close_spec; reflexivity).
  reflexivity.
Qed.

(** The two dispatch paths of [WriteDeflateLevel] on well-formed pools. *)
Lemma WriteDeflateLevel_inline st w p level :
  pools_wf st -> takes_inline_path w = true ->
  exists st',
    WriteDeflateLevel arch growslice zlib_write_out zlib_close_out w p level st =
      Some ((appended growslice
               (appended growslice w (zlib_write_out (real_level arch st level) p))
               (zlib_close_out (real_level arch st level) p),
             (len p, None)), st')
    /\ pools_wf st'
    /\ flateReaderPool st' = flateReaderPool st.
Proof.
  intros Hwf Hi.
  destruct (nonblockingWriteDeflate_spec st w p level Hwf
              (takes_inline_path_is_buffer w Hi)) as (st' & HN & Hwf' & _ & Hr).
  exists st'. split; [|split; assumption].
  unfold WriteDeflateLevel, stacklessWriteDeflate.
  destruct w; try discriminate Hi; erewrite bind_Some by exact HN; reflexivity.
Qed.

Lemma WriteDeflateLevel_stackless st w p level :
  pools_wf st -> takes_inline_path w = false ->
  let lv := stackless_level arch st level in
  let d1 := stackless_forward growslice w (zlib_write_out lv p) in
  let d2 := stackless_forward growslice (fst d1) (zlib_close_out lv p) in
  exists st',
    WriteDeflateLevel arch growslice zlib_write_out zlib_close_out w p level st =
      Some ((fst d2, (len p, snd d1)), st')
    /\ pools_wf st'
    /\ flateReaderPool st' = flateReaderPool st.
Proof.
  intros Hwf Hi lv d1 d2.
  destruct (AcquireStacklessDeflateWriter_spec st w level Hwf) as (st1 & HA & Hwf1 & Hr1).
  destruct (stacklessDeflateWriterPool_Put_spec st1 level
              {| sw_dstW := fst d2;
                 sw_zw := {| zw_w := W_xWriter []; zw_level := lv; zw_state := zwClosed |} |}
              Hwf1 (stackless_level_valid st level Hwf)) as (st2 & HP & Hwf2 & Hr2).
  exists st2. split; [|split; [assumption|congruence]].
  assert (E : (zw ← AcquireStacklessDeflateWriter arch w level;
               '(zw, (n, err)) ← stackless_Write growslice zlib_write_out zw p;
               w' ← releaseStacklessDeflateWriter arch growslice zlib_write_out zlib_close_out zw level;
               mret (w', (n, err))) st = Some ((fst d2, (len p, snd d1)), st2)).
  { erewrite bind_Some by exact HA.
    erewrite bind_Some by apply stackless_Write_spec.
    unfold releaseStacklessDeflateWriter, mbind, M_bind.
    rewrite stackless_Close_spec. fold lv d1 d2. rewrite HP. reflexivity. }
  unfold WriteDeflateLevel. destruct w; try discriminate Hi; exact E.
Qed.

(** *** Decompression *)

(** A new reader and a pooled one that is reset answer alike. *)
Lemma acquireFlateReader_spec r st :
  acquireFlateReader zlib_read_header r st =
    Some (match zlib_read_header (r_b r) with
          | Some e => Err e
          | None => Ok {| zr_r := r |}
          end,
          set_flateReaderPool (snd (Pool_Get (flateReaderPool st))) st).
Proof.
  unfold acquireFlateReader.
  erewrite bind_Some by (unfold flateReaderPool_Get; reflexivity).
  destruct (flateReaderPool st) as [|zr pool]; simpl.
  - unfold zlib_NewReader. destruct (zlib_read_header (r_b r)); reflexivity.
  - destruct (zlib_read_header (r_b r)); reflexivity.
Qed.

(** [WriteInflate], when the header cannot be read: nothing is copied. *)
Lemma WriteInflate_header_error st w p e :
  zlib_read_header p = Some e ->
  WriteInflate arch zlib_read_header zlib_read_all CopyZeroAlloc w p st =
    Some ((w, (0, Some e)),
          set_flateReaderPool (snd (Pool_Get (flateReaderPool st))) st).
Proof.
  intros H. unfold WriteInflate.
  erewrite bind_Some by apply acquireFlateReader_spec.
  simpl. rewrite H. reflexivity.
Qed.

(** [WriteInflate], when the header is fine: the copy runs, the reader is
    released, and the count is checked against [int]. *)
Lemma WriteInflate_copied st w p w' n err :
  zlib_read_header p = None ->
  CopyZeroAlloc w (zlib_read_all p) = (w', (n, err)) ->
  exists st',
    WriteInflate arch zlib_read_header zlib_read_all CopyZeroAlloc w p st =
      Some ((w', if to_int64 (to_int arch n) =? n
                 then (to_int arch n, err)
                 else (0, Some (ErrTooMuchData n))), st').
Proof.
  intros H HC. unfold WriteInflate.
  erewrite bind_Some by apply acquireFlateReader_spec.
  simpl. rewrite H. simpl. rewrite HC.
  erewrite bind_Some by (unfold releaseFlateReader, flateReaderPool_Put; reflexivity).
  eexists. destruct (to_int64 (to_int arch n) =? n); reflexivity.
Qed.

Lemma to_int_len_id n :
  0 <= n < 2 ^ (int_bits arch - 1) -> to_int64 (to_int arch n) = n.
Proof.
  intros H. unfold to_int, to_int64.
  assert (Hb : 2 ^ (int_bits arch - 1) <= 2 ^ 63)
    by (destruct arch; simpl; lia).
  rewrite (wrap_small (int_bits arch)); [|destruct arch; simpl; lia|lia].
  apply wrap_small; lia.
Qed.

(** *** Compression into a byte slice *)

(** C10. Compression into a byte slice never reports an error: on pools in
    their normal shape, [WriteDeflateLevel] on a byte-slice writer, a
    [bytes.Buffer] or a [ByteBuffer] returns [(len(p), nil)] whatever the
    codec writer answered to [Write], and so [AppendDeflateBytesLevel]
    returns a nil error for every [dst], [src] and level. *)
Theorem AppendDeflateBytesLevel_nil_error st heap dst src level :
  pools_wf st ->
  (forall w, takes_inline_path w = true ->
     exists w' st',
       WriteDeflateLevel arch growslice zlib_write_out zlib_close_out w src level st =
         Some ((w', (len src, None)), st')) /\
  (exists out st',
     AppendDeflateBytesLevel arch growslice zlib_write_out zlib_close_out
         heap dst src level st =
       Some ((out, None), st')).
Proof.
  intros Hwf. split.
  - intros w Hi.
    destruct (WriteDeflateLevel_inline st w src level Hwf Hi) as (st' & H & _).
    eauto.
  - unfold AppendDeflateBytesLevel.
    destruct (WriteDeflateLevel_inline st (W_byteSliceWriter {| b := dst |} heap) src level
                Hwf eq_refl) as (st' & H & _).
    erewrite bind_Some by exact H. simpl. eauto.
Qed.

(** An extended byte-slice writer is a byte-slice writer. *)
Lemma extended_byteSliceWriter x0 h0 w out :
  extended (W_byteSliceWriter x0 h0) w out ->
  exists x h,
    w = W_byteSliceWriter x h /\
    slice_bytes h (b x) = slice_bytes h0 (b x0) ++ out /\
    (valid_slice h0 (b x0) -> grown h0 (b x0) h (b x)).
Proof.
  intros (Hb & Hk). destruct w as [x h| | | |]; try contradiction.
  exists x, h. split; [reflexivity|]. split; assumption.
Qed.

Lemma AppendDeflateBytesLevel_spec st heap dst src level :
  pools_wf st ->
  exists heap' out st',
    AppendDeflateBytesLevel arch growslice zlib_write_out zlib_close_out
        heap dst src level st =
      Some (((heap', out), None), st')
    /\ slice_bytes heap' out =
         slice_bytes heap dst
           ++ zlib_stream zlib_write_out zlib_close_out (real_level arch st level) src
    /\ (valid_slice heap dst -> grown heap dst heap' out)
    /\ valid_level (real_level arch st level)
    /\ pools_wf st'.
Proof.
  intros Hwf. unfold AppendDeflateBytesLevel.
  destruct (WriteDeflateLevel_inline st (W_byteSliceWriter {| b := dst |} heap) src level
              Hwf eq_refl) as (st' & H & Hwf' & _).
  erewrite bind_Some by exact H.
  destruct (extended_byteSliceWriter _ _ _ _
              (appended_twice_extended (W_byteSliceWriter {| b := dst |} heap)
                 (zlib_write_out (real_level arch st level) src)
                 (zlib_close_out (real_level arch st level) src) eq_refl))
    as (x & h & -> & Hb & Hg).
  simpl. exists h, (b x), st'. split; [reflexivity|].
  split; [exact Hb|]. split; [exact Hg|]. split; [|assumption].
  apply real_level_valid; assumption.
Qed.

(** What [utils.CopyZeroAlloc] does into a byte-slice writer, which takes
    every byte and never fails: all that the reader delivers is appended to
    the slice by its [Write], counted, and the reader's error is the
    result. *)
Hypothesis CopyZeroAlloc_byteSliceWriter :
  forall (w : byteSliceWriter) (heap : Store) (out : bytes) (rerr : option error),
  exists w',
    CopyZeroAlloc (W_byteSliceWriter w heap) (out, rerr) = (w', (len out, rerr)) /\
    extended (W_byteSliceWriter w heap) w' out.

Lemma AppendInflateBytes_spec st heap dst src :
  exists heap' out err st',
    AppendInflateBytes arch zlib_read_header zlib_read_all CopyZeroAlloc heap dst src st =
      Some (((heap', out), err), st')
    /\ slice_bytes heap' out =
         slice_bytes heap dst ++ inflated zlib_read_header zlib_read_all src
    /\ (valid_slice heap dst -> grown heap dst heap' out)
    /\ (zlib_read_header src = None -> snd (zlib_read_all src) = None ->
        len (fst (zlib_read_all src)) < 2 ^ (int_bits arch - 1) ->
        err = None).
Proof.
  unfold AppendInflateBytes, inflated.
  destruct (zlib_read_header src) as [e|] eqn:Hh.
  - erewrite bind_Some by (apply WriteInflate_header_error; exact Hh).
    simpl. exists heap, dst. do 2 eexists. split; [reflexivity|].
    split; [rewrite app_nil_r; reflexivity|].
    split; [apply grown_refl|discriminate].
  - destruct (zlib_read_all src) as [out rerr] eqn:Ha.
    destruct (CopyZeroAlloc_byteSliceWriter {| b := dst |} heap out rerr)
      as (w' & HC & He).
    destruct (extended_byteSliceWriter _ _ _ _ He) as (x & h & -> & Hb & Hg).
    edestruct (WriteInflate_copied st (W_byteSliceWriter {| b := dst |} heap) src)
      as (st' & HW).
    + exact Hh.
    + rewrite Ha. exact HC.
    + erewrite bind_Some by exact HW. simpl.
      exists h, (b x).
      destruct (to_int64 (to_int arch (len out)) =? len out) eqn:E; simpl.
      * do 2 eexists. split; [reflexivity|]. split; [exact Hb|].
        split; [exact Hg|]. intros _ Hr _. exact Hr.
      * do 2 eexists. split; [reflexivity|]. split; [exact Hb|].
        split; [exact Hg|]. intros _ _ Hl.
        rewrite to_int_len_id in E by (unfold len in *; lia).
        rewrite Z.eqb_refl in E. discriminate.
Qed.

(** C8. Append, not overwrite. On pools in their normal shape, for [dst] a
    slice of an allocated array (or nil): [AppendDeflateBytesLevel(dst, src,
    level)] returns a slice whose elements are those of [dst] followed by
    the stream that the serving writer, of a level the codec supports,
    produces for [src]; [AppendInflateBytes(dst, src)] returns a slice whose
    elements are those of [dst] followed by the bytes decompressed from
    [src]. In both cases the elements of [dst], read through the slice the
    caller kept, are what they were, and no other array of the store has
    changed. *)
Theorem Append_keeps_dst st heap dst src level :
  pools_wf st ->
  valid_slice heap dst ->
  (exists heap' out st',
     AppendDeflateBytesLevel arch growslice zlib_write_out zlib_close_out
         heap dst src level st =
       Some (((heap', out), None), st')
     /\ slice_bytes heap' out =
          slice_bytes heap dst
            ++ zlib_stream zlib_write_out zlib_close_out (real_level arch st level) src
     /\ valid_level (real_level arch st level)
     /\ slice_bytes heap' dst = slice_bytes heap dst
     /\ (forall i, (i < length heap)%nat -> sl_ptr dst <> Some i ->
         heap' !! i = heap !! i)) /\
  (exists heap' out err st',
     AppendInflateBytes arch zlib_read_header zlib_read_all CopyZeroAlloc heap dst src st =
       Some (((heap', out), err), st')
     /\ slice_bytes heap' out =
          slice_bytes heap dst ++ inflated zlib_read_header zlib_read_all src
     /\ slice_bytes heap' dst = slice_bytes heap dst
     /\ (forall i, (i < length heap)%nat -> sl_ptr dst <> Some i ->
         heap' !! i = heap !! i)).
Proof.
  intros Hwf Hv. split.
  - destruct (AppendDeflateBytesLevel_spec st heap dst src level Hwf)
      as (heap' & out & st' & H & Hb & Hg & Hl & _).
    destruct (Hg Hv) as (_ & Ho & Hd & _).
    exists heap', out, st'. auto.
  - destruct (AppendInflateBytes_spec st heap dst src)
      as (heap' & out & err & st' & H & Hb & Hg & _).
    destruct (Hg Hv) as (_ & Ho & Hd & _).
    exists heap', out, err, st'. auto.
Qed.

(** What a conforming codec guarantees: the stream a writer of a supported
    level produces for [p] has a header the reader accepts, and decompresses
    to [p] with a clean end. *)
Hypothesis zlib_roundtrip :
  forall (level : Z) (p : bytes),
    valid_level level ->
    zlib_read_header (zlib_stream zlib_write_out zlib_close_out level p) = None /\
    zlib_read_all (zlib_stream zlib_write_out zlib_close_out level p) = (p, None).

(** C1. Round trip. For every byte slice [data] (its length is an [int])
    and every integer level, in range or not, on pools in their normal
    shape: [AppendDeflateBytesLevel(nil, data, l)] returns a slice [out]
    with a nil error, and [AppendInflateBytes(nil, out)] then returns a
    slice whose elements are those of [data], with a nil error. *)
Theorem deflate_inflate_round_trip st heap data l :
  pools_wf st ->
  len data < 2 ^ (int_bits arch - 1) ->
  exists heap1 out st1 heap2 back st2,
    AppendDeflateBytesLevel arch growslice zlib_write_out zlib_close_out
        heap nil_slice data l st =
      Some (((heap1, out), None), st1) /\
    AppendInflateBytes arch zlib_read_header zlib_read_all CopyZeroAlloc
        heap1 nil_slice (slice_bytes heap1 out) st1 =
      Some (((heap2, back), None), st2) /\
    slice_bytes heap2 back = data.
Proof.
  intros Hwf Hlen.
  destruct (AppendDeflateBytesLevel_spec st heap nil_slice data l Hwf)
    as (heap1 & out & st1 & HD & Hb & _ & Hv & _).
  change (slice_bytes heap nil_slice) with (@nil byte) in Hb. simpl in Hb.
  destruct (zlib_roundtrip (real_level arch st l) data Hv) as (Hh & Ha).
  destruct (AppendInflateBytes_spec st1 heap1 nil_slice (slice_bytes heap1 out))
    as (heap2 & back & err & st2 & HI & Hb2 & _ & Herr).
  rewrite Hb in *. unfold inflated in Hb2. rewrite Hh, Ha in Hb2.
  change (slice_bytes heap1 nil_slice) with (@nil byte) in Hb2. simpl in Hb2.
  exists heap1, out, st1, heap2, back, st2.
  split; [exact HD|]. split; [|exact Hb2].
  rewrite Hb. rewrite HI.
  rewrite Herr; [reflexivity|exact Hh|rewrite Ha; reflexivity|rewrite Ha; exact Hlen].
Qed.

(** *** The count of [WriteInflate] *)

(** C9. Size overflow. Whenever the reader could be set up and the [int64]
    count [n] of bytes copied does not survive the conversion to [int]
    ([int64(int(n)) != n]), [WriteInflate] returns the count 0 and the
    non-nil error "too much data inflated", not a truncated count. *)
Theorem WriteInflate_size_overflow st w p w' n err :
  zlib_read_header p = None ->
  CopyZeroAlloc w (zlib_read_all p) = (w', (n, err)) ->
  to_int64 (to_int arch n) <> n ->
  exists st',
    WriteInflate arch zlib_read_header zlib_read_all CopyZeroAlloc w p st =
      Some ((w', (0, Some (ErrTooMuchData n))), st').
Proof.
  intros Hh HC Hn.
  destruct (WriteInflate_copied st w p w' n err Hh HC) as (st' & H).
  exists st'. rewrite H.
  destruct (Z.eqb_spec (to_int64 (to_int arch n)) n) as [E|E]; [contradiction|].
  reflexivity.
Qed.

(** *** Empty input *)

(** What [zlib] answers when the source ends before the two bytes of the
    header. *)
Hypothesis zlib_header_of_nothing : zlib_read_header [] = Some ErrUnexpectedEOF.

(** C2, amended. On a zero-length payload the engine does set up a codec
    reader (a new one, or a pooled one through [Reset]); the header cannot
    be read, so [acquireFlateReader] fails, [WriteInflate] returns the count
    0 with that non-nil error and leaves the destination as it was, and
    [AppendInflateBytes] returns [dst] itself, in an unchanged store, with
    the same error. *)
Theorem inflate_of_empty_payload st w heap dst :
  (exists st',
     acquireFlateReader zlib_read_header {| r_b := [] |} st =
       Some (Err ErrUnexpectedEOF, st')) /\
  (exists st',
     WriteInflate arch zlib_read_header zlib_read_all CopyZeroAlloc w [] st =
       Some ((w, (0, Some ErrUnexpectedEOF)), st')) /\
  (exists st',
     AppendInflateBytes arch zlib_read_header zlib_read_all CopyZeroAlloc heap dst [] st =
       Some (((heap, dst), Some ErrUnexpectedEOF), st')).
Proof.
  split; [|split].
  - rewrite acquireFlateReader_spec. simpl. rewrite zlib_header_of_nothing. eauto.
  - rewrite (WriteInflate_header_error st w [] _ zlib_header_of_nothing). eauto.
  - unfold AppendInflateBytes.
    erewrite bind_Some
      by (apply WriteInflate_header_error; exact zlib_header_of_nothing).
    simpl. eauto.
Qed.

(** *** The count and the error of [WriteDeflateLevel] *)

(** [WriteDeflateLevel] in full, on pools in their normal shape. *)
Lemma WriteDeflateLevel_result st w p level :
  pools_wf st ->
  exists w' err st',
    WriteDeflateLevel arch growslice zlib_write_out zlib_close_out w p level st =
      Some ((w', (len p, err)), st') /\
    err = (if takes_inline_path w then None
           else snd (stackless_written growslice zlib_write_out w
                       (stackless_level arch st level) p)) /\
    w' = (if takes_inline_path w
          then appended growslice
                 (appended growslice w (zlib_write_out (real_level arch st level) p))
                 (zlib_close_out (real_level arch st level) p)
          else fst (stackless_closed growslice zlib_write_out zlib_close_out w
                      (stackless_level arch st level) p)).
Proof.
  intros Hwf.
  destruct (takes_inline_path w) eqn:Hi.
  - destruct (WriteDeflateLevel_inline st w p level Hwf Hi) as (st' & H & _).
    do 3 eexists. split; [exact H|]. split; reflexivity.
  - destruct (WriteDeflateLevel_stackless st w p level Hwf Hi) as (st' & H & _).
    do 3 eexists. split; [exact H|]. split; reflexivity.
Qed.

(** C7, amended. On pools in their normal shape [WriteDeflateLevel]
    returns [len(p)], the input length, as its count, with or without an
    error. For the three in-memory destinations the error is nil. For any
    other destination, an error that the destination gives to the [Write]
    forwarding what the codec emitted during [Write(p)] is returned. *)
Theorem WriteDeflateLevel_count_and_error st w p level :
  pools_wf st ->
  exists w' err st',
    WriteDeflateLevel arch growslice zlib_write_out zlib_close_out w p level st =
      Some ((w', (len p, err)), st') /\
    (takes_inline_path w = true -> err = None) /\
    (forall e,
       takes_inline_path w = false ->
       snd (stackless_written growslice zlib_write_out w (stackless_level arch st level) p) = Some e ->
       err = Some e).
Proof.
  intros Hwf.
  destruct (WriteDeflateLevel_result st w p level Hwf) as (w' & err & st' & H & He & _).
  exists w', err, st'. split; [exact H|]. split.
  - intros Hi. rewrite Hi in He. exact He.
  - intros e Hi Hw. rewrite Hi, Hw in He. exact He.
Qed.

(** *** The shape of the pools is an invariant *)

Lemma WriteInflate_preserves_wf st w p r st' :
  pools_wf st ->
  WriteInflate arch zlib_read_header zlib_read_all CopyZeroAlloc w p st = Some (r, st') ->
  pools_wf st'.
Proof.
  intros Hwf H.
  assert (Hset : forall pool, pools_wf (set_flateReaderPool pool st)) by (intros; exact Hwf).
  destruct (zlib_read_header p) as [e|] eqn:Hh.
  - rewrite (WriteInflate_header_error st w p e Hh) in H.
    inversion H; subst. apply Hset.
  - unfold WriteInflate in H.
    erewrite bind_Some in H by apply acquireFlateReader_spec.
    simpl in H. rewrite Hh in H. simpl in H.
    destruct (CopyZeroAlloc w (zlib_read_all p)) as [w' [n err]].
    erewrite bind_Some in H
      by (unfold releaseFlateReader, flateReaderPool_Put; reflexivity).
    destruct (negb (to_int64 (to_int arch n) =? n)); inversion H; subst; exact Hwf.
Qed.

(** Every state the engine can reach has its twelve pools per map and
    idle writers of supported levels only. *)
Lemma reachable_wf st :
  reachable arch growslice zlib_write_out zlib_close_out zlib_read_header zlib_read_all
    CopyZeroAlloc st ->
  pools_wf st.
Proof.
  induction 1 as [|st i _ IH|st i _ IH|st _ IH
                  |st w p level r st' _ IH H|st w p r st' _ IH H
                  |st w level sw st' _ IH H].
  - apply initPools_wf.
  - apply set_real_wf; [assumption|constructor].
  - apply set_stackless_wf; [assumption|constructor].
  - exact IH.
  - destruct (takes_inline_path w) eqn:Hi.
    + destruct (WriteDeflateLevel_inline st w p level IH Hi) as (st2 & H2 & Hwf & _).
      rewrite H2 in H. inversion H; subst. exact Hwf.
    + destruct (WriteDeflateLevel_stackless st w p level IH Hi) as (st2 & H2 & Hwf & _).
      rewrite H2 in H. inversion H; subst. exact Hwf.
  - eapply WriteInflate_preserves_wf; eassumption.
  - destruct (AcquireStacklessDeflateWriter_spec st w level IH) as (st2 & H2 & Hwf & _).
    rewrite H2 in H. inversion H; subst. exact Hwf.
Qed.

(** *** Pools keyed by level *)

Lemma normalizeCompressLevel_inj l1 l2 :
  valid_level l1 -> valid_level l2 ->
  normalizeCompressLevel arch l1 = normalizeCompressLevel arch l2 -> l1 = l2.
Proof.
  unfold valid_level, zlib_HuffmanOnly, zlib_BestCompression,
    flate_HuffmanOnly, flate_BestCompression.
  intros H1 H2. rewrite !normalizeCompressLevel_in_range by lia. lia.
Qed.

Lemma created_level_in_range level : valid_level level -> created_level level = level.
Proof.
  unfold valid_level, created_level, zlib_HuffmanOnly, zlib_BestCompression,
    flate_HuffmanOnly, flate_BestCompression.
  intros H.
  destruct (Z.ltb_spec level (-2)); [lia|].
  destruct (Z.gtb_spec level 9); [lia|]. reflexivity.
Qed.

(** While the pools are keyed by level, a request for a level in range is
    served by a writer of exactly that level, on both paths. *)
Lemma level_keyed_serves_level st level :
  pools_wf st -> pools_level_keyed arch st -> valid_level level ->
  real_level arch st level = level /\ stackless_level arch st level = level.
Proof.
  intros Hwf (Hr & Hs) Hv.
  assert (R : real_level arch st level = level).
  { unfold real_level.
    destruct (real_index_wf st level Hwf) as (p & Hp & Hvp). rewrite Hp.
    destruct p as [|zw p]; [apply created_level_in_range; assumption|].
    apply index_lookup in Hp. specialize (Hr _ _ Hp).
    inversion Hr as [|? ? Hn _]; subst. inversion Hvp as [|? ? Hvz _]; subst.
    apply normalizeCompressLevel_inj; [assumption..|].
    rewrite Hn. pose proof (normalizeCompressLevel_bounds arch level). lia. }
  split; [exact R|].
  unfold stackless_level.
  destruct (stackless_index_wf st level Hwf) as (p & Hp & Hvp). rewrite Hp.
  destruct p as [|sw p]; [exact R|].
  apply index_lookup in Hp. specialize (Hs _ _ Hp).
  inversion Hs as [|? ? Hn _]; subst. inversion Hvp as [|? ? Hvz _]; subst.
  apply normalizeCompressLevel_inj; [assumption..|].
  rewrite Hn. pose proof (normalizeCompressLevel_bounds arch level). lia.
Qed.

Lemma set_real_keyed st (n : nat) p :
  pools_level_keyed arch st ->
  Forall (fun zw => normalizeCompressLevel arch (zw_level zw) = Z.of_nat n) p ->
  pools_level_keyed arch
    (set_realDeflateWriterPoolMap (<[n := p]> (realDeflateWriterPoolMap st)) st).
Proof.
  intros (Hr & Hs) Hp. split; [|exact Hs].
  intros i q Hq. simpl in Hq.
  apply list_lookup_insert_Some in Hq as [(-> & -> & _)|(_ & Hq)];
    [exact Hp|exact (Hr i q Hq)].
Qed.

Lemma set_stackless_keyed st (n : nat) p :
  pools_level_keyed arch st ->
  Forall (fun sw => normalizeCompressLevel arch (zw_level (sw_zw sw)) = Z.of_nat n) p ->
  pools_level_keyed arch
    (set_stacklessDeflateWriterPoolMap (<[n := p]> (stacklessDeflateWriterPoolMap st)) st).
Proof.
  intros (Hr & Hs) Hp. split; [exact Hr|].
  intros i q Hq. simpl in Hq.
  apply list_lookup_insert_Some in Hq as [(-> & -> & _)|(_ & Hq)];
    [exact Hp|exact (Hs i q Hq)].
Qed.

Lemma realDeflateWriterPool_Get_keyed st nLevel v st' :
  pools_level_keyed arch st ->
  realDeflateWriterPool_Get nLevel st = Some (v, st') ->
  pools_level_keyed arch st'.
Proof.
  intros Hk H. unfold realDeflateWriterPool_Get in H.
  destruct (index (realDeflateWriterPoolMap st) nLevel) as [p|] eqn:Hp; [|discriminate].
  inversion H; subst. apply set_real_keyed; [assumption|].
  apply index_lookup in Hp. destruct Hk as (Hr & _). specialize (Hr _ _ Hp).
  destruct p; simpl; [constructor|]. inversion Hr; assumption.
Qed.

Lemma realDeflateWriterPool_Put_keyed st level zw st' :
  pools_level_keyed arch st ->
  normalizeCompressLevel arch (zw_level zw) = normalizeCompressLevel arch level ->
  realDeflateWriterPool_Put (normalizeCompressLevel arch level) zw st = Some (tt, st') ->
  pools_level_keyed arch st'.
Proof.
  intros Hk Hn H. unfold realDeflateWriterPool_Put in H.
  destruct (index (realDeflateWriterPoolMap st) (normalizeCompressLevel arch level))
    as [p|] eqn:Hp; [|discriminate].
  inversion H; subst. apply set_real_keyed; [assumption|].
  pose proof (normalizeCompressLevel_bounds arch level) as Hb.
  apply index_lookup in Hp. destruct Hk as (Hr & _). specialize (Hr _ _ Hp).
  constructor; [rewrite Hn; lia|exact Hr].
Qed.

Lemma stacklessDeflateWriterPool_Get_keyed st nLevel v st' :
  pools_level_keyed arch st ->
  stacklessDeflateWriterPool_Get nLevel st = Some (v, st') ->
  pools_level_keyed arch st'.
Proof.
  intros Hk H. unfold stacklessDeflateWriterPool_Get in H.
  destruct (index (stacklessDeflateWriterPoolMap st) nLevel) as [p|] eqn:Hp; [|discriminate].
  inversion H; subst. apply set_stackless_keyed; [assumption|].
  apply index_lookup in Hp. destruct Hk as (_ & Hs). specialize (Hs _ _ Hp).
  destruct p; simpl; [constructor|]. inversion Hs; assumption.
Qed.

Lemma stacklessDeflateWriterPool_Put_keyed st level sw st' :
  pools_level_keyed arch st ->
  normalizeCompressLevel arch (zw_level (sw_zw sw)) = normalizeCompressLevel arch level ->
  stacklessDeflateWriterPool_Put (normalizeCompressLevel arch level) sw st = Some (tt, st') ->
  pools_level_keyed arch st'.
Proof.
  intros Hk Hn H. unfold stacklessDeflateWriterPool_Put in H.
  destruct (index (stacklessDeflateWriterPoolMap st) (normalizeCompressLevel arch level))
    as [p|] eqn:Hp; [|discriminate].
  inversion H; subst. apply set_stackless_keyed; [assumption|].
  pose proof (normalizeCompressLevel_bounds arch level) as Hb.
  apply index_lookup in Hp. destruct Hk as (_ & Hs). specialize (Hs _ _ Hp).
  constructor; [rewrite Hn; lia|exact Hs].
Qed.

Lemma acquireRealDeflateWriter_keyed st w level zw st' :
  pools_level_keyed arch st ->
  acquireRealDeflateWriter arch w level st = Some (zw, st') ->
  pools_level_keyed arch st'.
Proof.
  intros Hk H. unfold acquireRealDeflateWriter, mbind, M_bind in H.
  destruct (realDeflateWriterPool_Get (normalizeCompressLevel arch level) st)
    as [[v st1]|] eqn:HG; [|discriminate].
  apply realDeflateWriterPool_Get_keyed in HG; [|assumption].
  destruct v as [zw0|].
  - inversion H; subst; assumption.
  - destruct (zlib_NewWriterLevel w level); [inversion H; subst; assumption|].
    destruct (zlib_NewWriterLevel w _); inversion H; subst; assumption.
Qed.

(** A request for a level in range leaves the pools keyed by level, on
    either path. *)
Lemma WriteDeflateLevel_keeps_level_keying st w p level r st' :
  pools_wf st -> pools_level_keyed arch st -> valid_level level ->
  WriteDeflateLevel arch growslice zlib_write_out zlib_close_out w p level st = Some (r, st') ->
  pools_level_keyed arch st'.
Proof.
  intros Hwf Hk Hv H.
  destruct (level_keyed_serves_level st level Hwf Hk Hv) as (Hr & Hs).
  destruct (takes_inline_path w) eqn:Hi.
  - assert (HN : exists w', nonblockingWriteDeflate arch growslice zlib_write_out zlib_close_out
                   {| ctx_w := w; ctx_p := p; ctx_level := level |} st = Some (w', st')).
    { unfold WriteDeflateLevel, stacklessWriteDeflate in H.
      destruct w; try discriminate Hi; unfold mbind, M_bind in H;
        destruct (nonblockingWriteDeflate _ _ _ _ _ st) as [[w' st2]|];
        try discriminate H; inversion H; subst; eauto. }
    destruct HN as (w' & HN). clear H.
    unfold nonblockingWriteDeflate in HN. simpl in HN.
    destruct (acquireRealDeflateWriter_spec st w level Hwf) as (st1 & HA & Hwf1 & _).
    pose proof (acquireRealDeflateWriter_keyed _ _ _ _ _ Hk HA) as Hk1.
    erewrite bind_Some in HN by exact HA.
    erewrite bind_Some in HN
      by (apply zw_Write_spec, takes_inline_path_is_buffer, Hi).
    unfold releaseRealDeflateWriter in HN.
    erewrite bind_Some in HN
      by (apply zw_Close_spec, appended_is_buffer, takes_inline_path_is_buffer, Hi).
    unfold mbind, M_bind in HN.
    destruct (realDeflateWriterPool_Put _ _ st1) as [[[] st2]|] eqn:HP; [|discriminate].
    inversion HN; subst.
    eapply realDeflateWriterPool_Put_keyed; [exact Hk1| |exact HP].
    simpl. rewrite Hr. reflexivity.
  - assert (HS : (zw ← AcquireStacklessDeflateWriter arch w level;
               '(zw, (n, err)) ← stackless_Write growslice zlib_write_out zw p;
               w' ← releaseStacklessDeflateWriter arch growslice zlib_write_out zlib_close_out zw level;
               mret (w', (n, err))) st = Some (r, st')).
    { unfold WriteDeflateLevel in H. destruct w; try discriminate Hi; exact H. }
    clear H.
    destruct (AcquireStacklessDeflateWriter_spec st w level Hwf) as (st1 & HA & Hwf1 & _).
    assert (Hk1 : pools_level_keyed arch st1).
    { clear HS. unfold AcquireStacklessDeflateWriter, mbind, M_bind in HA.
      destruct (stacklessDeflateWriterPool_Get _ st) as [[v st0]|] eqn:HG; [|discriminate].
      apply stacklessDeflateWriterPool_Get_keyed in HG; [|assumption].
      destruct v as [sw|]; [inversion HA; subst; assumption|].
      unfold stackless_NewWriter, mbind, M_bind in HA.
      destruct (acquireRealDeflateWriter arch (W_xWriter []) level st0)
        as [[zw st2]|] eqn:HR; [|discriminate].
      apply acquireRealDeflateWriter_keyed in HR; [|assumption].
      inversion HA; subst; assumption. }
    erewrite bind_Some in HS by exact HA.
    erewrite bind_Some in HS by apply stackless_Write_spec.
    unfold releaseStacklessDeflateWriter, mbind, M_bind in HS.
    rewrite stackless_Close_spec in HS.
    destruct (stacklessDeflateWriterPool_Put _ _ st1) as [[[] st2]|] eqn:HP; [|discriminate].
    inversion HS; subst.
    eapply stacklessDeflateWriterPool_Put_keyed; [exact Hk1| |exact HP].
    simpl. rewrite Hs. reflexivity.
Qed.

Lemma initPools_level_keyed : pools_level_keyed arch initPools.
Proof.
  split; intros i p Hp;
    (do 12 (destruct i as [|i]; [inversion Hp; constructor|])); inversion Hp.
Qed.

Lemma stackless_forward_accepting s out :
  accepting s ->
  exists s',
    stackless_forward growslice (W_other s) out = (W_other s', None)
    /\ sink_data s' = sink_data s ++ out
    /\ accepting s'.
Proof.
  intros Ha. unfold stackless_forward.
  destruct (Z.gtb_spec (len out) 0) as [H|H].
  - simpl. unfold Sink_Write. rewrite Ha. simpl.
    eexists. split; [reflexivity|]. simpl. rewrite Nat.min_id, firstn_all.
    split; [reflexivity|exact Ha].
  - exists s. split; [reflexivity|]. split; [|exact Ha].
    destruct out; [rewrite app_nil_r; reflexivity|unfold len in H; simpl in H; lia].
Qed.

(** While the pools are keyed by level, the dispatch path does not show in
    the bytes delivered for a level in range: a buffer on the inline path
    and an accepting destination on the stackless path both receive the
    stream of that level. *)
Lemma dispatch_paths_agree_when_level_keyed st w s p level :
  pools_wf st -> pools_level_keyed arch st -> valid_level level ->
  takes_inline_path w = true -> accepting s ->
  exists wi sti s' sts,
    WriteDeflateLevel arch growslice zlib_write_out zlib_close_out w p level st =
      Some ((wi, (len p, None)), sti) /\
    WriteDeflateLevel arch growslice zlib_write_out zlib_close_out (W_other s) p level st =
      Some ((W_other s', (len p, None)), sts) /\
    Writer_bytes wi =
      Writer_bytes w ++ zlib_stream zlib_write_out zlib_close_out level p /\
    sink_data s' =
      sink_data s ++ zlib_stream zlib_write_out zlib_close_out level p.
Proof.
  intros Hwf Hk Hv Hi Ha.
  destruct (level_keyed_serves_level st level Hwf Hk Hv) as (Hr & Hs).
  destruct (WriteDeflateLevel_inline st w p level Hwf Hi) as (sti & HI & _).
  destruct (WriteDeflateLevel_stackless st (W_other s) p level Hwf eq_refl)
    as (sts & HS & _).
  rewrite Hr in HI. rewrite Hs in HS.
  destruct (stackless_forward_accepting s (zlib_write_out level p) Ha)
    as (s1 & E1 & D1 & A1).
  rewrite E1 in HS. simpl in HS.
  destruct (stackless_forward_accepting s1 (zlib_close_out level p) A1)
    as (s2 & E2 & D2 & A2).
  rewrite E2 in HS. simpl in HS.
  eexists _, sti, s2, sts.
  split; [exact HI|]. split; [exact HS|]. split.
  - apply (appended_twice_extended w), takes_inline_path_is_buffer, Hi.
  - rewrite D2, D1. unfold zlib_stream. rewrite app_assoc. reflexivity.
Qed.

Lemma acquireRealDeflateWriter_pool st w level pool zw st' :
  index (realDeflateWriterPoolMap st) (normalizeCompressLevel arch level) = Some pool ->
  acquireRealDeflateWriter arch w level st = Some (zw, st') ->
  realDeflateWriterPoolMap st' =
    <[Z.to_nat (normalizeCompressLevel arch level) := snd (Pool_Get pool)]>
      (realDeflateWriterPoolMap st).
Proof.
  intros Hp H.
  unfold acquireRealDeflateWriter, mbind, M_bind, realDeflateWriterPool_Get in H.
  rewrite Hp in H.
  destruct (fst (Pool_Get pool)); [inversion H; reflexivity|].
  destruct (zlib_NewWriterLevel w level); [inversion H; reflexivity|].
  destruct (zlib_NewWriterLevel w _); inversion H; reflexivity.
Qed.

(** The pool of the requested level after the inline path: the serving
    writer is on top of what [Get] left. *)
Lemma nonblockingWriteDeflate_pool st w p level pool w' st' :
  pools_wf st -> is_buffer w = true ->
  index (realDeflateWriterPoolMap st) (normalizeCompressLevel arch level) = Some pool ->
  nonblockingWriteDeflate arch growslice zlib_write_out zlib_close_out
      {| ctx_w := w; ctx_p := p; ctx_level := level |} st = Some (w', st') ->
  exists zw,
    realDeflateWriterPoolMap st' !! Z.to_nat (normalizeCompressLevel arch level) =
      Some (zw :: snd (Pool_Get pool)) /\
    zw_level zw = real_level arch st level.
Proof.
  intros Hwf Hb Hp HN.
  pose proof (normalizeCompressLevel_bounds arch level) as Hn.
  assert (Hlen : (Z.to_nat (normalizeCompressLevel arch level)
                  < length (realDeflateWriterPoolMap st))%nat).
  { destruct Hwf as (Hl & _). rewrite Hl. lia. }
  unfold nonblockingWriteDeflate in HN. simpl in HN.
  destruct (acquireRealDeflateWriter_spec st w level Hwf) as (st1 & HA & _).
  pose proof (acquireRealDeflateWriter_pool _ _ _ _ _ _ Hp HA) as Hreal1.
  erewrite bind_Some in HN by exact HA.
  erewrite bind_Some in HN by (apply zw_Write_spec; exact Hb).
  unfold releaseRealDeflateWriter in HN.
  erewrite bind_Some in HN by (apply zw_Close_spec, appended_is_buffer, Hb).
  assert (Hp1 : index (realDeflateWriterPoolMap st1) (normalizeCompressLevel arch level)
                = Some (snd (Pool_Get pool))).
  { unfold index. rewrite Hreal1.
    destruct (Z.ltb_spec (normalizeCompressLevel arch level) 0); [lia|].
    apply list_lookup_insert_eq. exact Hlen. }
  unfold mbind, M_bind, realDeflateWriterPool_Put in HN. rewrite Hp1 in HN.
  inversion HN; subst.
  cbn [realDeflateWriterPoolMap set_realDeflateWriterPoolMap].
  eexists. split.
  - rewrite list_lookup_insert_eq; [reflexivity|].
    rewrite Hreal1, length_insert. exact Hlen.
  - reflexivity.
Qed.

(** C5, on the input that breaks it. On fresh pools, compressing at the
    out-of-range level 100 creates a writer of level 9 (index 11) and
    releases it into the pool of index 8, that of level 6: the pools are no
    longer keyed by level, and the next request for level 6 is served by
    this writer of level 9. *)
Theorem out_of_range_level_breaks_level_keying (data : bytes) :
  exists out st1 zw,
    AppendDeflateBytesLevel arch growslice zlib_write_out zlib_close_out
        [] nil_slice data 100 initPools =
      Some ((out, None), st1) /\
    normalizeCompressLevel arch 100 = 8 /\
    realDeflateWriterPoolMap st1 !! 8%nat = Some [zw] /\
    zw_level zw = 9 /\
    normalizeCompressLevel arch (zw_level zw) = 11 /\
    ~ pools_level_keyed arch st1 /\
    real_level arch st1 6 = 9.
Proof.
  assert (E8 : normalizeCompressLevel arch 100 = 8)
    by (apply normalizeCompressLevel_out_of_range; lia).
  assert (E11 : normalizeCompressLevel arch 9 = 11)
    by (rewrite normalizeCompressLevel_in_range; lia).
  assert (E6 : normalizeCompressLevel arch 6 = 8)
    by (rewrite normalizeCompressLevel_in_range; lia).
  destruct (nonblockingWriteDeflate_spec initPools
              (W_byteSliceWriter {| b := nil_slice |} []) data 100 initPools_wf eq_refl)
    as (st1 & HN & _).
  assert (Hp : index (realDeflateWriterPoolMap initPools)
                 (normalizeCompressLevel arch 100) = Some [])
    by (rewrite E8; reflexivity).
  destruct (nonblockingWriteDeflate_pool initPools
              (W_byteSliceWriter {| b := nil_slice |} []) data 100 [] _ st1
              initPools_wf eq_refl Hp HN)
    as (zw & Hzw & Hlv).
  rewrite E8 in Hzw. change (Z.to_nat 8) with 8%nat in Hzw. simpl in Hzw.
  assert (H9 : zw_level zw = 9).
  { rewrite Hlv. unfold real_level. rewrite E8. reflexivity. }
  eexists _, st1, zw. split.
  { unfold AppendDeflateBytesLevel, WriteDeflateLevel, stacklessWriteDeflate.
    erewrite bind_Some by (erewrite bind_Some by exact HN; reflexivity).
    reflexivity. }
  split; [exact E8|]. split; [exact Hzw|]. split; [exact H9|].
  split; [rewrite H9; exact E11|]. split.
  - intros (Hr & _). specialize (Hr 8%nat _ Hzw).
    inversion Hr as [|? ? Hn _]. rewrite H9, E11 in Hn. discriminate.
  - unfold real_level, index. rewrite E6.
    change (8 <? 0) with false. change (Z.to_nat 8) with 8%nat. cbv iota.
    rewrite Hzw. exact H9.
Qed.

(** *** What a call leaves in the pools *)

Lemma pools_eq st st' :
  realDeflateWriterPoolMap st' = realDeflateWriterPoolMap st ->
  stacklessDeflateWriterPoolMap st' = stacklessDeflateWriterPoolMap st ->
  flateReaderPool st' = flateReaderPool st ->
  st' = st.
Proof. destruct st, st'; simpl; intros -> -> ->; reflexivity. Qed.




(** [WriteInflate] moves readers only: it takes the idle reader, if there
    is one, and returns the serving reader when the header was accepted. *)
Lemma WriteInflate_state st w p r st' :
  WriteInflate arch zlib_read_header zlib_read_all CopyZeroAlloc w p st = Some (r, st') ->
  realDeflateWriterPoolMap st' = realDeflateWriterPoolMap st /\
  stacklessDeflateWriterPoolMap st' = stacklessDeflateWriterPoolMap st /\
  flateReaderPool st' =
    match zlib_read_header p with
    | Some _ => snd (Pool_Get (flateReaderPool st))
    | None => {| zr_r := {| r_b := p |} |} :: snd (Pool_Get (flateReaderPool st))
    end.
Proof.
  intros H.
  destruct (zlib_read_header p) as [e|] eqn:Hh.
  - rewrite (WriteInflate_header_error st w p e Hh) in H.
    inversion H; subst. auto.
  - unfold WriteInflate in H.
    erewrite bind_Some in H by apply acquireFlateReader_spec.
    simpl in H. rewrite Hh in H. simpl in H.
    destruct (CopyZeroAlloc w (zlib_read_all p)) as [w' [n err]].
    erewrite bind_Some in H
      by (unfold releaseFlateReader, flateReaderPool_Put; reflexivity).
    destruct (negb (to_int64 (to_int arch n) =? n)); inversion H; subst; auto.
Qed.






(** *** Requests for levels in range *)

Lemma reachable_in_range_reachable st :
  reachable_in_range arch growslice zlib_write_out zlib_close_out zlib_read_header
    zlib_read_all CopyZeroAlloc st ->
  reachable arch growslice zlib_write_out zlib_close_out zlib_read_header zlib_read_all
    CopyZeroAlloc st.
Proof.
  induction 1; [constructor|constructor; assumption..| | |].
  - eapply reachable_WriteDeflateLevel; eassumption.
  - eapply reachable_WriteInflate; eassumption.
  - eapply reachable_AcquireStacklessDeflateWriter; eassumption.
Qed.

Lemma AcquireStacklessDeflateWriter_keyed st w level sw st' :
  pools_level_keyed arch st ->
  AcquireStacklessDeflateWriter arch w level st = Some (sw, st') ->
  pools_level_keyed arch st'.
Proof.
  intros Hk HA. unfold AcquireStacklessDeflateWriter, mbind, M_bind in HA.
  destruct (stacklessDeflateWriterPool_Get _ st) as [[v st0]|] eqn:HG; [|discriminate].
  apply stacklessDeflateWriterPool_Get_keyed in HG; [|assumption].
  destruct v as [sw0|]; [inversion HA; subst; assumption|].
  unfold stackless_NewWriter, mbind, M_bind in HA.
  destruct (acquireRealDeflateWriter arch (W_xWriter []) level st0)
    as [[zw st2]|] eqn:HR; [|discriminate].
  apply acquireRealDeflateWriter_keyed in HR; [|assumption].
  inversion HA; subst; assumption.
Qed.

Lemma reachable_in_range_keyed st :
  reachable_in_range arch growslice zlib_write_out zlib_close_out zlib_read_header
    zlib_read_all CopyZeroAlloc st ->
  pools_level_keyed arch st.
Proof.
  intros Hreach.
  induction Hreach as [|st i Hre IH|st i Hre IH|st Hre IH
                       |st w p level r st' Hre IH Hv H|st w p r st' Hre IH H
                       |st w level sw st' Hre IH Hv H].
  - apply initPools_level_keyed.
  - apply set_real_keyed; [assumption|constructor].
  - apply set_stackless_keyed; [assumption|constructor].
  - exact IH.
  - eapply WriteDeflateLevel_keeps_level_keying; try eassumption.
    apply reachable_wf, reachable_in_range_reachable, Hre.
  - destruct (WriteInflate_state _ _ _ _ _ H) as (E1 & E2 & _).
    destruct IH as (Hr & Hs). split; [rewrite E1|rewrite E2]; assumption.
  - eapply AcquireStacklessDeflateWriter_keyed; eassumption.
Qed.

(** X3. As long as every request names a level in [-2, 9], the pools stay
    keyed by level, and a request is compressed at the level it names, with
    nothing left of earlier payloads: a buffer on the inline path and an
    accepting destination on the stackless path both receive, after what
    they held, the stream that a writer of that level produces for [p], and
    the call returns [(len(p), nil)]. *)
Theorem in_range_requests_are_served_at_their_level st w s p level :
  reachable_in_range arch growslice zlib_write_out zlib_close_out zlib_read_header
    zlib_read_all CopyZeroAlloc st ->
  valid_level level ->
  takes_inline_path w = true ->
  accepting s ->
  pools_level_keyed arch st /\
  exists wi sti s' sts,
    WriteDeflateLevel arch growslice zlib_write_out zlib_close_out w p level st =
      Some ((wi, (len p, None)), sti) /\
    Writer_bytes wi =
      Writer_bytes w ++ zlib_stream zlib_write_out zlib_close_out level p /\
    pools_level_keyed arch sti /\
    WriteDeflateLevel arch growslice zlib_write_out zlib_close_out (W_other s) p level st =
      Some ((W_other s', (len p, None)), sts) /\
    sink_data s' =
      sink_data s ++ zlib_stream zlib_write_out zlib_close_out level p /\
    pools_level_keyed arch sts.
Proof.
  intros Hre Hv Hi Ha.
  pose proof (reachable_in_range_keyed st Hre) as Hk.
  pose proof (reachable_wf st (reachable_in_range_reachable st Hre)) as Hwf.
  split; [exact Hk|].
  destruct (level_keyed_serves_level st level Hwf Hk Hv) as (Hr & Hs).
  destruct (WriteDeflateLevel_inline st w p level Hwf Hi) as (sti & HI & _).
  destruct (WriteDeflateLevel_stackless st (W_other s) p level Hwf eq_refl)
    as (sts & HS & _).
  pose proof (WriteDeflateLevel_keeps_level_keying _ _ _ _ _ _ Hwf Hk Hv HI) as Hki.
  pose proof (WriteDeflateLevel_keeps_level_keying _ _ _ _ _ _ Hwf Hk Hv HS) as Hks.
  rewrite Hr in HI. rewrite Hs in HS.
  destruct (stackless_forward_accepting s (zlib_write_out level p) Ha)
    as (s1 & E1 & D1 & A1).
  rewrite E1 in HS. simpl in HS.
  destruct (stackless_forward_accepting s1 (zlib_close_out level p) A1)
    as (s2 & E2 & D2 & A2).
  rewrite E2 in HS. simpl in HS.
  eexists _, sti, s2, sts.
  split; [exact HI|]. split.
  { apply (appended_twice_extended w), takes_inline_path_is_buffer, Hi. }
  split; [exact Hki|].
  split; [exact HS|]. split; [|exact Hks].
  rewrite D2, D1. unfold zlib_stream. rewrite app_assoc. reflexivity.
Qed.

(** *** An empty pool *)

(** X4. When the pool of the requested level holds no idle writer (at
    start-up, or after the runtime dropped it), [AppendDeflateBytesLevel]
    compresses at the level asked for if it lies in [-2, 9], at
    [HuffmanOnly] (-2) if it lies below and at [BestCompression] (9) if it
    lies above: the default level that [normalizeCompressLevel] substitutes
    for the pool index plays no part in the stream. *)
Theorem empty_pool_compresses_at_clamped_level st heap dst src level :
  pools_wf st ->
  index (realDeflateWriterPoolMap st) (normalizeCompressLevel arch level) = Some [] ->
  exists heap' out st',
    AppendDeflateBytesLevel arch growslice zlib_write_out zlib_close_out
        heap dst src level st =
      Some (((heap', out), None), st') /\
    slice_bytes heap' out =
      slice_bytes heap dst
        ++ zlib_stream zlib_write_out zlib_close_out
             (if level <? -2 then -2 else if level >? 9 then 9 else level) src.
Proof.
  intros Hwf Hp.
  destruct (AppendDeflateBytesLevel_spec st heap dst src level Hwf)
    as (heap' & out & st' & H & Hb & _).
  exists heap', out, st'. split; [exact H|]. rewrite Hb.
  unfold real_level. rewrite Hp.
  unfold created_level, zlib_HuffmanOnly, zlib_BestCompression,
    flate_HuffmanOnly, flate_BestCompression.
  destruct (Z.ltb_spec level (-2)); simpl; [reflexivity|].
  destruct (Z.gtb_spec level 9); reflexivity.
Qed.

(** *** Damaged input *)

(** X5. [AppendInflateBytes] on a payload that is not a sound stream.
    When the header is refused, the slice returned is [dst] itself, in an
    unchanged store, with the error of the codec. When the header is
    accepted and the stream breaks later, the error of the reader is
    returned together with a slice that holds the elements of [dst] followed
    by what was decompressed before the error: the caller must look at the
    error before using the bytes. *)
Theorem AppendInflateBytes_damaged_input st heap dst src :
  (forall e,
     zlib_read_header src = Some e ->
     exists st',
       AppendInflateBytes arch zlib_read_header zlib_read_all CopyZeroAlloc heap dst src st =
         Some (((heap, dst), Some e), st')) /\
  (forall out e,
     zlib_read_header src = None ->
     zlib_read_all src = (out, Some e) ->
     len out < 2 ^ (int_bits arch - 1) ->
     exists heap' res st',
       AppendInflateBytes arch zlib_read_header zlib_read_all CopyZeroAlloc heap dst src st =
         Some (((heap', res), Some e), st') /\
       slice_bytes heap' res = slice_bytes heap dst ++ out).
Proof.
  split.
  - intros e Hh. unfold AppendInflateBytes.
    erewrite bind_Some by (apply WriteInflate_header_error; exact Hh).
    simpl. eauto.
  - intros out e Hh Ha Hl.
    destruct (CopyZeroAlloc_byteSliceWriter {| b := dst |} heap out (Some e))
      as (w' & HC & He).
    destruct (extended_byteSliceWriter _ _ _ _ He) as (x & h & -> & Hb & _).
    edestruct (WriteInflate_copied st (W_byteSliceWriter {| b := dst |} heap) src)
      as (st' & HW); [exact Hh|rewrite Ha; exact HC|].
    rewrite to_int_len_id, Z.eqb_refl in HW by (unfold len in *; lia).
    unfold AppendInflateBytes. erewrite bind_Some by exact HW.
    simpl. exists h, (b x), st'. split; [reflexivity|exact Hb].
Qed.

(** *** The stackless writer in the hands of a caller *)

Lemma stackless_forward_bytes_Buffer buf out :
  stackless_forward growslice (W_bytes_Buffer buf) out = (W_bytes_Buffer (buf ++ out), None).
Proof.
  unfold stackless_forward. destruct (Z.gtb_spec (len out) 0) as [H|H]; [reflexivity|].
  destruct out; [rewrite app_nil_r; reflexivity|unfold len in H; simpl in H; lia].
Qed.

(** X6. A caller that takes a writer from
    [AcquireStacklessDeflateWriter] for a [bytes.Buffer], writes [p] once
    and closes (as [TestDecompressDeflate] does) gets [(len(p), nil)] from
    [Write], [nil] from [Close], and finds in the buffer, after what it
    held, one complete stream of a level the codec supports; taken from an
    empty buffer, that stream is inflated by [AppendInflateBytes] to [p]
    again. *)
Theorem stackless_writer_round_trip st buf p level :
  pools_wf st ->
  len p < 2 ^ (int_bits arch - 1) ->
  exists sw st1 sw1 sw2 lv,
    AcquireStacklessDeflateWriter arch (W_bytes_Buffer buf) level st = Some (sw, st1) /\
    stackless_Write growslice zlib_write_out sw p st1 = Some ((sw1, (len p, None)), st1) /\
    stackless_Close growslice zlib_write_out zlib_close_out sw1 st1 =
      Some ((sw2, None), st1) /\
    valid_level lv /\
    sw_dstW sw2 =
      W_bytes_Buffer (buf ++ zlib_stream zlib_write_out zlib_close_out lv p) /\
    exists heap back st2,
      AppendInflateBytes arch zlib_read_header zlib_read_all CopyZeroAlloc [] nil_slice
          (zlib_stream zlib_write_out zlib_close_out lv p) st1 =
        Some (((heap, back), None), st2) /\
      slice_bytes heap back = p.
Proof.
  intros Hwf Hlen.
  destruct (AcquireStacklessDeflateWriter_spec st (W_bytes_Buffer buf) level Hwf)
    as (st1 & HA & _).
  pose proof (stackless_level_valid st level Hwf) as Hv.
  set (lv := stackless_level arch st level) in *.
  do 4 eexists. exists lv.
  split; [exact HA|].
  split; [rewrite stackless_Write_spec, stackless_forward_bytes_Buffer; reflexivity|].
  simpl.
  split; [rewrite stackless_Close_spec, stackless_forward_bytes_Buffer; reflexivity|].
  split; [exact Hv|]. simpl.
  split; [unfold zlib_stream; rewrite app_assoc; reflexivity|].
  destruct (zlib_roundtrip lv p Hv) as (Hh & Ha).
  destruct (AppendInflateBytes_spec st1 [] nil_slice
              (zlib_stream zlib_write_out zlib_close_out lv p))
    as (heap2 & back & err & st2 & HI & Hb2 & _ & Herr).
  unfold inflated in Hb2. rewrite Hh, Ha in Hb2.
  change (slice_bytes [] nil_slice) with (@nil byte) in Hb2. simpl in Hb2.
  exists heap2, back, st2. split; [|exact Hb2].
  rewrite HI, Herr; [reflexivity|exact Hh|rewrite Ha; reflexivity|rewrite Ha; exact Hlen].
Qed.
End EngineProperties.

(** *** The small codec honours the contract of the libraries *)

Module StoredZlibFacts.
Import StoredZlib.

Lemma Z_of_byte_of_Z z : Z_of_byte (byte_of_Z z) = z mod 256.
Proof.
  unfold Z_of_byte, byte_of_Z.
  assert (Hm : 0 <= z mod 256 < 256) by (apply Z.mod_pos_bound; lia).
  destruct (Byte.of_N (Z.to_N (z mod 256))) as [x|] eqn:E.
  - apply Byte.to_of_N in E. rewrite E. rewrite Z2N.id; lia.
  - apply Byte.of_N_None_iff in E. lia.
Qed.

Lemma le16_decode z :
  0 <= z < 65536 ->
  Z_of_byte (byte_of_Z z) + 256 * Z_of_byte (byte_of_Z (z / 256)) = z.
Proof.
  intros H. rewrite !Z_of_byte_of_Z.
  Z.div_mod_to_equations. lia.
Qed.

Lemma bytes_eqb_refl x : bytes_eqb x x = true.
Proof.
  induction x as [|a x IH]; simpl; [reflexivity|].
  rewrite IH, andb_true_r. apply Byte.byte_dec_lb. reflexivity.
Qed.

Lemma stored_blocks_nil fuel : stored_blocks fuel [] = [].
Proof. destruct fuel; reflexivity. Qed.

Lemma stored_blocks_cons fuel x data :
  stored_blocks (S fuel) (x :: data) =
    x00 :: le16 (len (take blockSize (x :: data)))
        ++ le16 (65535 - len (take blockSize (x :: data)))
        ++ take blockSize (x :: data)
        ++ stored_blocks fuel (drop blockSize (x :: data)).
Proof. reflexivity. Qed.

Lemma inflate_stored_step fuel h l0 l1 n0 n1 s' :
  inflate_stored (S fuel) (h :: l0 :: l1 :: n0 :: n1 :: s') =
    if negb (Z.land (Z.shiftr (Z_of_byte h) 1) 3 =? 0)
    then ([], Some ErrCorruptInput, s')
    else
      if negb (Z_of_byte n0 + 256 * Z_of_byte n1
               =? 65535 - (Z_of_byte l0 + 256 * Z_of_byte l1))
      then ([], Some ErrCorruptInput, s')
      else if len s' <? Z_of_byte l0 + 256 * Z_of_byte l1
      then (s', Some ErrUnexpectedEOF, [])
      else
        if Z.odd (Z_of_byte h)
        then (take (Z.to_nat (Z_of_byte l0 + 256 * Z_of_byte l1)) s', None,
              drop (Z.to_nat (Z_of_byte l0 + 256 * Z_of_byte l1)) s')
        else
          let '(d, e, r) :=
            inflate_stored fuel
              (drop (Z.to_nat (Z_of_byte l0 + 256 * Z_of_byte l1)) s') in
          (take (Z.to_nat (Z_of_byte l0 + 256 * Z_of_byte l1)) s' ++ d, e, r).
Proof. reflexivity. Qed.

Lemma blockSize_val : Z.of_nat blockSize = 65535.
Proof. unfold blockSize. rewrite Z2Nat.id; lia. Qed.

(** The stored blocks of [data], the final block and whatever follows are
    read back as [data], with what follows left over. *)
Lemma inflate_stored_blocks f : forall data fuel rest,
  (length data <= f)%nat ->
  (length (stored_blocks f data ++ final_block ++ rest) <= fuel)%nat ->
  inflate_stored fuel (stored_blocks f data ++ final_block ++ rest) = (data, None, rest).
Proof.
  induction f as [|f IH]; intros data fuel rest Hlen Hfuel.
  - destruct data; [|simpl in Hlen; lia].
    simpl in *. destruct fuel as [|fuel]; [lia|].
    unfold final_block. simpl app. rewrite inflate_stored_step.
    change (Z_of_byte x01) with 1. change (Z_of_byte x00) with 0.
    change (Z_of_byte xff) with 255. simpl.
    change (0 + 256 * 0) with 0.
    destruct (Z.ltb_spec (len rest) 0) as [H|H]; [unfold len in H; lia|].
    reflexivity.
  - destruct data as [|x data].
    { rewrite stored_blocks_nil in *.
      specialize (IH [] fuel rest). rewrite stored_blocks_nil in IH.
      apply IH; [simpl; lia|exact Hfuel]. }
    rewrite stored_blocks_cons in *.
    pose proof blockSize_val as Hbs.
    remember blockSize as bs eqn:Ebs. clear Ebs.
    remember (take bs (x :: data)) as c eqn:Hc.
    remember (drop bs (x :: data)) as d eqn:Hd.
    assert (Hcd : x :: data = c ++ d) by (subst; symmetry; apply take_drop).
    assert (Hxd : length (x :: data) = S (length data)) by reflexivity.
    assert (Hlc : 1 <= len c <= 65535).
    { subst c. unfold len. rewrite length_take, Hxd. lia. }
    assert (Hld : (length d <= f)%nat).
    { subst d. rewrite length_drop, Hxd. rewrite Hxd in Hlen. lia. }
    clear Hc Hd Hxd Hlen.
    set (tl := final_block ++ rest) in *.
    unfold le16 in *. simpl app in *.
    rewrite <- (app_assoc c) in *.
    destruct fuel as [|fuel]; [simpl in Hfuel; lia|].
    rewrite inflate_stored_step.
    change (Z_of_byte x00) with 0.
    rewrite !le16_decode by lia.
    change (negb (Z.land (Z.shiftr 0 1) 3 =? 0)) with false. cbv iota.
    rewrite Z.eqb_refl. simpl negb. cbv iota.
    destruct (Z.ltb_spec (len (c ++ stored_blocks f d ++ tl)) (len c))
      as [H|H]; [unfold len in H; rewrite length_app in H; lia|].
    change (Z.odd 0) with false. cbv iota.
    replace (Z.to_nat (len c)) with (length c) by (unfold len; lia).
    rewrite take_app_length, drop_app_length.
    subst tl. rewrite IH; [rewrite Hcd; reflexivity|assumption|].
    simpl in Hfuel. rewrite !length_app in *. simpl in *. lia.
Qed.

Lemma flevel_cases level : flevel level = 0 \/ flevel level = 1 \/ flevel level = 2 \/ flevel level = 3.
Proof.
  unfold flevel.
  destruct ((level =? -2) || (level =? 0) || (level =? 1)); [auto|].
  destruct ((2 <=? level) && (level <=? 5)); [auto|].
  destruct ((level =? 6) || (level =? -1)); auto.
Qed.

Lemma header_accepted level rest :
  zlib_read_header (header level ++ rest) = None /\
  drop (header_length (header level ++ rest)) (header level ++ rest) = rest.
Proof.
  unfold header.
  destruct (flevel_cases level) as [E|[E|[E|E]]]; rewrite E; split; reflexivity.
Qed.

(** The contract of a conforming codec. *)
Lemma stored_roundtrip level p :
  zlib_read_header (zlib_stream zlib_write_out zlib_close_out level p) = None /\
  zlib_read_all (zlib_stream zlib_write_out zlib_close_out level p) = (p, None).
Proof.
  unfold zlib_stream, zlib_write_out, zlib_close_out.
  destruct (header_accepted level
              (stored_blocks (length p) p ++ final_block ++ be32 (adler32 p)))
    as (Hh & Hd).
  split; [exact Hh|].
  unfold zlib_read_all. rewrite Hd.
  rewrite inflate_stored_blocks by lia.
  unfold be32. rewrite bytes_eqb_refl. reflexivity.
Qed.

Lemma stored_header_of_nothing : zlib_read_header [] = Some ErrUnexpectedEOF.
Proof. reflexivity. Qed.

Lemma stored_copy_byteSliceWriter (w : byteSliceWriter) heap out rerr :
  exists w',
    CopyZeroAlloc (W_byteSliceWriter w heap) (out, rerr) = (w', (len out, rerr)) /\
    extended (W_byteSliceWriter w heap) w' out.
Proof.
  unfold CopyZeroAlloc. destruct out as [|x out]; simpl fst; simpl snd; cbv iota.
  - eexists. split; [reflexivity|]. apply extended_refl. reflexivity.
  - exists (appended growslice (W_byteSliceWriter w heap) (x :: out)). split.
    + unfold appended. simpl Writer_Write. unfold byteSliceWriter_Write.
      destruct (go_append growslice heap (b w) (x :: out)). simpl.
      rewrite Z.ltb_irrefl. reflexivity.
    + change (x :: out) with ([] ++ x :: out) at 2.
      apply extended_appended, extended_refl. reflexivity.
Qed.

Lemma stored_copy_bytes_Buffer buf out rerr :
  CopyZeroAlloc (W_bytes_Buffer buf) (out, rerr) =
    (W_bytes_Buffer (buf ++ out), (len out, rerr)).
Proof.
  unfold CopyZeroAlloc. destruct out as [|x out]; simpl fst; simpl snd; cbv iota.
  - rewrite app_nil_r. reflexivity.
  - simpl Writer_Write. cbv iota. rewrite Z.ltb_irrefl. reflexivity.
Qed.

End StoredZlibFacts.

(** *** The engine on the small codec *)

Lemma deflate_inflate_round_trip_witness :
  len hello < 2 ^ (int_bits Arch64 - 1) /\
  exists heap1 out st1 heap2 back st2,
    StoredZlib.AppendDeflateBytesLevel [] nil_slice hello 5 initPools =
      Some (((heap1, out), None), st1) /\
    StoredZlib.AppendInflateBytes heap1 nil_slice (slice_bytes heap1 out) st1 =
      Some (((heap2, back), None), st2) /\
    slice_bytes heap2 back = hello.
Proof.
  assert (H : len hello < 2 ^ (int_bits Arch64 - 1)) by (vm_compute; reflexivity).
  split; [exact H|].
  exact (deflate_inflate_round_trip Arch64 StoredZlib.growslice
           StoredZlib.zlib_write_out StoredZlib.zlib_close_out
           StoredZlib.zlib_read_header StoredZlib.zlib_read_all
           StoredZlib.CopyZeroAlloc
           StoredZlibFacts.stored_copy_byteSliceWriter
           (fun level p _ => StoredZlibFacts.stored_roundtrip level p)
           initPools [] hello 5 initPools_wf H).
Defined.

Lemma Append_keeps_dst_witness :
  valid_slice XYZ_store XYZ /\
  (exists heap' out st',
     StoredZlib.AppendDeflateBytesLevel XYZ_store XYZ hello 5 initPools =
       Some (((heap', out), None), st')
     /\ slice_bytes heap' out =
          slice_bytes XYZ_store XYZ
            ++ zlib_stream StoredZlib.zlib_write_out StoredZlib.zlib_close_out
                 (real_level Arch64 initPools 5) hello
     /\ valid_level (real_level Arch64 initPools 5)
     /\ slice_bytes heap' XYZ = slice_bytes XYZ_store XYZ
     /\ (forall i, (i < length XYZ_store)%nat -> sl_ptr XYZ <> Some i ->
         heap' !! i = XYZ_store !! i)) /\
  (exists heap' out err st',
     StoredZlib.AppendInflateBytes XYZ_store XYZ hello initPools =
       Some (((heap', out), err), st')
     /\ slice_bytes heap' out =
          slice_bytes XYZ_store XYZ
            ++ inflated StoredZlib.zlib_read_header StoredZlib.zlib_read_all hello
     /\ slice_bytes heap' XYZ = slice_bytes XYZ_store XYZ
     /\ (forall i, (i < length XYZ_store)%nat -> sl_ptr XYZ <> Some i ->
         heap' !! i = XYZ_store !! i)).
Proof.
  assert (H : valid_slice XYZ_store XYZ) by (vm_compute; lia).
  split; [exact H|].
  exact (Append_keeps_dst Arch64 StoredZlib.growslice
           StoredZlib.zlib_write_out StoredZlib.zlib_close_out
           StoredZlib.zlib_read_header StoredZlib.zlib_read_all
           StoredZlib.CopyZeroAlloc
           StoredZlibFacts.stored_copy_byteSliceWriter
           initPools XYZ_store XYZ hello 5 initPools_wf H).
Defined.

(** The example of the append property: "XYZ" in an array with room for
    more; the stream for "hello" at level 5 is written in place after it,
    and the result starts with "XYZ". *)
Example CompressToBuffer_XYZ_hello :
  exists heap' out st',
    StoredZlib.AppendDeflateBytesLevel XYZ_store XYZ hello 5 initPools =
      Some (((heap', out), None), st') /\
    sl_ptr out = sl_ptr XYZ /\
    slice_bytes heap' out =
      ["X"; "Y"; "Z"]%byte
        ++ StoredZlib.bytes_of
             [120; 94; 0; 5; 0; 250; 255; 104; 101; 108; 108; 111;
              1; 0; 0; 255; 255; 6; 44; 2; 21] /\
    slice_bytes heap' XYZ = ["X"; "Y"; "Z"]%byte.
Proof.
  do 3 eexists. split; [vm_compute; reflexivity|].
  split; [reflexivity|]. split; reflexivity.
Qed.

Lemma AppendDeflateBytesLevel_nil_error_witness :
  (forall w, takes_inline_path w = true ->
     exists w' st',
       StoredZlib.WriteDeflateLevel w hello 100 initPools =
         Some ((w', (len hello, None)), st')) /\
  (exists out st',
     StoredZlib.AppendDeflateBytesLevel [] nil_slice hello 100 initPools =
       Some ((out, None), st')).
Proof.
  exact (AppendDeflateBytesLevel_nil_error Arch64 StoredZlib.growslice
           StoredZlib.zlib_write_out StoredZlib.zlib_close_out
           initPools [] nil_slice hello 100 initPools_wf).
Defined.

Lemma inflate_of_empty_payload_witness :
  (exists st',
     acquireFlateReader StoredZlib.zlib_read_header {| r_b := [] |} initPools =
       Some (Err ErrUnexpectedEOF, st')) /\
  (exists st',
     StoredZlib.WriteInflate (W_bytes_Buffer hello) [] initPools =
       Some ((W_bytes_Buffer hello, (0, Some ErrUnexpectedEOF)), st')) /\
  (exists st',
     StoredZlib.AppendInflateBytes XYZ_store XYZ [] initPools =
       Some (((XYZ_store, XYZ), Some ErrUnexpectedEOF), st')).
Proof.
  exact (inflate_of_empty_payload Arch64
           StoredZlib.zlib_read_header StoredZlib.zlib_read_all
           StoredZlib.CopyZeroAlloc StoredZlibFacts.stored_header_of_nothing
           initPools (W_bytes_Buffer hello) XYZ_store XYZ).
Defined.

(** C2 as stated fails: with no idle reader in the pool, decompressing the
    empty payload onto "XYZ" sets up a reader, which fails, and the error
    comes back with [dst]. *)
Lemma inflate_of_empty_payload_counterexample :
  acquireFlateReader StoredZlib.zlib_read_header {| r_b := [] |} initPools =
    Some (Err ErrUnexpectedEOF, initPools) /\
  StoredZlib.AppendInflateBytes XYZ_store XYZ [] initPools =
    Some (((XYZ_store, XYZ), Some ErrUnexpectedEOF), initPools) /\
  ~ (exists out st', StoredZlib.AppendInflateBytes XYZ_store XYZ [] initPools =
                       Some ((out, None), st')).
Proof.
  split; [reflexivity|]. split; [reflexivity|].
  intros (out & st' & H). vm_compute in H. discriminate H.
Qed.

Lemma WriteDeflateLevel_count_and_error_witness :
  exists w' st',
    StoredZlib.WriteDeflateLevel (W_other refusingWriter) hello 5 initPools =
      Some ((w', (len hello, Some (ErrDestination 0))), st').
Proof.
  destruct (WriteDeflateLevel_count_and_error Arch64 StoredZlib.growslice
              StoredZlib.zlib_write_out StoredZlib.zlib_close_out
              initPools (W_other refusingWriter) hello 5 initPools_wf)
    as (w' & err & st' & H & _ & He).
  exists w', st'.
  rewrite <- (He (ErrDestination 0) eq_refl eq_refl). exact H.
Defined.

(** C7 as stated fails: the destination accepts the header and refuses the
    bytes of the closing release; [WriteDeflateLevel] returns [(5, nil)]
    although the destination reported an error and holds the two header
    bytes only. *)
Lemma WriteDeflateLevel_close_error_counterexample :
  exists s' st',
    StoredZlib.WriteDeflateLevel (W_other brokenAfterFirstWrite) hello 5 initPools =
      Some ((W_other s', (5, None)), st') /\
    sink_errs s' = [ErrDestination 1] /\
    sink_calls s' = 2%nat /\
    sink_data s' = StoredZlib.bytes_of [120; 94].
Proof.
  do 2 eexists. split; [vm_compute; reflexivity|].
  split; [reflexivity|]. split; reflexivity.
Qed.

(** C6, on the input that breaks it. On fresh pools a first request at the
    out-of-range level 100 goes to [defaultByteWriter] through the stackless
    path and leaves a stackless writer of level 9 in the pool of index 8.
    From then on a request for level 6 is compressed at level 6 on the
    inline path and at level 9 on the stackless path: the two destinations
    receive different bytes for the same payload and level. *)
Theorem dispatch_paths_differ_after_out_of_range_level :
  exists w1 st1 wi st2 s' st3,
    StoredZlib.WriteDeflateLevel (W_other defaultByteWriter) ["a"]%byte 100 initPools =
      Some ((w1, (1, None)), st1) /\
    StoredZlib.WriteDeflateLevel (W_bytes_Buffer []) hello 6 st1 =
      Some ((wi, (5, None)), st2) /\
    Writer_bytes wi = StoredZlib.bytes_of
                        [120; 156; 0; 5; 0; 250; 255; 104; 101; 108; 108; 111;
                         1; 0; 0; 255; 255; 6; 44; 2; 21] /\
    StoredZlib.WriteDeflateLevel (W_other defaultByteWriter) hello 6 st1 =
      Some ((W_other s', (5, None)), st3) /\
    sink_errs s' = [] /\
    sink_data s' = StoredZlib.bytes_of
                     [120; 218; 0; 5; 0; 250; 255; 104; 101; 108; 108; 111;
                      1; 0; 0; 255; 255; 6; 44; 2; 21] /\
    Writer_bytes wi <> sink_data s'.
Proof.
  do 6 eexists. split; [vm_compute; reflexivity|].
  split; [vm_compute; reflexivity|].
  split; [reflexivity|].
  split; [vm_compute; reflexivity|].
  split; [reflexivity|]. split; [reflexivity|].
  vm_compute. discriminate.
Qed.

Lemma len_zeros_2GiB : len zeros_2GiB = 2147483648.
Proof.
  unfold zeros_2GiB, len. rewrite length_cons, repeat_length.
  rewrite Nat2Z.inj_succ, Z2Nat.id by lia. reflexivity.
Qed.

Lemma WriteInflate_size_overflow_witness :
  to_int64 (to_int Arch32 2147483648) <> 2147483648 /\
  exists st',
    WriteInflate Arch32 StoredZlib.zlib_read_header StoredZlib.zlib_read_all
        StoredZlib.CopyZeroAlloc (W_bytes_Buffer [])
        (zlib_stream StoredZlib.zlib_write_out StoredZlib.zlib_close_out 6 zeros_2GiB)
        initPools =
      Some ((W_bytes_Buffer ([] ++ zeros_2GiB),
             (0, Some (ErrTooMuchData 2147483648))), st').
Proof.
  assert (H : to_int64 (to_int Arch32 2147483648) <> 2147483648)
    by (vm_compute; discriminate).
  split; [exact H|].
  destruct (StoredZlibFacts.stored_roundtrip 6 zeros_2GiB) as (Hh & Ha).
  apply (WriteInflate_size_overflow Arch32
           StoredZlib.zlib_read_header StoredZlib.zlib_read_all
           StoredZlib.CopyZeroAlloc initPools
           (W_bytes_Buffer [])
           (zlib_stream StoredZlib.zlib_write_out StoredZlib.zlib_close_out 6 zeros_2GiB)
           (W_bytes_Buffer ([] ++ zeros_2GiB)) 2147483648 None).
  - exact Hh.
  - rewrite Ha, <- len_zeros_2GiB. apply StoredZlibFacts.stored_copy_bytes_Buffer.
  - exact H.
Defined.

(** The third case of [TestCompressAppendInflateBytes]: the stream of no
    data, as Go writes it, appended to "!!!". *)
Example TestCompressAppendInflateBytes_3 :
  exists heap' out st',
    StoredZlib.AppendInflateBytes [["!"; "!"; "!"]%byte] {| sl_ptr := Some 0%nat; sl_len := 3 |}
        (StoredZlib.bytes_of [120; 156; 1; 0; 0; 255; 255; 0; 0; 0; 1]) initPools =
      Some (((heap', out), None), st') /\
    slice_bytes heap' out = ["!"; "!"; "!"]%byte.
Proof. do 3 eexists. split; [vm_compute; reflexivity|reflexivity]. Qed.

(** *** Sources read in pieces *)

(** X7. Read to its end through buffers of any size but zero, a
    [byteSliceReader] gives the bytes of its slice in order and then
    [io.EOF]. Given a buffer of no cell while bytes are left, [Read] returns
    [(0, nil)] and the reader stays where it is. *)
Theorem byteSliceReader_Read_in_pieces (plen fuel : nat) (r : byteSliceReader) :
  (0 < plen)%nat ->
  (length (r_b r) < fuel)%nat ->
  byteSliceReader_drain fuel plen r = (r_b r, Some EOF) /\
  (r_b r <> [] -> byteSliceReader_Read r 0 = (r, [], (0, None))).
Proof.
  intros Hp Hf. split; [apply byteSliceReader_drain_all; assumption|].
  intros Hne. unfold byteSliceReader_Read. destruct r as [data]. simpl in *.
  destruct data as [|x data]; [contradiction|]. reflexivity.
Qed.

(** ** The middleware *)

(** *** The exclusion lists *)

Lemma NewExcludedExtensions_loop_lookup extensions (res : ExcludedExtensions) target :
  is_Some (foldl (fun (res : ExcludedExtensions) e => <[e := true]> res) res extensions
             !! target)
  <-> target ∈ extensions \/ is_Some (res !! target).
Proof.
  unfold ExcludedExtensions in *.
  revert res. induction extensions as [|e extensions IH]; intros res; simpl.
  - split; [auto|]. intros [H|H]; [inversion H|exact H].
  - rewrite IH, lookup_insert_is_Some, elem_of_cons.
    destruct (decide (e = target)) as [->|Hne]; [tauto|].
    assert (Hne' : target <> e) by congruence. tauto.
Qed.

Lemma ExcludedExtensions_Contains_New extensions target :
  ExcludedExtensions_Contains (NewExcludedExtensions extensions) target = true
  <-> target ∈ extensions.
Proof.
  unfold ExcludedExtensions_Contains, NewExcludedExtensions.
  pose proof (NewExcludedExtensions_loop_lookup extensions ∅ target) as H.
  unfold ExcludedExtensions in *. rewrite lookup_empty in H.
  destruct (foldl _ _ _ !! target) as [v|].
  - split; [|reflexivity]. intros _.
    destruct (proj1 H (ex_intro _ v eq_refl)) as [Hin|[? Hn]];
      [exact Hin|discriminate].
  - split; [discriminate|]. intros Hin.
    destruct (proj2 H (or_introl Hin)) as [? Hs]. discriminate.
Qed.

(** X8. An extension is excluded by the set that [NewExcludedExtensions]
    builds exactly when it is one of the strings given, compared byte for
    byte. [Contains] looks at the key only: a key mapped to [false] is
    excluded too. *)
Theorem ExcludedExtensions_Contains_spec
    (extensions : list string) (e : ExcludedExtensions) (target : string) (v : bool) :
  (ExcludedExtensions_Contains (NewExcludedExtensions extensions) target = true
   <-> target ∈ extensions) /\
  ExcludedExtensions_Contains (<[target := v]> e) target = true.
Proof.
  split; [apply ExcludedExtensions_Contains_New|].
  unfold ExcludedExtensions_Contains, ExcludedExtensions in *.
  rewrite lookup_insert_eq. reflexivity.
Qed.

Lemma prefix_app (p s : string) :
  String.prefix p s = true <-> exists rest, s = p +:+ rest.
Proof.
  revert s. induction p as [|a p IH]; intros s.
  - split; [eauto|]. intros _. destruct s; reflexivity.
  - destruct s as [|c s]; simpl.
    + split; [discriminate|]. intros (rest & H). discriminate.
    + destruct (Ascii.ascii_dec a c) as [->|Hne].
      * rewrite IH. split; intros (rest & H); exists rest.
        -- rewrite H. reflexivity.
        -- change (String c s = String c (p +:+ rest)) in H. congruence.
      * split; [discriminate|]. intros (rest & H).
        change (String c s = String a (p +:+ rest)) in H. congruence.
Qed.

Lemma ExcludedPaths_Contains_prefix (paths : ExcludedPaths) uri :
  ExcludedPaths_Contains paths uri = true
  <-> exists path rest, path ∈ paths /\ uri = path +:+ rest.
Proof.
  induction paths as [|path paths IH]; simpl.
  - split; [discriminate|]. intros (p & rest & H & _). inversion H.
  - unfold strings_HasPrefix. destruct (String.prefix path uri) eqn:E.
    + split; [|reflexivity]. intros _.
      apply prefix_app in E as (rest & E). exists path, rest.
      split; [apply list_elem_of_here|exact E].
    + rewrite IH. split.
      * intros (p & rest & Hin & H). exists p, rest.
        split; [apply list_elem_of_further, Hin|exact H].
      * intros (p & rest & Hin & H). apply elem_of_cons in Hin as [->|Hin].
        -- assert (Ep : String.prefix path uri = true) by (apply prefix_app; eauto).
           congruence.
        -- eauto.
Qed.

(** X9. A request URI is excluded by a list of paths exactly when one
    of the listed paths is a prefix of it: a listed path excludes every URI
    that continues it, and the empty path excludes every URI. *)
Theorem ExcludedPaths_Contains_spec (paths : list string) (uri : string) :
  (ExcludedPaths_Contains (NewExcludedPaths paths) uri = true
   <-> exists path rest, path ∈ paths /\ uri = path +:+ rest) /\
  (EmptyString ∈ paths -> ExcludedPaths_Contains (NewExcludedPaths paths) uri = true).
Proof.
  split; [apply ExcludedPaths_Contains_prefix|].
  intros Hin. apply ExcludedPaths_Contains_prefix.
  exists EmptyString, uri. split; [exact Hin|reflexivity].
Qed.

Section ExclusionFacts.
Context {GL : GoLibrary} {HH : HertzHeaders}.

Lemma ExcludedPathRegexes_Contains_exists (e : ExcludedPathRegexes) uri :
  ExcludedPathRegexes_Contains e uri = true
  <-> exists re, re ∈ e /\ Regexp_MatchString re uri = true.
Proof.
  induction e as [|reg e IH]; simpl.
  - split; [discriminate|]. intros (re & H & _). inversion H.
  - destruct (Regexp_MatchString reg uri) eqn:E.
    + split; [|reflexivity]. intros _. exists reg.
      split; [apply list_elem_of_here|exact E].
    + rewrite IH. split.
      * intros (re & Hin & H). exists re.
        split; [apply list_elem_of_further, Hin|exact H].
      * intros (re & Hin & H). apply elem_of_cons in Hin as [->|Hin];
          [congruence|eauto].
Qed.

(** X10. [NewExcludedPathRegexes] panics exactly when one of the
    patterns does not compile, whatever the others are. When all compile it
    returns as many expressions as there are patterns, and a request URI
    is excluded exactly when the expression of one of the patterns matches
    it. *)
Theorem NewExcludedPathRegexes_spec (regexes : list string) :
  (NewExcludedPathRegexes regexes = None
   <-> exists reg, reg ∈ regexes /\ regexp_Compile reg = None) /\
  (forall e,
     NewExcludedPathRegexes regexes = Some e ->
     length e = length regexes /\
     forall uri,
       ExcludedPathRegexes_Contains e uri = true
       <-> exists reg re,
             reg ∈ regexes /\ regexp_Compile reg = Some re /\
             Regexp_MatchString re uri = true).
Proof.
  unfold NewExcludedPathRegexes, ExcludedPathRegexes. split.
  - rewrite mapM_None, Exists_exists. reflexivity.
  - intros e He. split; [symmetry; eapply length_mapM; exact He|].
    intros uri. rewrite ExcludedPathRegexes_Contains_exists.
    apply mapM_Some in He.
    induction He as [|reg re regexes e Hc _ IH].
    + split; [intros (re & H & _); inversion H|intros (reg & re & H & _); inversion H].
    + split.
      * intros (re' & Hin & Hm). apply elem_of_cons in Hin as [->|Hin].
        -- exists reg, re. split; [apply list_elem_of_here|]. split; assumption.
        -- destruct (proj1 IH (ex_intro _ re' (conj Hin Hm))) as (reg' & re'' & H1 & H2 & H3).
           exists reg', re''. split; [apply list_elem_of_further, H1|]. split; assumption.
      * intros (reg' & re' & Hin & Hc' & Hm). apply elem_of_cons in Hin as [->|Hin].
        -- exists re. split; [apply list_elem_of_here|]. congruence.
        -- destruct (proj2 IH (ex_intro _ reg' (ex_intro _ re' (conj Hin (conj Hc' Hm)))))
             as (re'' & H1 & H2).
           exists re''. split; [apply list_elem_of_further, H1|exact H2].
Qed.

(** [filepath.Ext] of a path that ends in a dot followed by bytes that are
    neither dots nor separators. *)
Lemma filepath_Ext_loop_plain (r rest acc : list ascii) :
  Forall (fun c => os_IsPathSeparator c = false /\ Ascii.eqb c "."%char = false) r ->
  filepath_Ext_loop (r ++ "."%char :: rest) acc =
    String.string_of_list_ascii ("."%char :: rev r ++ acc).
Proof.
  revert acc. induction r as [|c r IH]; intros acc Hr; simpl.
  - reflexivity.
  - inversion Hr as [|? ? [Hs Hd] Hr']; subst. rewrite Hs, Hd, IH by assumption.
    rewrite <- app_assoc. reflexivity.
Qed.

Lemma list_ascii_of_string_app (s t : string) :
  String.list_ascii_of_string (s +:+ t) =
    String.list_ascii_of_string s ++ String.list_ascii_of_string t.
Proof.
  induction s as [|a s IH]; [reflexivity|].
  change (String a s +:+ t) with (String a (s +:+ t)). simpl. rewrite IH. reflexivity.
Qed.

Lemma filepath_Ext_suffix (base name : string) :
  Forall (fun c => os_IsPathSeparator c = false /\ Ascii.eqb c "."%char = false)
         (String.list_ascii_of_string name) ->
  filepath_Ext (base +:+ String "."%char name) = String "."%char name.
Proof.
  intros H. unfold filepath_Ext.
  rewrite list_ascii_of_string_app. simpl String.list_ascii_of_string.
  rewrite rev_app_distr. simpl rev. rewrite <- app_assoc. simpl app.
  rewrite filepath_Ext_loop_plain.
  - rewrite rev_involutive, app_nil_r.
    change ("."%char :: String.list_ascii_of_string name)
      with (String.list_ascii_of_string (String "."%char name)).
    apply String.string_of_list_ascii_of_string.
  - apply Forall_forall. intros c Hc.
    apply list_elem_of_In, in_rev, list_elem_of_In in Hc.
    rewrite Forall_forall in H. apply H. exact Hc.
Qed.

Lemma image_extension (base ext : string) :
  ext ∈ [".png"; ".gif"; ".jpeg"; ".jpg"] ->
  filepath_Ext (base +:+ ext) = ext /\
  ExcludedExtensions_Contains DefaultExcludedExtensions ext = true.
Proof.
  intros Hin. split.
  - repeat (apply elem_of_cons in Hin as [->|Hin];
            [apply filepath_Ext_suffix; repeat constructor|]).
    inversion Hin.
  - apply ExcludedExtensions_Contains_New. exact Hin.
Qed.

(** X11. With the options the package starts with, a request whose URI
    ends in [.png], [.gif], [.jpeg] or [.jpg] is compressed neither by the
    server middleware nor by the client middleware, whatever its headers
    say. *)
Theorem default_options_leave_images_alone (req : Request) (base ext : string) :
  ext ∈ [".png"; ".gif"; ".jpeg"; ".jpg"] ->
  req_RequestURI req = base +:+ ext ->
  (exists o,
     Options_heap initPackage !! DefaultOptions initPackage = Some o /\
     srv_shouldCompress o req = false) /\
  (exists o,
     ClientOptions_heap initPackage !! DefaultClientOptions initPackage = Some o /\
     cli_shouldCompress o req = false).
Proof.
  intros Hin Huri.
  destruct (image_extension base ext Hin) as (He & Hc).
  split; eexists; (split; [reflexivity|]).
  - unfold srv_shouldCompress. rewrite Huri, He. simpl opt_ExcludedExtensions.
    rewrite Hc. destruct (_ || _); reflexivity.
  - unfold cli_shouldCompress. rewrite Huri, He. simpl copt_ExcludedExtensions.
    rewrite Hc. destruct (_ || _); reflexivity.
Qed.

(** *** Options are shared *)

Lemma newDeflateSrvMiddleware_pointer level opts pk d pk' :
  newDeflateSrvMiddleware level opts pk = Some (d, pk') ->
  srv_Options d = DefaultOptions pk /\ DefaultOptions pk' = DefaultOptions pk /\
  srv_level d = level.
Proof.
  unfold newDeflateSrvMiddleware. simpl.
  destruct (apply_Options _ _ _); [|discriminate].
  intros H. inversion H; subst. simpl. auto.
Qed.

(** X12. Every server middleware keeps the address of the one [Options]
    object that [DefaultOptions] points to, and an option writes through
    that address. So the paths given with [WithExcludedPaths] when one
    middleware is built are the excluded paths of every middleware: of one
    built before, of the one being built, and of one built afterwards with
    no option at all; each of them leaves a request under one of these
    paths uncompressed. *)
Theorem options_are_shared
    (level0 level1 level2 : Z) (opts0 : list Option) (paths : list string)
    (pk0 pk : Package) (d0 : deflateSrvMiddleware) (o0 : Options) :
  newDeflateSrvMiddleware level0 opts0 pk0 = Some (d0, pk) ->
  Options_heap pk !! DefaultOptions pk = Some o0 ->
  exists d1 pk1 d2 o,
    newDeflateSrvMiddleware level1 [WithExcludedPaths paths] pk = Some (d1, pk1) /\
    newDeflateSrvMiddleware level2 [] pk1 = Some (d2, pk1) /\
    Options_heap pk1 !! srv_Options d0 = Some o /\
    Options_heap pk1 !! srv_Options d1 = Some o /\
    Options_heap pk1 !! srv_Options d2 = Some o /\
    opt_ExcludedPaths o = paths /\
    forall (req : Request) path rest,
      path ∈ paths -> req_RequestURI req = path +:+ rest ->
      srv_shouldCompress o req = false.
Proof.
  intros H0 Ho.
  destruct (newDeflateSrvMiddleware_pointer _ _ _ _ _ H0) as (P0 & Q0 & _).
  assert (Hlt : (DefaultOptions pk < length (Options_heap pk))%nat)
    by (eapply lookup_lt_Some; exact Ho).
  eexists _, _, _, _.
  split.
  { unfold newDeflateSrvMiddleware, apply_Options, WithExcludedPaths, Options_store.
    simpl. rewrite Ho. reflexivity. }
  split; [reflexivity|]. simpl.
  rewrite P0, <- Q0.
  split; [apply list_lookup_insert_eq; exact Hlt|].
  split; [apply list_lookup_insert_eq; exact Hlt|].
  split; [apply list_lookup_insert_eq; exact Hlt|].
  split; [reflexivity|].
  intros req path rest Hin Huri. unfold srv_shouldCompress.
  assert (Hc : ExcludedPaths_Contains (NewExcludedPaths paths) (req_RequestURI req) = true)
    by (apply ExcludedPaths_Contains_prefix; eauto).
  simpl opt_ExcludedPaths. rewrite Hc.
  destruct (_ || _); [reflexivity|].
  destruct (ExcludedExtensions_Contains _ _); reflexivity.
Qed.
(** X13. An option writes its list in place of the one that was there:
    after [Deflate(level, WithExcludedExtensions(extensions))] at start-up,
    the excluded extensions are the ones given and no other, the four image
    extensions of the defaults included. A request is then compressed as
    soon as it accepts deflate (or anything, with [*]), is neither an
    upgrade nor an event stream, and the extension of its URI is not one of
    those given. *)
Theorem WithExcludedExtensions_replaces_the_defaults
    (level : Z) (extensions : list string) (req : Request) :
  exists d pk1 o,
    newDeflateSrvMiddleware level [WithExcludedExtensions extensions] initPackage =
      Some (d, pk1) /\
    Options_heap pk1 !! srv_Options d = Some o /\
    (forall target,
       ExcludedExtensions_Contains (opt_ExcludedExtensions o) target = true
       <-> target ∈ extensions) /\
    (strings_Contains (RequestHeader_Get (req_Header req) "Accept-Encoding") "deflate" = true
     \/ String.eqb (strings_TrimSpace
                      (RequestHeader_Get (req_Header req) "Accept-Encoding")) "*" = true ->
     strings_Contains (RequestHeader_Get (req_Header req) "Connection") "Upgrade" = false ->
     strings_Contains (RequestHeader_Get (req_Header req) "Accept") "text/event-stream"
       = false ->
     filepath_Ext (req_RequestURI req) ∉ extensions ->
     srv_shouldCompress o req = true).
Proof.
  eexists _, _, _. split; [reflexivity|]. split; [reflexivity|].
  cbn [opt_ExcludedExtensions].
  split; [intros target; apply ExcludedExtensions_Contains_New|].
  intros Hacc Hup Hev Hext. unfold srv_shouldCompress.
  cbn [opt_ExcludedExtensions opt_ExcludedPaths opt_ExcludedPathRegexes].
  assert (Ea : strings_Contains (RequestHeader_Get (req_Header req) "Accept-Encoding")
                 "deflate"
               || String.eqb (strings_TrimSpace
                                (RequestHeader_Get (req_Header req) "Accept-Encoding")) "*"
               = true)
    by (destruct Hacc as [->| ->]; [reflexivity|apply orb_true_r]).
  rewrite Ea, Hup, Hev. simpl.
  destruct (ExcludedExtensions_Contains (NewExcludedExtensions extensions)
              (filepath_Ext (req_RequestURI req))) eqn:Ec; [|reflexivity].
  apply ExcludedExtensions_Contains_New in Ec. contradiction.
Qed.
End ExclusionFacts.

(** *** Handlers and endpoints *)

Section MiddlewareProperties.
Context {GL : GoLibrary} {HH : HertzHeaders}.
Variable arch : Arch.
Variable growslice : nat -> nat -> nat.
Variable zlib_write_out zlib_close_out : Z -> bytes -> bytes.
Variable zlib_read_header : bytes -> option error.
Variable zlib_read_all : bytes -> bytes * option error.
Variable CopyZeroAlloc :
  Writer -> bytes * option error -> Writer * (Z * option error).

(** The contracts of the libraries, as in the section on the engine. *)
Hypothesis CopyZeroAlloc_byteSliceWriter :
  forall (w : byteSliceWriter) (heap : Store) (out : bytes) (rerr : option error),
  exists w',
    CopyZeroAlloc (W_byteSliceWriter w heap) (out, rerr) = (w', (len out, rerr)) /\
    extended (W_byteSliceWriter w heap) w' out.

Hypothesis zlib_roundtrip :
  forall (level : Z) (p : bytes),
    valid_level level ->
    zlib_read_header (zlib_stream zlib_write_out zlib_close_out level p) = None /\
    zlib_read_all (zlib_stream zlib_write_out zlib_close_out level p) = (p, None).

Hypothesis zlib_header_of_nothing : zlib_read_header [] = Some ErrUnexpectedEOF.

Local Abbreviation stream := (zlib_stream zlib_write_out zlib_close_out).
Local Abbreviation deflate_nil :=
  (compress_AppendDeflateBytesLevel_nil arch growslice zlib_write_out zlib_close_out).
Local Abbreviation inflate_nil :=
  (compress_AppendInflateBytes_nil arch zlib_read_header zlib_read_all CopyZeroAlloc).

Lemma len_pos_iff {A} (l : list A) : (len l >? 0) = negb (len l <=? 0).
Proof.
  destruct (Z.gtb_spec (len l) 0), (Z.leb_spec (len l) 0); simpl; try reflexivity; lia.
Qed.

Lemma len_nil_iff {A} (l : list A) : (len l <=? 0) = true <-> l = [].
Proof.
  unfold len. destruct l as [|x l]; [split; reflexivity|].
  split; [|discriminate]. intros H. apply Z.leb_le in H. simpl length in H. lia.
Qed.

(** A stream is never empty: it starts with a header. *)
Lemma stream_not_nil lv p : valid_level lv -> stream lv p <> [].
Proof.
  intros Hv E. destruct (zlib_roundtrip lv p Hv) as (Hh & _).
  rewrite E, zlib_header_of_nothing in Hh. discriminate.
Qed.

Lemma deflate_nil_spec st src level :
  pools_wf st ->
  exists st',
    deflate_nil src level st = Some ((stream (real_level arch st level) src, None), st') /\
    valid_level (real_level arch st level) /\ pools_wf st'.
Proof.
  intros Hwf.
  destruct (AppendDeflateBytesLevel_spec arch growslice zlib_write_out zlib_close_out
              st [] nil_slice src level Hwf) as (heap' & out & st' & H & Hb & _ & Hv & Hwf').
  exists st'. split; [|split; assumption].
  unfold compress_AppendDeflateBytesLevel_nil. erewrite bind_Some by exact H.
  simpl. rewrite Hb. reflexivity.
Qed.

Lemma inflate_nil_refused st src e :
  zlib_read_header src = Some e ->
  exists st', inflate_nil src st = Some (([], Some e), st').
Proof.
  intros Hh. unfold compress_AppendInflateBytes_nil, AppendInflateBytes.
  erewrite bind_Some
    by (erewrite bind_Some by (apply WriteInflate_header_error; exact Hh); reflexivity).
  simpl. eauto.
Qed.

Lemma inflate_nil_sound st lv p :
  valid_level lv -> len p < 2 ^ (int_bits arch - 1) ->
  exists st', inflate_nil (stream lv p) st = Some ((p, None), st').
Proof.
  intros Hv Hlen.
  destruct (zlib_roundtrip lv p Hv) as (Hh & Ha).
  destruct (AppendInflateBytes_spec arch zlib_read_header zlib_read_all CopyZeroAlloc
              CopyZeroAlloc_byteSliceWriter st [] nil_slice (stream lv p))
    as (heap2 & back & err & st2 & HI & Hb2 & _ & Herr).
  unfold inflated in Hb2. rewrite Hh, Ha in Hb2.
  change (slice_bytes [] nil_slice) with (@nil byte) in Hb2. simpl in Hb2.
  rewrite Herr in HI; [|exact Hh|rewrite Ha; reflexivity|rewrite Ha; exact Hlen].
  exists st2. unfold compress_AppendInflateBytes_nil. erewrite bind_Some by exact HI.
  simpl. rewrite Hb2. reflexivity.
Qed.

Lemma DefaultDecompressHandle_sound (c : RequestContext) (st : Pools) lv data :
  Request_Body (ctx_Request c) <> [] ->
  Request_Body (ctx_Request c) = stream lv data ->
  valid_level lv -> len data < 2 ^ (int_bits arch - 1) ->
  exists st',
    DefaultDecompressHandle arch zlib_read_header zlib_read_all CopyZeroAlloc c st =
      Some ({| ctx_Request :=
                 {| req_Header :=
                      RequestHeader_DelBytes
                        (RequestHeader_DelBytes (req_Header (ctx_Request c))
                           "Content-Encoding")
                        "Content-Length";
                    req_RequestURI := req_RequestURI (ctx_Request c);
                    req_body := body_bytes data |};
               ctx_Response := ctx_Response c;
               ctx_aborted := ctx_aborted c;
               ctx_Errors := ctx_Errors c |}, st').
Proof.
  intros Hne Hb Hv Hlen. unfold DefaultDecompressHandle.
  destruct (len (Request_Body (ctx_Request c)) <=? 0) eqn:E;
    [apply len_nil_iff in E; contradiction|].
  rewrite Hb.
  destruct (inflate_nil_sound st lv data Hv Hlen) as (st' & HI).
  erewrite bind_Some by exact HI. eauto.
Qed.

Lemma DefaultDecompressMiddlewareForClient_sound
    (next : Endpoint) (req : Request) (resp : Response) (st : Pools) lv data :
  Response_Body resp <> [] ->
  Response_Body resp = stream lv data ->
  valid_level lv -> len data < 2 ^ (int_bits arch - 1) ->
  exists st',
    DefaultDecompressMiddlewareForClient arch zlib_read_header zlib_read_all CopyZeroAlloc
        next req resp st =
      Some ((req,
             {| resp_Header :=
                  ResponseHeader_DelBytes
                    (ResponseHeader_DelBytes
                       (ResponseHeader_DelBytes (resp_Header resp) "Content-Encoding")
                       "Content-Length")
                    "Vary";
                resp_StatusCode := resp_StatusCode resp;
                resp_body := body_stream data (len data) |},
             None), st').
Proof.
  intros Hne Hb Hv Hlen. unfold DefaultDecompressMiddlewareForClient.
  destruct (len (Response_Body resp) <=? 0) eqn:E;
    [apply len_nil_iff in E; contradiction|].
  rewrite Hb.
  destruct (inflate_nil_sound st lv data Hv Hlen) as (st' & HI).
  erewrite bind_Some by exact HI. eauto.
Qed.

(** X14. [DefaultDecompressHandle]. A request with an empty body is left
    as it is, and no reader is taken from the pool. A body whose header the
    codec refuses aborts the request with status 400 and the error of the
    codec, body and headers staying as they were. A body that is the stream
    of some data is replaced by that data, and the headers
    [Content-Encoding] and [Content-Length] are deleted; nothing else of
    the context changes. *)
Theorem DefaultDecompressHandle_cases (c : RequestContext) (st : Pools) :
  (Request_Body (ctx_Request c) = [] ->
   DefaultDecompressHandle arch zlib_read_header zlib_read_all CopyZeroAlloc c st =
     Some (c, st)) /\
  (forall e,
     Request_Body (ctx_Request c) <> [] ->
     zlib_read_header (Request_Body (ctx_Request c)) = Some e ->
     exists st',
       DefaultDecompressHandle arch zlib_read_header zlib_read_all CopyZeroAlloc c st =
         Some (ctx_AbortWithError c http_StatusBadRequest e, st')) /\
  (forall lv data,
     Request_Body (ctx_Request c) <> [] ->
     Request_Body (ctx_Request c) = stream lv data ->
     valid_level lv -> len data < 2 ^ (int_bits arch - 1) ->
     exists st',
       DefaultDecompressHandle arch zlib_read_header zlib_read_all CopyZeroAlloc c st =
         Some ({| ctx_Request :=
                    {| req_Header :=
                         RequestHeader_DelBytes
                           (RequestHeader_DelBytes (req_Header (ctx_Request c))
                              "Content-Encoding")
                           "Content-Length";
                       req_RequestURI := req_RequestURI (ctx_Request c);
                       req_body := body_bytes data |};
                  ctx_Response := ctx_Response c;
                  ctx_aborted := ctx_aborted c;
                  ctx_Errors := ctx_Errors c |}, st')).
Proof.
  split; [|split].
  - intros Hb. unfold DefaultDecompressHandle. rewrite Hb. reflexivity.
  - intros e Hne Hh. unfold DefaultDecompressHandle.
    destruct (len (Request_Body (ctx_Request c)) <=? 0) eqn:E;
      [apply len_nil_iff in E; contradiction|].
    destruct (inflate_nil_refused st _ e Hh) as (st' & HI).
    erewrite bind_Some by exact HI. eauto.
  - intros lv data Hne Hb Hv Hlen.
    apply (DefaultDecompressHandle_sound c st lv data); assumption.
Qed.

(** X15. [DefaultDecompressMiddlewareForClient] never calls the
    endpoint it is given. A response with an empty body is left as it is,
    with a nil error. A body whose header the codec refuses is left as it
    is and the error of the codec is returned. A body that is the stream of
    some data is replaced by a stream over that data, of its length, and the
    headers [Content-Encoding], [Content-Length] and [Vary] are deleted. *)
Theorem DefaultDecompressMiddlewareForClient_cases
    (next : Endpoint) (req : Request) (resp : Response) (st : Pools) :
  (Response_Body resp = [] ->
   DefaultDecompressMiddlewareForClient arch zlib_read_header zlib_read_all CopyZeroAlloc
       next req resp st =
     Some ((req, resp, None), st)) /\
  (forall e,
     Response_Body resp <> [] ->
     zlib_read_header (Response_Body resp) = Some e ->
     exists st',
       DefaultDecompressMiddlewareForClient arch zlib_read_header zlib_read_all CopyZeroAlloc
           next req resp st =
         Some ((req, resp, Some e), st')) /\
  (forall lv data,
     Response_Body resp <> [] ->
     Response_Body resp = stream lv data ->
     valid_level lv -> len data < 2 ^ (int_bits arch - 1) ->
     exists st',
       DefaultDecompressMiddlewareForClient arch zlib_read_header zlib_read_all CopyZeroAlloc
           next req resp st =
         Some ((req,
                {| resp_Header :=
                     ResponseHeader_DelBytes
                       (ResponseHeader_DelBytes
                          (ResponseHeader_DelBytes (resp_Header resp) "Content-Encoding")
                          "Content-Length")
                       "Vary";
                   resp_StatusCode := resp_StatusCode resp;
                   resp_body := body_stream data (len data) |},
                None), st')).
Proof.
  split; [|split].
  - intros Hb. unfold DefaultDecompressMiddlewareForClient. rewrite Hb. reflexivity.
  - intros e Hne Hh. unfold DefaultDecompressMiddlewareForClient.
    destruct (len (Response_Body resp) <=? 0) eqn:E;
      [apply len_nil_iff in E; contradiction|].
    destruct (inflate_nil_refused st _ e Hh) as (st' & HI).
    erewrite bind_Some by exact HI. eauto.
  - intros lv data Hne Hb Hv Hlen.
    apply (DefaultDecompressMiddlewareForClient_sound next req resp st lv data);
      assumption.
Qed.

(** *** The server middleware *)

Section Server.
Variable Next : HandlerFunc.

Local Abbreviation SrvMiddleware' :=
  (SrvMiddleware arch growslice zlib_write_out zlib_close_out Next).

Lemma SrvMiddleware_decompress_passes o c st :
  no_decompression o c -> SrvMiddleware_decompress o c st = Some (c, st).
Proof.
  unfold SrvMiddleware_decompress.
  intros [Hd|Hd]; rewrite Hd; [reflexivity|].
  destruct (opt_DecompressFn o); reflexivity.
Qed.

(** After its first statement, [SrvMiddleware] returns at once when
    [shouldCompress] says no. *)
Lemma SrvMiddleware_skip_after heap d o c st c0 st0 :
  heap !! srv_Options d = Some o ->
  SrvMiddleware_decompress o c st = Some (c0, st0) ->
  srv_shouldCompress o (ctx_Request c0) = false ->
  SrvMiddleware' heap d c st = Some (c0, st0).
Proof.
  intros Hh E Hs. unfold SrvMiddleware. rewrite Hh.
  erewrite bind_Some by exact E. rewrite Hs. reflexivity.
Qed.

(** Otherwise the handlers run, the two headers are set and a body that is
    not empty is compressed. *)
Lemma SrvMiddleware_compress_after heap d o c st c0 st0 c1 st1 :
  heap !! srv_Options d = Some o ->
  SrvMiddleware_decompress o c st = Some (c0, st0) ->
  srv_shouldCompress o (ctx_Request c0) = true ->
  Next c0 st0 = Some (c1, st1) ->
  pools_wf st1 ->
  exists lv st2,
    valid_level lv /\
    SrvMiddleware' heap d c st =
      Some ({| ctx_Request := ctx_Request c1;
               ctx_Response :=
                 {| resp_Header :=
                      ResponseHeader_Set
                        (ResponseHeader_Set (resp_Header (ctx_Response c1))
                           "Content-Encoding" "deflate")
                        "Vary" "Accept-Encoding";
                    resp_StatusCode := resp_StatusCode (ctx_Response c1);
                    resp_body :=
                      match Response_Body (ctx_Response c1) with
                      | [] => resp_body (ctx_Response c1)
                      | _ :: _ =>
                          body_stream (stream lv (Response_Body (ctx_Response c1)))
                            (len (stream lv (Response_Body (ctx_Response c1))))
                      end |};
               ctx_aborted := ctx_aborted c1;
               ctx_Errors := ctx_Errors c1 |}, st2).
Proof.
  intros Hh E Hs HN Hwf. unfold SrvMiddleware. rewrite Hh.
  erewrite bind_Some by exact E. rewrite Hs.
  change (negb true) with false. cbv iota.
  erewrite bind_Some by exact HN.
  change (Response_Body (ctx_Response
            (ctx_Header (ctx_Header c1 "Content-Encoding" "deflate")
               "Vary" "Accept-Encoding")))
    with (Response_Body (ctx_Response c1)).
  destruct (deflate_nil_spec st1 (Response_Body (ctx_Response c1)) (srv_level d) Hwf)
    as (st2 & HD & Hv & _).
  exists (real_level arch st1 (srv_level d)).
  destruct (Response_Body (ctx_Response c1)) as [|x body] eqn:Eb.
  - exists st1. split; [exact Hv|]. reflexivity.
  - exists st2. split; [exact Hv|].
    assert (Hpos : (len (x :: body) >? 0) = true)
      by (unfold len; simpl length; destruct (Z.gtb_spec (Z.of_nat (S (length body))) 0);
          [reflexivity|lia]).
    rewrite Hpos. erewrite bind_Some by exact HD. reflexivity.
Qed.

Lemma SrvMiddleware_skip heap d o c st :
  heap !! srv_Options d = Some o ->
  no_decompression o c ->
  srv_shouldCompress o (ctx_Request c) = false ->
  SrvMiddleware' heap d c st = Some (c, st).
Proof.
  intros Hh Hd Hs.
  apply (SrvMiddleware_skip_after heap d o c st c st Hh
           (SrvMiddleware_decompress_passes o c st Hd) Hs).
Qed.

Lemma SrvMiddleware_compress heap d o c st c1 st1 :
  heap !! srv_Options d = Some o ->
  no_decompression o c ->
  srv_shouldCompress o (ctx_Request c) = true ->
  Next c st = Some (c1, st1) ->
  pools_wf st1 ->
  exists lv st2,
    valid_level lv /\
    SrvMiddleware' heap d c st =
      Some ({| ctx_Request := ctx_Request c1;
               ctx_Response :=
                 {| resp_Header :=
                      ResponseHeader_Set
                        (ResponseHeader_Set (resp_Header (ctx_Response c1))
                           "Content-Encoding" "deflate")
                        "Vary" "Accept-Encoding";
                    resp_StatusCode := resp_StatusCode (ctx_Response c1);
                    resp_body :=
                      match Response_Body (ctx_Response c1) with
                      | [] => resp_body (ctx_Response c1)
                      | _ :: _ =>
                          body_stream (stream lv (Response_Body (ctx_Response c1)))
                            (len (stream lv (Response_Body (ctx_Response c1))))
                      end |};
               ctx_aborted := ctx_aborted c1;
               ctx_Errors := ctx_Errors c1 |}, st2).
Proof.
  intros Hh Hd Hs HN Hwf.
  apply (SrvMiddleware_compress_after heap d o c st c st c1 st1 Hh
           (SrvMiddleware_decompress_passes o c st Hd) Hs HN Hwf).
Qed.

(** X16. [SrvMiddleware] on a request that its first step passes by.
    When [shouldCompress] says no, the context is returned as it came and
    the middleware runs no handler itself. When it says yes, the handlers
    after it run first; then the response gets [Content-Encoding: deflate]
    and [Vary: Accept-Encoding]; a body that is not empty is replaced by a
    stream over its compressed form, announced with the length of that
    form, at a level the codec supports; an empty body stays empty, under
    the same two headers. Request, status, abort mark and errors are those
    the handlers left. *)
Theorem SrvMiddleware_behaviour
    (heap : list Options) (d : deflateSrvMiddleware) (o : Options)
    (c : RequestContext) (st : Pools) :
  heap !! srv_Options d = Some o ->
  no_decompression o c ->
  (srv_shouldCompress o (ctx_Request c) = false ->
   SrvMiddleware' heap d c st = Some (c, st)) /\
  (forall c1 st1,
     srv_shouldCompress o (ctx_Request c) = true ->
     Next c st = Some (c1, st1) ->
     pools_wf st1 ->
     exists c2 st2 lv,
       SrvMiddleware' heap d c st = Some (c2, st2) /\
       valid_level lv /\
       ctx_Request c2 = ctx_Request c1 /\
       ctx_aborted c2 = ctx_aborted c1 /\
       ctx_Errors c2 = ctx_Errors c1 /\
       resp_StatusCode (ctx_Response c2) = resp_StatusCode (ctx_Response c1) /\
       resp_Header (ctx_Response c2) =
         ResponseHeader_Set
           (ResponseHeader_Set (resp_Header (ctx_Response c1))
              "Content-Encoding" "deflate")
           "Vary" "Accept-Encoding" /\
       (Response_Body (ctx_Response c1) = [] ->
        resp_body (ctx_Response c2) = resp_body (ctx_Response c1)) /\
       (Response_Body (ctx_Response c1) <> [] ->
        resp_body (ctx_Response c2) =
          body_stream (stream lv (Response_Body (ctx_Response c1)))
            (len (stream lv (Response_Body (ctx_Response c1)))))).
Proof.
  intros Hh Hd. split.
  - intros Hs. apply (SrvMiddleware_skip heap d o c st Hh Hd Hs).
  - intros c1 st1 Hs HN Hwf.
    destruct (SrvMiddleware_compress heap d o c st c1 st1 Hh Hd Hs HN Hwf)
      as (lv & st2 & Hv & H).
    eexists _, st2, lv. split; [exact H|]. split; [exact Hv|].
    cbn [ctx_Request ctx_aborted ctx_Errors ctx_Response resp_StatusCode resp_Header
         resp_body].
    repeat (split; [reflexivity|]).
    destruct (Response_Body (ctx_Response c1)) as [|x body].
    + split; [reflexivity|]. intros Hne. contradiction.
    + split; [discriminate|reflexivity].
Qed.

(** X17. A response that went through [SrvMiddleware] and then
    through [DefaultDecompressMiddlewareForClient] on the client, each side
    with pools of its own, has the body that the handlers wrote, with a nil
    error: for a body that is not empty because the stream inflates to it,
    and for an empty body because neither side touches it. *)
Theorem server_response_round_trip
    (heap : list Options) (d : deflateSrvMiddleware) (o : Options)
    (c c1 : RequestContext) (st st1 : Pools)
    (next : Endpoint) (req : Request) (stc : Pools) :
  heap !! srv_Options d = Some o ->
  no_decompression o c ->
  srv_shouldCompress o (ctx_Request c) = true ->
  Next c st = Some (c1, st1) ->
  pools_wf st1 ->
  len (Response_Body (ctx_Response c1)) < 2 ^ (int_bits arch - 1) ->
  exists c2 st2 resp3 stc',
    SrvMiddleware' heap d c st = Some (c2, st2) /\
    DefaultDecompressMiddlewareForClient arch zlib_read_header zlib_read_all CopyZeroAlloc
        next req (ctx_Response c2) stc =
      Some ((req, resp3, None), stc') /\
    Response_Body resp3 = Response_Body (ctx_Response c1).
Proof.
  intros Hh Hd Hs HN Hwf Hlen.
  destruct (SrvMiddleware_compress heap d o c st c1 st1 Hh Hd Hs HN Hwf)
    as (lv & st2 & Hv & H).
  destruct (Response_Body (ctx_Response c1)) as [|x body] eqn:Eb.
  - eexists _, st2, _, stc. split; [exact H|]. cbn [ctx_Response].
    unfold DefaultDecompressMiddlewareForClient.
    match goal with |- context [Response_Body ?r] =>
      change (Response_Body r) with (Response_Body (ctx_Response c1)) end.
    rewrite Eb. split; [reflexivity|exact Eb].
  - match type of H with _ = Some (?c2, _) =>
      destruct (DefaultDecompressMiddlewareForClient_sound next req (ctx_Response c2)
                  stc lv (x :: body))
        as (stc' & HC)
    end.
    + apply stream_not_nil, Hv.
    + reflexivity.
    + exact Hv.
    + exact Hlen.
    + eexists _, st2, _, stc'. split; [exact H|]. split; [exact HC|reflexivity].
Qed.
(** X18. With [DefaultDecompressHandle] set in [DecompressFn], a
    request that says its body is deflated, and whose body is the stream of
    some data, reaches the handlers with that data as its body and without
    the headers [Content-Encoding] and [Content-Length]: when
    [shouldCompress] turns the request down the middleware returns that
    context, and otherwise the handlers run on it before the response is
    compressed. *)
Theorem SrvMiddleware_decompresses_request
    (heap : list Options) (d : deflateSrvMiddleware) (o : Options)
    (c : RequestContext) (st : Pools) (lv : Z) (data : bytes) :
  heap !! srv_Options d = Some o ->
  opt_DecompressFn o =
    Some (DefaultDecompressHandle arch zlib_read_header zlib_read_all CopyZeroAlloc) ->
  strings_EqualFold (RequestHeader_Get (req_Header (ctx_Request c)) "Content-Encoding")
    "deflate" = true ->
  Request_Body (ctx_Request c) = stream lv data ->
  valid_level lv ->
  len data < 2 ^ (int_bits arch - 1) ->
  exists c0 st0,
    Request_Body (ctx_Request c0) = data /\
    req_Header (ctx_Request c0) =
      RequestHeader_DelBytes
        (RequestHeader_DelBytes (req_Header (ctx_Request c)) "Content-Encoding")
        "Content-Length" /\
    req_RequestURI (ctx_Request c0) = req_RequestURI (ctx_Request c) /\
    ctx_Response c0 = ctx_Response c /\
    ctx_aborted c0 = ctx_aborted c /\
    (srv_shouldCompress o (ctx_Request c0) = false ->
     SrvMiddleware' heap d c st = Some (c0, st0)) /\
    (forall c1 st1,
       srv_shouldCompress o (ctx_Request c0) = true ->
       Next c0 st0 = Some (c1, st1) ->
       pools_wf st1 ->
       exists c2 st2,
         SrvMiddleware' heap d c st = Some (c2, st2) /\
         ctx_Request c2 = ctx_Request c1 /\
         (Response_Body (ctx_Response c1) = [] ->
          Response_Body (ctx_Response c2) = []) /\
         (Response_Body (ctx_Response c1) <> [] ->
          exists lv',
            valid_level lv' /\
            Response_Body (ctx_Response c2) =
              stream lv' (Response_Body (ctx_Response c1)))).
Proof.
  intros Hh Hfn Hce Hb Hv Hlen.
  destruct (DefaultDecompressHandle_sound c st lv data) as (st0 & HD);
    [rewrite Hb; apply stream_not_nil, Hv|exact Hb|exact Hv|exact Hlen|].
  assert (E : SrvMiddleware_decompress o c st = Some (_, st0))
    by (unfold SrvMiddleware_decompress; rewrite Hfn, Hce; exact HD).
  match type of E with _ = Some (?c0, _) => exists c0, st0 end.
  split; [reflexivity|]. split; [reflexivity|]. split; [reflexivity|].
  split; [reflexivity|]. split; [reflexivity|]. split.
  - intros Hs. apply (SrvMiddleware_skip_after heap d o c st _ st0 Hh E Hs).
  - intros c1 st1 Hs HN Hwf.
    destruct (SrvMiddleware_compress_after heap d o c st _ st0 c1 st1 Hh E Hs HN Hwf)
      as (lv' & st2 & Hv' & H).
    eexists _, st2. split; [exact H|]. split; [reflexivity|].
    unfold Response_Body at 2 4. cbn [ctx_Response resp_body].
    destruct (Response_Body (ctx_Response c1)) as [|x body] eqn:Eb.
    + split; [intros _; exact Eb|]. intros Hne. contradiction.
    + split; [discriminate|]. intros _. exists lv'. split; [exact Hv'|reflexivity].
Qed.
End Server.

(** *** The client middleware *)

Local Abbreviation ClientMiddleware' :=
  (ClientMiddleware arch growslice zlib_write_out zlib_close_out).

Lemma ClientMiddleware_skip (next : Endpoint) heap d o req resp st :
  heap !! cli_Options d = Some o ->
  cli_shouldCompress o req = false ->
  ClientMiddleware' heap d next req resp st = Some ((req, resp, None), st).
Proof.
  intros Hh Hs. unfold ClientMiddleware. rewrite Hh, Hs. reflexivity.
Qed.

(** When [shouldCompress] says yes, the rest of [ClientMiddleware] runs on
    a request with the two headers set and, unless it was empty, its body
    replaced by a stream over the compressed form. *)
Lemma ClientMiddleware_compress (next : Endpoint) heap d o req resp st :
  heap !! cli_Options d = Some o ->
  cli_shouldCompress o req = true ->
  pools_wf st ->
  exists lv st1,
    valid_level lv /\
    ClientMiddleware' heap d next req resp st =
      ClientMiddleware_send o next
        {| req_Header :=
             RequestHeader_Set
               (RequestHeader_Set (req_Header req) "Content-Encoding" "deflate")
               "Vary" "Accept-Encoding";
           req_RequestURI := req_RequestURI req;
           req_body :=
             match Request_Body req with
             | [] => req_body req
             | _ :: _ =>
                 body_stream (stream lv (Request_Body req))
                   (len (stream lv (Request_Body req)))
             end |}
        resp st1.
Proof.
  intros Hh Hs Hwf. unfold ClientMiddleware. rewrite Hh, Hs.
  change (negb true) with false. cbv iota.
  change (Request_Body
            (Request_SetHeader (Request_SetHeader req "Content-Encoding" "deflate")
               "Vary" "Accept-Encoding"))
    with (Request_Body req).
  destruct (deflate_nil_spec st (Request_Body req) (cli_level d) Hwf)
    as (st1 & HD & Hv & _).
  exists (real_level arch st (cli_level d)).
  destruct (Request_Body req) as [|x body] eqn:Eb.
  - exists st. split; [exact Hv|]. reflexivity.
  - exists st1. split; [exact Hv|].
    assert (Hpos : (len (x :: body) >? 0) = true)
      by (unfold len; simpl length; destruct (Z.gtb_spec (Z.of_nat (S (length body))) 0);
          [reflexivity|lia]).
    rewrite Hpos. erewrite bind_Some by exact HD. reflexivity.
Qed.

(** X19. [ClientMiddleware]. For a request that [shouldCompress] turns
    down, the endpoint returns nil at once: the request is not changed and
    [next] is not called, so nothing is sent. Otherwise [next] is called
    once, with the headers [Content-Encoding: deflate] and
    [Vary: Accept-Encoding] set and a body that is not empty replaced by a
    stream over its compressed form; an error of [next] is returned as it
    is, and so is its result when no decompression is asked for or the
    response does not say it is deflated. *)
Theorem ClientMiddleware_behaviour
    (next : Endpoint) (heap : list ClientOptions) (d : deflateClientMiddleware)
    (o : ClientOptions) (req : Request) (resp : Response) (st : Pools) :
  heap !! cli_Options d = Some o ->
  (cli_shouldCompress o req = false ->
   ClientMiddleware' heap d next req resp st = Some ((req, resp, None), st)) /\
  (cli_shouldCompress o req = true ->
   pools_wf st ->
   exists lv st1 req',
     valid_level lv /\
     req_Header req' =
       RequestHeader_Set
         (RequestHeader_Set (req_Header req) "Content-Encoding" "deflate")
         "Vary" "Accept-Encoding" /\
     req_RequestURI req' = req_RequestURI req /\
     (Request_Body req = [] -> req_body req' = req_body req) /\
     (Request_Body req <> [] ->
      req_body req' =
        body_stream (stream lv (Request_Body req)) (len (stream lv (Request_Body req)))) /\
     (forall req2 resp2 e st2,
        next req' resp st1 = Some ((req2, resp2, Some e), st2) ->
        ClientMiddleware' heap d next req resp st = Some ((req2, resp2, Some e), st2)) /\
     (forall req2 resp2 st2,
        next req' resp st1 = Some ((req2, resp2, None), st2) ->
        copt_DecompressFnForClient o = None \/
        strings_EqualFold (ResponseHeader_Get (resp_Header resp2) "Content-Encoding")
          "deflate" = false ->
        ClientMiddleware' heap d next req resp st = Some ((req2, resp2, None), st2))).
Proof.
  intros Hh. split; [apply ClientMiddleware_skip; exact Hh|].
  intros Hs Hwf.
  destruct (ClientMiddleware_compress next heap d o req resp st Hh Hs Hwf)
    as (lv & st1 & Hv & H).
  match type of H with _ = ClientMiddleware_send _ _ ?r _ _ => exists lv, st1, r end.
  split; [exact Hv|].
  cbn [req_Header req_RequestURI req_body].
  split; [reflexivity|]. split; [reflexivity|].
  split; [intros Hb; rewrite Hb; reflexivity|].
  split; [destruct (Request_Body req); [contradiction|reflexivity]|].
  split.
  - intros req2 resp2 e st2 HN. rewrite H. unfold ClientMiddleware_send.
    erewrite bind_Some by exact HN. reflexivity.
  - intros req2 resp2 st2 HN Hd. rewrite H. unfold ClientMiddleware_send.
    erewrite bind_Some by exact HN.
    destruct Hd as [Hd|Hd]; rewrite Hd; [reflexivity|].
    destruct (copt_DecompressFnForClient o); reflexivity.
Qed.

(** X20. A request that went through [ClientMiddleware] and then,
    on the server, through [DefaultDecompressHandle] (each side with pools
    of its own) has the body it had at first, and is not aborted by the
    handler: the rest of [ClientMiddleware] runs on a request [req'] such
    that, on any context carrying [req'], [DefaultDecompressHandle] returns
    a context whose request body is the original one. *)
Theorem client_request_round_trip
    (next : Endpoint) (heap : list ClientOptions) (d : deflateClientMiddleware)
    (o : ClientOptions) (req : Request) (resp : Response) (st : Pools) :
  heap !! cli_Options d = Some o ->
  cli_shouldCompress o req = true ->
  pools_wf st ->
  len (Request_Body req) < 2 ^ (int_bits arch - 1) ->
  exists req' st1,
    ClientMiddleware' heap d next req resp st = ClientMiddleware_send o next req' resp st1 /\
    forall (c : RequestContext) (sts : Pools),
      ctx_Request c = req' ->
      exists c' sts',
        DefaultDecompressHandle arch zlib_read_header zlib_read_all CopyZeroAlloc c sts =
          Some (c', sts') /\
        Request_Body (ctx_Request c') = Request_Body req /\
        ctx_aborted c' = ctx_aborted c /\
        ctx_Errors c' = ctx_Errors c.
Proof.
  intros Hh Hs Hwf Hlen.
  destruct (ClientMiddleware_compress next heap d o req resp st Hh Hs Hwf)
    as (lv & st1 & Hv & H).
  eexists _, st1. split; [exact H|].
  intros c sts Hc.
  destruct (Request_Body req) as [|x body] eqn:Eb.
  - exists c, sts. unfold DefaultDecompressHandle.
    assert (E : Request_Body (ctx_Request c) = [])
      by (rewrite Hc; unfold Request_Body in *; cbn [req_body]; exact Eb).
    rewrite E. split; [reflexivity|]. split; [reflexivity|]. split; reflexivity.
  - destruct (DefaultDecompressHandle_sound c sts lv (x :: body)) as (sts' & HD).
    + rewrite Hc. apply stream_not_nil, Hv.
    + rewrite Hc. reflexivity.
    + exact Hv.
    + exact Hlen.
    + eexists _, sts'. split; [exact HD|]. split; [reflexivity|]. split; reflexivity.
Qed.
End MiddlewareProperties.

(** ** The properties above on examples *)

Lemma byteSliceReader_Read_in_pieces_witness :
  (0 < 2)%nat /\ (length (r_b {| r_b := hello |}) < 6)%nat /\
  byteSliceReader_drain 6 2 {| r_b := hello |} = (hello, Some EOF) /\
  byteSliceReader_Read {| r_b := hello |} 0 = ({| r_b := hello |}, [], (0, None)).
Proof.
  assert (H1 : (0 < 2)%nat) by lia.
  assert (H2 : (length (r_b {| r_b := hello |}) < 6)%nat) by (simpl; lia).
  split; [exact H1|]. split; [exact H2|].
  destruct (byteSliceReader_Read_in_pieces 2 6 {| r_b := hello |} H1 H2) as (Hd & Hz).
  split; [exact Hd|]. apply Hz. discriminate.
Defined.


Lemma in_range_requests_are_served_at_their_level_witness :
  valid_level 5 /\ accepting defaultByteWriter /\
  exists wi sti s' sts,
    StoredZlib.WriteDeflateLevel (W_bytes_Buffer []) hello 5 initPools =
      Some ((wi, (len hello, None)), sti) /\
    Writer_bytes wi =
      zlib_stream StoredZlib.zlib_write_out StoredZlib.zlib_close_out 5 hello /\
    StoredZlib.WriteDeflateLevel (W_other defaultByteWriter) hello 5 initPools =
      Some ((W_other s', (len hello, None)), sts) /\
    sink_data s' =
      zlib_stream StoredZlib.zlib_write_out StoredZlib.zlib_close_out 5 hello.
Proof.
  assert (Hv : valid_level 5) by (vm_compute; split; discriminate).
  assert (Ha : accepting defaultByteWriter) by (intros k p; reflexivity).
  split; [exact Hv|]. split; [exact Ha|].
  destruct (in_range_requests_are_served_at_their_level Arch64 StoredZlib.growslice
              StoredZlib.zlib_write_out StoredZlib.zlib_close_out
              StoredZlib.zlib_read_header StoredZlib.zlib_read_all
              StoredZlib.CopyZeroAlloc initPools (W_bytes_Buffer []) defaultByteWriter
              hello 5 (in_range_init _ _ _ _ _ _ _) Hv eq_refl Ha)
    as (_ & wi & sti & s' & sts & H1 & H2 & _ & H3 & H4 & _).
  exists wi, sti, s', sts. split; [exact H1|]. split; [exact H2|].
  split; [exact H3|exact H4].
Defined.

Lemma empty_pool_compresses_at_clamped_level_witness :
  pools_wf initPools /\
  index (realDeflateWriterPoolMap initPools) (normalizeCompressLevel Arch64 100) = Some [] /\
  exists heap' out st',
    StoredZlib.AppendDeflateBytesLevel [] nil_slice hello 100 initPools =
      Some (((heap', out), None), st') /\
    slice_bytes heap' out =
      zlib_stream StoredZlib.zlib_write_out StoredZlib.zlib_close_out 9 hello.
Proof.
  assert (Hi : index (realDeflateWriterPoolMap initPools)
                 (normalizeCompressLevel Arch64 100) = Some []) by reflexivity.
  split; [exact initPools_wf|]. split; [exact Hi|].
  exact (empty_pool_compresses_at_clamped_level Arch64 StoredZlib.growslice
           StoredZlib.zlib_write_out StoredZlib.zlib_close_out initPools [] nil_slice
           hello 100 initPools_wf Hi).
Defined.

Lemma AppendInflateBytes_damaged_input_witness :
  (exists st',
     StoredZlib.AppendInflateBytes XYZ_store XYZ hello initPools =
       Some (((XYZ_store, XYZ), Some ErrHeader), st')) /\
  (exists heap' res st',
     StoredZlib.AppendInflateBytes XYZ_store XYZ cut_stream initPools =
       Some (((heap', res), Some ErrUnexpectedEOF), st') /\
     slice_bytes heap' res = slice_bytes XYZ_store XYZ ++ ["h"; "i"]%byte).
Proof.
  split.
  - apply (proj1 (AppendInflateBytes_damaged_input Arch64
                    StoredZlib.zlib_read_header StoredZlib.zlib_read_all
                    StoredZlib.CopyZeroAlloc StoredZlibFacts.stored_copy_byteSliceWriter
                    initPools XYZ_store XYZ hello)).
    reflexivity.
  - apply (proj2 (AppendInflateBytes_damaged_input Arch64
                    StoredZlib.zlib_read_header StoredZlib.zlib_read_all
                    StoredZlib.CopyZeroAlloc StoredZlibFacts.stored_copy_byteSliceWriter
                    initPools XYZ_store XYZ cut_stream)).
    + reflexivity.
    + vm_compute. reflexivity.
    + vm_compute. reflexivity.
Defined.

Lemma stackless_writer_round_trip_witness :
  len hello < 2 ^ (int_bits Arch64 - 1) /\
  exists sw st1 sw1 sw2 lv,
    AcquireStacklessDeflateWriter Arch64 (W_bytes_Buffer []) (-1) initPools =
      Some (sw, st1) /\
    stackless_Write StoredZlib.growslice StoredZlib.zlib_write_out sw hello st1 =
      Some ((sw1, (len hello, None)), st1) /\
    stackless_Close StoredZlib.growslice StoredZlib.zlib_write_out
        StoredZlib.zlib_close_out sw1 st1 =
      Some ((sw2, None), st1) /\
    valid_level lv /\
    sw_dstW sw2 =
      W_bytes_Buffer
        ([] ++ zlib_stream StoredZlib.zlib_write_out StoredZlib.zlib_close_out lv hello) /\
    exists heap back st2,
      StoredZlib.AppendInflateBytes [] nil_slice
          (zlib_stream StoredZlib.zlib_write_out StoredZlib.zlib_close_out lv hello) st1 =
        Some (((heap, back), None), st2) /\
      slice_bytes heap back = hello.
Proof.
  assert (H : len hello < 2 ^ (int_bits Arch64 - 1)) by (vm_compute; reflexivity).
  split; [exact H|].
  exact (stackless_writer_round_trip Arch64 StoredZlib.growslice
           StoredZlib.zlib_write_out StoredZlib.zlib_close_out
           StoredZlib.zlib_read_header StoredZlib.zlib_read_all
           StoredZlib.CopyZeroAlloc
           StoredZlibFacts.stored_copy_byteSliceWriter
           (fun level p _ => StoredZlibFacts.stored_roundtrip level p)
           initPools [] hello (-1) initPools_wf H).
Defined.

Lemma default_options_leave_images_alone_witness :
  ".png" ∈ [".png"; ".gif"; ".jpeg"; ".jpg"] /\
  req_RequestURI (Plain.request "/image.png" hello) = "/image" +:+ ".png" /\
  (exists o,
     Options_heap (@initPackage Plain.library Plain.headers)
       !! DefaultOptions (@initPackage Plain.library Plain.headers) = Some o /\
     srv_shouldCompress o (Plain.request "/image.png" hello) = false) /\
  (exists o,
     ClientOptions_heap (@initPackage Plain.library Plain.headers)
       !! DefaultClientOptions (@initPackage Plain.library Plain.headers) = Some o /\
     cli_shouldCompress o (Plain.request "/image.png" hello) = false).
Proof.
  assert (H1 : ".png" ∈ [".png"; ".gif"; ".jpeg"; ".jpg"]) by apply list_elem_of_here.
  assert (H2 : req_RequestURI (Plain.request "/image.png" hello) = "/image" +:+ ".png")
    by reflexivity.
  split; [exact H1|]. split; [exact H2|].
  exact (@default_options_leave_images_alone Plain.library Plain.headers
           (Plain.request "/image.png" hello) "/image" ".png" H1 H2).
Defined.

Lemma options_are_shared_witness :
  @newDeflateSrvMiddleware Plain.library Plain.headers 6 [] initPackage =
    Some (Plain.server, initPackage) /\
  (exists d1 pk1 d2 o,
     @newDeflateSrvMiddleware Plain.library Plain.headers 1 [WithExcludedPaths ["/api/"]]
         initPackage = Some (d1, pk1) /\
     newDeflateSrvMiddleware 9 [] pk1 = Some (d2, pk1) /\
     Options_heap pk1 !! srv_Options Plain.server = Some o /\
     Options_heap pk1 !! srv_Options d2 = Some o /\
     srv_shouldCompress o (Plain.request "/api/books" []) = false).
Proof.
  assert (H0 : @newDeflateSrvMiddleware Plain.library Plain.headers 6 [] initPackage =
                 Some (Plain.server, initPackage)) by reflexivity.
  split; [exact H0|].
  destruct (@options_are_shared Plain.library Plain.headers 6 1 9 [] ["/api/"]
              initPackage initPackage Plain.server _ H0 eq_refl)
    as (d1 & pk1 & d2 & o & E1 & E2 & L0 & _ & L2 & _ & Hs).
  exists d1, pk1, d2, o. split; [exact E1|]. split; [exact E2|].
  split; [exact L0|]. split; [exact L2|].
  apply (Hs (Plain.request "/api/books" []) "/api/" "books");
    [apply list_elem_of_here|reflexivity].
Defined.

(** The request and the response that carry the stream of "hello". *)
Lemma DefaultDecompressHandle_cases_witness :
  Request_Body (ctx_Request (Plain.context "/"
     (zlib_stream StoredZlib.zlib_write_out StoredZlib.zlib_close_out 6 hello))) <> [] /\
  valid_level 6 /\
  len hello < 2 ^ (int_bits Arch64 - 1) /\
  exists c' st',
    @DefaultDecompressHandle Plain.headers Arch64 StoredZlib.zlib_read_header
        StoredZlib.zlib_read_all StoredZlib.CopyZeroAlloc
        (Plain.context "/"
           (zlib_stream StoredZlib.zlib_write_out StoredZlib.zlib_close_out 6 hello))
        initPools =
      Some (c', st') /\
    Request_Body (ctx_Request c') = hello /\
    ctx_aborted c' = false.
Proof.
  assert (H1 : Request_Body (ctx_Request (Plain.context "/"
     (zlib_stream StoredZlib.zlib_write_out StoredZlib.zlib_close_out 6 hello))) <> [])
    by discriminate.
  assert (H2 : valid_level 6) by (vm_compute; split; discriminate).
  assert (H3 : len hello < 2 ^ (int_bits Arch64 - 1)) by (vm_compute; reflexivity).
  split; [exact H1|]. split; [exact H2|]. split; [exact H3|].
  destruct (proj2 (proj2 (@DefaultDecompressHandle_cases Plain.headers Arch64
              StoredZlib.zlib_write_out StoredZlib.zlib_close_out
              StoredZlib.zlib_read_header StoredZlib.zlib_read_all
              StoredZlib.CopyZeroAlloc
              StoredZlibFacts.stored_copy_byteSliceWriter
              (fun level p _ => StoredZlibFacts.stored_roundtrip level p)
              (Plain.context "/"
                 (zlib_stream StoredZlib.zlib_write_out StoredZlib.zlib_close_out 6 hello))
              initPools)) 6 hello H1 eq_refl H2 H3) as (st' & H).
  eexists _, st'. split; [exact H|]. split; reflexivity.
Defined.

Lemma DefaultDecompressMiddlewareForClient_cases_witness :
  Response_Body (Plain.response hello) <> [] /\
  StoredZlib.zlib_read_header (Response_Body (Plain.response hello)) = Some ErrHeader /\
  forall next : @Endpoint Plain.headers,
  exists st',
    DefaultDecompressMiddlewareForClient Arch64 StoredZlib.zlib_read_header
        StoredZlib.zlib_read_all StoredZlib.CopyZeroAlloc
        next (Plain.request "/" []) (Plain.response hello) initPools =
      Some ((Plain.request "/" [], Plain.response hello, Some ErrHeader), st').
Proof.
  assert (H1 : Response_Body (Plain.response hello) <> []) by discriminate.
  assert (H2 : StoredZlib.zlib_read_header (Response_Body (Plain.response hello))
               = Some ErrHeader) by reflexivity.
  split; [exact H1|]. split; [exact H2|]. intros next.
  exact (proj1 (proj2 (@DefaultDecompressMiddlewareForClient_cases Plain.headers Arch64
           StoredZlib.zlib_write_out StoredZlib.zlib_close_out
           StoredZlib.zlib_read_header StoredZlib.zlib_read_all
           StoredZlib.CopyZeroAlloc
           StoredZlibFacts.stored_copy_byteSliceWriter
           (fun level p _ => StoredZlibFacts.stored_roundtrip level p)
           next (Plain.request "/" []) (Plain.response hello) initPools))
         ErrHeader H1 H2).
Defined.

Lemma SrvMiddleware_behaviour_witness :
  Options_heap (@initPackage Plain.library Plain.headers) !! srv_Options Plain.server <> None /\
  exists c2 st2 lv,
    @SrvMiddleware Plain.library Plain.headers Arch64 StoredZlib.growslice
        StoredZlib.zlib_write_out StoredZlib.zlib_close_out Plain.Next_hello
        (Options_heap initPackage) Plain.server (Plain.context "/" []) initPools =
      Some (c2, st2) /\
    valid_level lv /\
    resp_Header (ctx_Response c2) =
      [("Content-Encoding", "deflate"); ("Vary", "Accept-Encoding")] /\
    resp_body (ctx_Response c2) =
      body_stream
        (zlib_stream StoredZlib.zlib_write_out StoredZlib.zlib_close_out lv hello)
        (len (zlib_stream StoredZlib.zlib_write_out StoredZlib.zlib_close_out lv hello)).
Proof.
  split; [discriminate|].
  destruct (proj2 (@SrvMiddleware_behaviour Plain.library Plain.headers Arch64
              StoredZlib.growslice StoredZlib.zlib_write_out StoredZlib.zlib_close_out
              Plain.Next_hello (Options_heap initPackage) Plain.server _
              (Plain.context "/" []) initPools eq_refl (or_introl eq_refl))
              _ initPools ltac:(vm_compute; reflexivity) eq_refl initPools_wf)
    as (c2 & st2 & lv & H & Hv & _ & _ & _ & _ & Hh & _ & Hb).
  exists c2, st2, lv. split; [exact H|]. split; [exact Hv|].
  split; [exact Hh|]. apply Hb. discriminate.
Defined.

Lemma server_response_round_trip_witness :
  exists c2 st2 resp3 stc',
    @SrvMiddleware Plain.library Plain.headers Arch64 StoredZlib.growslice
        StoredZlib.zlib_write_out StoredZlib.zlib_close_out Plain.Next_hello
        (Options_heap initPackage) Plain.server (Plain.context "/" []) initPools =
      Some (c2, st2) /\
    DefaultDecompressMiddlewareForClient Arch64 StoredZlib.zlib_read_header
        StoredZlib.zlib_read_all StoredZlib.CopyZeroAlloc
        Plain.next_echo (Plain.request "/" []) (ctx_Response c2) initPools =
      Some ((Plain.request "/" [], resp3, None), stc') /\
    Response_Body resp3 = hello.
Proof.
  exact (@server_response_round_trip Plain.library Plain.headers Arch64
           StoredZlib.growslice StoredZlib.zlib_write_out StoredZlib.zlib_close_out
           StoredZlib.zlib_read_header StoredZlib.zlib_read_all StoredZlib.CopyZeroAlloc
           StoredZlibFacts.stored_copy_byteSliceWriter
           (fun level p _ => StoredZlibFacts.stored_roundtrip level p)
           StoredZlibFacts.stored_header_of_nothing
           Plain.Next_hello (Options_heap initPackage) Plain.server _
           (Plain.context "/" []) _ initPools initPools Plain.next_echo
           (Plain.request "/" [])
           initPools eq_refl (or_introl eq_refl) ltac:(vm_compute; reflexivity)
           eq_refl initPools_wf ltac:(vm_compute; reflexivity)).
Defined.

Lemma ClientMiddleware_behaviour_witness :
  ClientOptions_heap (@initPackage Plain.library Plain.headers) !! cli_Options Plain.client
    <> None /\
  @ClientMiddleware Plain.library Plain.headers Arch64 StoredZlib.growslice
      StoredZlib.zlib_write_out StoredZlib.zlib_close_out
      (ClientOptions_heap initPackage) Plain.client Plain.next_echo
      (Plain.request "/image.png" hello) (Plain.response []) initPools =
    Some ((Plain.request "/image.png" hello, Plain.response [], None), initPools).
Proof.
  split; [discriminate|].
  apply (proj1 (@ClientMiddleware_behaviour Plain.library Plain.headers Arch64
                  StoredZlib.growslice StoredZlib.zlib_write_out StoredZlib.zlib_close_out
                  Plain.next_echo (ClientOptions_heap initPackage) Plain.client _
                  (Plain.request "/image.png" hello) (Plain.response []) initPools
                  eq_refl)).
  vm_compute. reflexivity.
Defined.

Lemma client_request_round_trip_witness :
  exists req' st1 c' sts',
    @ClientMiddleware Plain.library Plain.headers Arch64 StoredZlib.growslice
        StoredZlib.zlib_write_out StoredZlib.zlib_close_out
        (ClientOptions_heap initPackage) Plain.client Plain.next_echo
        (Plain.request "/" hello) (Plain.response []) initPools =
      @ClientMiddleware_send Plain.library Plain.headers
        {| copt_ExcludedExtensions := DefaultExcludedExtensions;
           copt_ExcludedPaths := [];
           copt_ExcludedPathRegexes := [];
           copt_DecompressFnForClient := None |}
        Plain.next_echo req' (Plain.response []) st1 /\
    DefaultDecompressHandle Arch64 StoredZlib.zlib_read_header
        StoredZlib.zlib_read_all StoredZlib.CopyZeroAlloc
        {| ctx_Request := req'; ctx_Response := Plain.response [];
           ctx_aborted := false; ctx_Errors := [] |} initPools =
      Some (c', sts') /\
    Request_Body (ctx_Request c') = hello /\
    ctx_aborted c' = false.
Proof.
  destruct (@client_request_round_trip Plain.library Plain.headers Arch64
              StoredZlib.growslice StoredZlib.zlib_write_out StoredZlib.zlib_close_out
              StoredZlib.zlib_read_header StoredZlib.zlib_read_all StoredZlib.CopyZeroAlloc
              StoredZlibFacts.stored_copy_byteSliceWriter
              (fun level p _ => StoredZlibFacts.stored_roundtrip level p)
              StoredZlibFacts.stored_header_of_nothing
              Plain.next_echo (ClientOptions_heap initPackage) Plain.client _
              (Plain.request "/" hello) (Plain.response []) initPools
              eq_refl ltac:(vm_compute; reflexivity) initPools_wf
              ltac:(vm_compute; reflexivity))
    as (req' & st1 & H & Hc).
  destruct (Hc {| ctx_Request := req'; ctx_Response := Plain.response [];
                  ctx_aborted := false; ctx_Errors := [] |} initPools eq_refl)
    as (c' & sts' & HD & Hb & Ha & _).
  exists req', st1, c', sts'. split; [exact H|]. split; [exact HD|].
  split; [exact Hb|exact Ha].
Defined.

Lemma SrvMiddleware_decompresses_request_witness :
  valid_level 6 /\
  len hello < 2 ^ (int_bits Arch64 - 1) /\
  exists c0 st0,
    @SrvMiddleware Plain.library Plain.headers Arch64 StoredZlib.growslice
        StoredZlib.zlib_write_out StoredZlib.zlib_close_out Plain.Next_hello
        [Plain.decompressing_options] Plain.server
        (Plain.deflated_context
           (zlib_stream StoredZlib.zlib_write_out StoredZlib.zlib_close_out 6 hello))
        initPools =
      Some (c0, st0) /\
    Request_Body (ctx_Request c0) = hello /\
    req_Header (ctx_Request c0) = [].
Proof.
  assert (H2 : valid_level 6) by (vm_compute; split; discriminate).
  assert (H3 : len hello < 2 ^ (int_bits Arch64 - 1)) by (vm_compute; reflexivity).
  split; [exact H2|]. split; [exact H3|].
  destruct (@SrvMiddleware_decompresses_request Plain.library Plain.headers Arch64
              StoredZlib.growslice StoredZlib.zlib_write_out StoredZlib.zlib_close_out
              StoredZlib.zlib_read_header StoredZlib.zlib_read_all StoredZlib.CopyZeroAlloc
              StoredZlibFacts.stored_copy_byteSliceWriter
              (fun level p _ => StoredZlibFacts.stored_roundtrip level p)
              StoredZlibFacts.stored_header_of_nothing
              Plain.Next_hello [Plain.decompressing_options] Plain.server
              Plain.decompressing_options
              (Plain.deflated_context
                 (zlib_stream StoredZlib.zlib_write_out StoredZlib.zlib_close_out 6 hello))
              initPools 6 hello eq_refl eq_refl eq_refl eq_refl H2 H3)
    as (c0 & st0 & Hb & Hh & Hu & _ & _ & Hskip & _).
  exists c0, st0. split; [|split; [exact Hb|exact Hh]].
  apply Hskip. unfold srv_shouldCompress. rewrite Hh, Hu. reflexivity.
Defined.
